(* ===== verification/_CoqProject ===== *)
-Q . S2P
Prelude.v
Runtime.v
JsObject.v
Escape.v
Sorting.v
Slug.v
Url.v
Markup.v
Posts.v
Related.v
Tags.v
Template.v
Feeds.v
Json.v
Pages.v
Build.v
Search.v
Widget.v
