(* ===== verification/Prelude.v ===== *)
(** * A verification development for the static-site generator

    ** The program

    The program is the build script [src/scripts/build.js], a Node.js
    static-site generator, with the browser scripts
    [src/src/assets/js/search.js] and [src/src/assets/js/main.js].  One run
    of [main] removes the build directory, reads the templates and the
    Markdown posts, validates and normalises each post into a post record
    ([loadPosts], [validateFrontmatter], [slugify], [toPublicUrl]), sorts
    the posts by date, groups them by tag ([buildTagsMap]), renders the
    pages through a placeholder template engine ([renderTemplate],
    [renderLayout], the six page builders, the cards), and writes the
    derived artifacts ([writeJson], [writeSitemap], [writeRobots],
    [writeRss]).  Any exception ends the run.

    ** Files of the development, in dependency order

    - [Prelude] (this file): JavaScript strings as lists of UTF-16 code
      units, the character classes of the regular expressions of the
      script, the string and array methods it calls ([trim], [startsWith],
      [join], [slice0], global replacement), the [result] type of code that
      can throw, the tactics and hint databases of the development.
    - [Runtime]: JavaScript values ([jsval], [String(v)], truthiness) and
      the libraries of the runtime as type classes with laws: [Unicode]
      (NFD, [toLowerCase]), [Collation] ([localeCompare]), [UrlApi] (the
      URL constructor), [DateApi] ([Date], [Intl.DateTimeFormat]),
      [FrontMatter] (gray-matter); an instance of each for evaluation.
    - [JsObject]: object literals as association lists in own-property
      order (array indices ascending, then insertion order), reads through
      [Object.prototype], [Object.keys], [Object.entries],
      [Object.fromEntries], object spread; the invariant [obj_wf], its
      preservation, and that an object is rebuilt from its entries (array
      indices are canonical numerals).
    - [Escape]: [escapeHtml] and [escapeXml] as the five replace passes of
      the script; equivalence with one-pass escaping, absence of
      delimiters in the result, the round trip with entity decoding, and
      [markup_count], the measure used to show that text cannot add markup.
    - [Sorting]: [Array.prototype.sort] as a stable insertion sort
      ([js_sort]); permutation, sortedness, stability, for every total and
      transitive comparison function.
    - [Slug]: [slugify]; the shape, character set and length of a slug,
      its fixed points, and the inputs on which slugs collide or end in a
      hyphen.
    - [Url]: [SITE] as a function of the environment ([mkSite],
      [inferDefaultOrigin], [inferBasePathFromRepository],
      [normalizeOrigin], [normalizeBasePath]), [normalizePath],
      [toPublicUrl], [toAbsoluteUrl]; well-formedness of the configuration
      and the form of public URLs.
    - [Markup]: [addLazyLoadingToImages], [stripHtml], [isExternalLink]
      and the effect of the [link_open] rule on the attributes of a link
      ([linkOpenAttrs]), with the Markdown renderer as a type class; the
      image tags the lazy-loading pass rewrites and those it misses, and
      the attributes of a link that opens in a new tab.
    - [Posts]: the post record, [validateFrontmatter], [loadPosts] with its
      loop body [loadPost]; the exceptions of a build ([build_error]) and
      their messages; validation, order, completeness, stability, the
      first-error rule and the invariant [post_wf] of a loaded post.
    - [Related]: [findRelatedPosts]; bounds, ranking and fallback.
    - [Tags]: [buildTagsMap] and [buildSearchIndex]; the keys and entries
      of the tag map, its key order, and the tags that make it throw.
    - [Template]: [renderTemplate] and [renderLayout]; rendering
      placeholder by placeholder, parameters against defaults, names
      inherited from [Object.prototype].
    - [Feeds]: [writeSitemap], [writeRobots], [writeRss] as functions to the
      text they write; the pages without duplicates, and the markup of the
      sitemap and the feed.
    - [Json]: [JSON.stringify] with and without indentation, on the values
      the script serialises, and [JSON.parse] on those values; the parser
      reads back what the indented layout wrote.
    - [Pages]: [renderArticleCard], [renderRelatedCard],
      [buildPostStructuredData] and the builders [buildHomePage],
      [buildBlogPage], [buildProjectsPage], [buildAboutPage], the loop
      bodies of [buildPostPages] and [buildTagPages]; the markup of the
      cards, the exceptions of the builders, and the places where the text
      of a post reaches a page without being escaped.
    - [Build]: [main] and [cleanBuildDir], [loadTemplates], [copyAssets],
      [copyAdsFile], [writeHtml], [writeJson], [buildPostPages],
      [buildTagPages] as computations over the state of a build: the files
      of the build directory (a [gmap] from relative path to content), the
      array [pages], the number of clock readings and the console.  A
      computation returns the state with a value or with the exception
      that ended it.  The theorems give the files and the entries of
      [pages] of a build that returns, with the content of the derived
      files, under the conditions that make it return ([main_returns]),
      and the state a failed build leaves.
    - [Search]: the functions of [search.js] on the records of
      [search-index.json]: the reading of the index ([readIndex]),
      [safePath], [esc], [toCardHtml], [render], [applyFilters] and the
      options of the tag filter.  The page is the
      pair of the markup of the results element and the text of the
      counter ([View]); Fuse.js is a type class whose law is that a search
      returns records of the index.  The theorems show that the widget
      reads the records the generator wrote, give the records a choice of
      term, category and tag shows, relate the card of the widget to the
      card of the generator, and show that every option the generator
      offers in the filters has a result.

    ** Modelling conventions

    - A JavaScript string is a [list N] of UTF-16 code units; [js "..."]
      embeds an ASCII literal.  [length], [slice] and the regular
      expressions of the script count code units, and so does the model.
    - A [replace] with a global regular expression is the scanner that
      computes the same result: [replace_each] for one character,
      [replace_runs] for [[class]+], [replace_matches] for a pattern with
      a matcher that says how far a match extends.  The scanners recurse
      on the text, so they need no fuel and are total.  The bounds of the
      script are kept: 80 code units of a slug, 20 items of the feed, 3
      related posts, 3 cards of the home page.
    - The one definition with fuel is the JSON parser ([parse_value] in
      [Json]), which recurses on nested values: [json_parse] gives it one
      unit more than the length of the text, and [parse_value_pretty]
      shows that the length of a printed value is enough to read it back,
      so the round trip holds for every value and not only when the
      parser returns.
    - Code that throws returns [Err e]; the error carries the data the
      message is built from.  The pipeline keeps the state reached when
      the exception is thrown, since the files written so far stay on
      disk.
    - A library whose result depends on tables that are not in the
      repository (Unicode, collation, URL parsing, dates, gray-matter,
      markdown-it with highlight.js, html-minifier-terser) is a type class;
      theorems hold for every instance, with the laws they need stated in
      the class or as hypotheses, and simple instances make every
      definition executable.
    - The texts of the template literals of the page builders were taken
      from the script code unit by code unit, white space included.

    ** Not modelled

    - The tokenizer and the highlighter of markdown-it (the [Markdown]
      class stands for [md.render]); [formatDate] beyond its type
      ([DateApi]); the concurrency of [Promise.all] in [loadTemplates]
      (the templates are read in the order of their names); directories
      without files and file modes in [copyAssets].
    - In [search.js]: [fetch] and the failure of the request, the event
      listeners, and the guards for elements missing from the page; the
      ranking of Fuse.js beyond the law of the class.  [JSON.parse] is
      modelled on strings, arrays and objects, the values the script
      writes; numbers and literal names are rejected.
    - [main.js] (one push to the queue of the ad library for each slot),
      the shell script that runs the build and a file server, and the
      documentation. *)

From Stdlib Require Import NArith ZArith Ascii String List Lia.
From stdpp Require Import base tactics numbers option list.

(** ** JavaScript strings as lists of UTF-16 code units *)

Abbreviation jschar := N.
Abbreviation jsstring := (list N).

Definition chr (a : ascii) : jschar := N_of_ascii a.
Arguments chr a%_char_scope.

Fixpoint js (s : string) : jsstring :=
  match s with
  | EmptyString => []
  | String a r => chr a :: js r
  end.
Arguments js s%_string_scope : simpl never.

(** The double quote and the line feed, which a string literal of this
    development cannot hold. *)
Definition dquote : jschar := 34%N.
Definition newline : jschar := 10%N.

(** [s] between double quotes. *)
Definition quoted (s : jsstring) : jsstring := dquote :: s ++ [dquote].

(** ** Character classes *)

Definition in_range (lo hi c : N) : bool := ((lo <=? c) && (c <=? hi))%N.

Definition is_digit (c : jschar) : bool := in_range 48 57 c.
Definition is_lower (c : jschar) : bool := in_range 97 122 c.
Definition is_upper (c : jschar) : bool := in_range 65 90 c.

(** The class [[a-z0-9]] of [slugify]. *)
Definition is_slug_char (c : jschar) : bool := is_lower c || is_digit c.

(** The class [[a-zA-Z0-9_]] of [renderTemplate]. *)
Definition is_word_char (c : jschar) : bool :=
  is_lower c || is_upper c || is_digit c || (c =? 95)%N.

(** ECMAScript WhiteSpace and LineTerminator code points: the class [\s] of
    regular expressions and the characters [String.prototype.trim] strips. *)
Definition is_space (c : jschar) : bool :=
  in_range 9 13 c || (c =? 32)%N || (c =? 160)%N || (c =? 5760)%N
  || in_range 8192 8202 c || (c =? 8232)%N || (c =? 8233)%N
  || (c =? 8239)%N || (c =? 8287)%N || (c =? 12288)%N || (c =? 65279)%N.

(** ** String and array primitives *)

Section ListPrims.
Context {A : Type}.

Fixpoint drop_while (p : A → bool) (l : list A) : list A :=
  match l with
  | [] => []
  | x :: r => if p x then drop_while p r else l
  end.

Definition drop_while_end (p : A → bool) (l : list A) : list A :=
  reverse (drop_while p (reverse l)).

(** [Array.prototype.slice(0, n)] and [String.prototype.slice(0, n)]. *)
Definition slice0 (n : nat) (l : list A) : list A := take n l.

(** [s.replace(/c/g, r)] for a pattern that matches exactly one element. *)
Definition replace_each (p : A → bool) (r : list A) (l : list A) : list A :=
  flat_map (λ x, if p x then r else [x]) l.

(** [s.replace(/[class]+/g, r)]: every maximal run of elements of the class
    becomes one copy of [r].  [in_run] says that the previous element was in
    the class, so that the replacement has already been emitted. *)
Fixpoint replace_runs_from (p : A → bool) (r : list A) (in_run : bool)
    (l : list A) : list A :=
  match l with
  | [] => []
  | x :: t =>
      if p x
      then (if in_run then [] else r) ++ replace_runs_from p r true t
      else x :: replace_runs_from p r false t
  end.

Definition replace_runs (p : A → bool) (r : list A) (l : list A) : list A :=
  replace_runs_from p r false l.

Fixpoint take_while (p : A → bool) (l : list A) : list A :=
  match l with
  | [] => []
  | x :: r => if p x then x :: take_while p r else []
  end.

(** [s.replace(/pattern/g, replacer)] for a pattern that never matches the
    empty string.  [matcher s] tells whether the pattern matches at the start
    of [s], and then the number of elements the match consumes after the
    first one and the text that replaces it.  The scan copies an element where
    nothing matches, and skips the elements a match has consumed. *)
Fixpoint replace_matches_skip (matcher : list A → option (nat * list A))
    (skip : nat) (l : list A) : list A :=
  match l with
  | [] => []
  | x :: t =>
      match skip with
      | S k => replace_matches_skip matcher k t
      | O =>
          match matcher l with
          | Some (n, out) => out ++ replace_matches_skip matcher n t
          | None => x :: replace_matches_skip matcher 0 t
          end
      end
  end.

Definition replace_matches (matcher : list A → option (nat * list A))
    (l : list A) : list A :=
  replace_matches_skip matcher 0 l.

End ListPrims.

(** [String.prototype.trim]. *)
Definition trim (s : jsstring) : jsstring :=
  drop_while_end is_space (drop_while is_space s).

Fixpoint startsWith (p s : jsstring) : bool :=
  match p, s with
  | [], _ => true
  | a :: p', b :: s' => (a =? b)%N && startsWith p' s'
  | _ :: _, [] => false
  end.

Definition endsWith (p s : jsstring) : bool :=
  startsWith (reverse p) (reverse s).

(** [Array.prototype.join(sep)] on an array of strings. *)
Fixpoint join (sep : jsstring) (l : list jsstring) : jsstring :=
  match l with
  | [] => []
  | [s] => s
  | s :: r => s ++ sep ++ join sep r
  end.

(** ** Fallible code *)

Inductive result (E A : Type) : Type :=
  | Ok (a : A)
  | Err (e : E).
Arguments Ok {E A} a.
Arguments Err {E A} e.

#[export] Instance result_ret {E} : MRet (result E) := λ A a, Ok a.
#[export] Instance result_bind {E} : MBind (result E) := λ A B f m,
  match m with Ok a => f a | Err e => Err e end.
#[export] Instance result_fmap {E} : FMap (result E) := λ A B f m,
  match m with Ok a => Ok (f a) | Err e => Err e end.

Definition is_Ok {E A} (m : result E A) : bool :=
  match m with Ok _ => true | Err _ => false end.

Lemma bind_Ok {E A B} (m : result E A) (f : A → result E B) (b : B) :
  m ≫= f = Ok b ↔ ∃ a, m = Ok a ∧ f a = Ok b.
Proof. destruct m; simpl; naive_solver. Qed.

Lemma bind_Err {E A B} (m : result E A) (f : A → result E B) (e : E) :
  m ≫= f = Err e ↔ m = Err e ∨ ∃ a, m = Ok a ∧ f a = Err e.
Proof. destruct m; simpl; naive_solver. Qed.

(** Inversion of a successful run of monadic code. *)
Lemma Ok_inj {E A} (a b : A) : @Ok E A a = Ok b → a = b.
Proof. congruence. Qed.

Ltac inv_Ok :=
  repeat match goal with
  | H : _ ≫= _ = Ok _ |- _ => apply bind_Ok in H as (? & ? & H)
  | H : Ok _ = Ok _ |- _ => apply Ok_inj in H
  | H : Err _ = Ok _ |- _ => discriminate H
  end.

(** ** Hint databases and tactics *)

Create HintDb js discriminated.
Create Rewrite HintDb js.

(** Turn the boolean tests of character classes into arithmetic facts. *)
Ltac unfold_classes :=
  unfold is_slug_char, is_word_char, is_space, is_digit, is_lower, is_upper,
    in_range in *.

Ltac bool_to_prop :=
  repeat match goal with
  | H : _ && _ = true |- _ => apply andb_true_iff in H; destruct H
  | H : _ || _ = true |- _ => apply orb_true_iff in H; destruct H
  | H : _ && _ = false |- _ => apply andb_false_iff in H; destruct H
  | H : _ || _ = false |- _ => apply orb_false_iff in H; destruct H
  | H : (_ <=? _)%N = true |- _ => apply N.leb_le in H
  | H : (_ <=? _)%N = false |- _ => apply N.leb_gt in H
  | H : (_ =? _)%N = true |- _ => apply N.eqb_eq in H
  | H : (_ =? _)%N = false |- _ => apply N.eqb_neq in H
  end.

(** Case analysis on a test [a =? b] of the goal; an equation is substituted. *)
Ltac case_N_eqb :=
  match goal with
  | |- context [(?a =? ?b)%N] => destruct (N.eqb_spec a b); [subst |]
  end.

Ltac solve_class := unfold_classes; bool_to_prop; try lia.

(** ** Lemmas on the primitives *)

Lemma js_cons (a : ascii) (s : string) : js (String a s) = chr a :: js s.
Proof. done. Qed.

Lemma js_app (s t : string) : js (s ++ t)%string = js s ++ js t.
Proof.
  induction s as [|a s IH]; [done |].
  change (String a s ++ t)%string with (String a (s ++ t)%string).
  by rewrite !js_cons, IH.
Qed.

Lemma js_length (s : string) : length (js s) = String.length s.
Proof. induction s as [|a s IH]; [done |]. rewrite js_cons. simpl. by f_equal. Qed.

Lemma startsWith_cons (a b : jschar) (p s : jsstring) :
  startsWith (a :: p) (b :: s) = (a =? b)%N && startsWith p s.
Proof. done. Qed.

Lemma startsWith_cons_ne (a b : jschar) (p s : jsstring) :
  a ≠ b → startsWith (a :: p) (b :: s) = false.
Proof. intros Hne. simpl. by rewrite (proj2 (N.eqb_neq a b) Hne). Qed.

Lemma startsWith_js_ne (a : ascii) (p : string) (c : jschar) (s : jsstring) :
  c ≠ chr a → startsWith (js (String a p)) (c :: s) = false.
Proof. intros Hne. rewrite js_cons. by apply startsWith_cons_ne. Qed.

Lemma startsWith_app (p s : jsstring) : startsWith p (p ++ s) = true.
Proof. induction p as [|a p IH]; simpl; [done |]. by rewrite N.eqb_refl. Qed.

Lemma startsWith_prefix (p s : jsstring) :
  startsWith p s = true ↔ p `prefix_of` s.
Proof.
  revert s. induction p as [|a p IH]; intros [|b s]; simpl.
  - split; [intros _; apply prefix_nil | done].
  - split; [intros _; apply prefix_nil | done].
  - split; [done | intros H%prefix_nil_inv; done].
  - rewrite andb_true_iff, N.eqb_eq, IH. split.
    + intros [-> H]. by apply prefix_cons.
    + intros H. split; [by apply prefix_cons_inv_1 in H | by apply prefix_cons_inv_2 in H].
Qed.

Section ListPrimLemmas.
Context {A : Type}.
Implicit Types (p : A → bool) (l r : list A).

Lemma drop_while_app_false p l x t :
  Forall (λ y, p y = true) l → p x = false →
  drop_while p (l ++ x :: t) = x :: t.
Proof. induction 1 as [|y l Hy _ IH]; simpl; intros Hx; [by rewrite Hx | rewrite Hy; auto]. Qed.

Lemma drop_while_all p l :
  Forall (λ y, p y = true) l → drop_while p l = [].
Proof. induction 1 as [|y l Hy _ IH]; simpl; [done | by rewrite Hy]. Qed.

Lemma drop_while_suffix p l : drop_while p l `suffix_of` l.
Proof.
  induction l as [|x l IH]; simpl; [done |].
  destruct (p x); [by apply suffix_cons_r | done].
Qed.

Lemma drop_while_length p l : length (drop_while p l) ≤ length l.
Proof. apply suffix_length, drop_while_suffix. Qed.

Lemma drop_while_head p l x t : drop_while p l = x :: t → p x = false.
Proof.
  induction l as [|y l IH]; simpl; [done |].
  destruct (p y) eqn:Hy; [done | congruence].
Qed.

Lemma drop_while_id p l x : p x = false → drop_while p (x :: l) = x :: l.
Proof. simpl. by intros ->. Qed.

Lemma drop_while_end_prefix p l : drop_while_end p l `prefix_of` l.
Proof.
  unfold drop_while_end. destruct (drop_while_suffix p (reverse l)) as [k Hk].
  exists (reverse k). apply (f_equal reverse) in Hk.
  by rewrite reverse_involutive, reverse_app in Hk.
Qed.

Lemma drop_while_end_last p l x :
  last (drop_while_end p l) = Some x → p x = false.
Proof.
  unfold drop_while_end. rewrite last_reverse.
  destruct (drop_while p (reverse l)) as [|y t] eqn:E; [done |].
  intros [= <-]. by eapply drop_while_head.
Qed.

Lemma drop_while_end_id p l :
  (∀ x, last l = Some x → p x = false) → drop_while_end p l = l.
Proof.
  unfold drop_while_end. intros H. rewrite <- (reverse_involutive l) at 2.
  f_equal. rewrite <- head_reverse in H.
  destruct (reverse l) as [|y t]; [done |]. apply drop_while_id. by apply H.
Qed.

Lemma drop_while_fixed p l :
  (∀ x, head l = Some x → p x = false) → drop_while p l = l.
Proof. destruct l as [|y t]; [done |]. intros H. apply drop_while_id. by apply H. Qed.

Lemma drop_while_end_head p l x :
  head (drop_while_end p l) = Some x → head l = Some x.
Proof.
  destruct (drop_while_end_prefix p l) as [k Hk]. rewrite Hk at 2.
  destruct (drop_while_end p l); [done |]. done.
Qed.

Lemma take_while_drop_while p l : take_while p l ++ drop_while p l = l.
Proof. induction l as [|x l IH]; simpl; [done |]. destruct (p x); simpl; by f_equal. Qed.

Lemma take_while_app p l r :
  Forall (λ x, p x = true) l → take_while p (l ++ r) = l ++ take_while p r.
Proof. induction 1 as [|x l Hx _ IH]; simpl; [done | by rewrite Hx, IH]. Qed.

Lemma drop_while_app p l r :
  Forall (λ x, p x = true) l → drop_while p (l ++ r) = drop_while p r.
Proof. induction 1 as [|x l Hx _ IH]; simpl; [done | by rewrite Hx]. Qed.

Lemma take_while_stop p x l : p x = false → take_while p (x :: l) = [].
Proof. simpl. by intros ->. Qed.

Lemma take_while_Forall p l : Forall (λ x, p x = true) (take_while p l).
Proof.
  induction l as [|x l IH]; simpl; [constructor |].
  destruct (p x) eqn:E; by constructor.
Qed.

Lemma replace_matches_skip_none (matcher : list A → option (nat * list A)) l :
  (∀ t, t `suffix_of` l → matcher t = None) →
  replace_matches_skip matcher 0 l = l.
Proof.
  induction l as [|x l IH]; simpl; [done |]. intros H.
  rewrite H by done. f_equal. apply IH. intros t Ht. apply H.
  by apply suffix_cons_r.
Qed.

Lemma replace_matches_skip_ge (matcher : list A → option (nat * list A)) n l :
  length l ≤ n → replace_matches_skip matcher n l = [].
Proof.
  revert n. induction l as [|x l IH]; intros n; simpl; [done |].
  destruct n; [lia |]. intros. apply IH. lia.
Qed.

Lemma replace_matches_skip_drop (matcher : list A → option (nat * list A)) n l :
  replace_matches_skip matcher n l = replace_matches_skip matcher 0 (drop n l).
Proof.
  revert n. induction l as [|x l IH]; intros [|n]; simpl; try done.
Qed.

Lemma replace_matches_skip_match (matcher : list A → option (nat * list A))
    (x : A) (t out : list A) (n : nat) :
  matcher (x :: t) = Some (n, out) →
  replace_matches_skip matcher 0 (x :: t) =
    out ++ replace_matches_skip matcher 0 (drop n t).
Proof.
  intros Hm. cbn [replace_matches_skip]. rewrite Hm.
  by rewrite replace_matches_skip_drop.
Qed.

Lemma slice0_length n l : length (slice0 n l) ≤ n.
Proof. unfold slice0. rewrite length_take. lia. Qed.

Lemma slice0_short n l : length l ≤ n → slice0 n l = l.
Proof. apply take_ge. Qed.

Lemma slice0_prefix n l : slice0 n l `prefix_of` l.
Proof. apply prefix_take. Qed.

Lemma flat_map_singleton l : flat_map (λ x, [x]) l = l.
Proof. induction l as [|x l IH]; simpl; [done | by f_equal]. Qed.

Lemma replace_each_singleton p r x :
  replace_each p r [x] = if p x then r else [x].
Proof. unfold replace_each. simpl. by rewrite app_nil_r. Qed.

Lemma replace_each_cons p r x l :
  replace_each p r (x :: l) = (if p x then r else [x]) ++ replace_each p r l.
Proof. done. Qed.

Lemma replace_each_flat_map p r (f : A → list A) l :
  replace_each p r (flat_map f l) = flat_map (λ x, replace_each p r (f x)) l.
Proof.
  induction l as [|x l IH]; simpl; [done |].
  unfold replace_each in *. by rewrite flat_map_app, IH.
Qed.

Lemma replace_each_app p r l1 l2 :
  replace_each p r (l1 ++ l2) = replace_each p r l1 ++ replace_each p r l2.
Proof. apply flat_map_app. Qed.

Lemma replace_each_none p r l :
  Forall (λ x, p x = false) l → replace_each p r l = l.
Proof.
  induction 1 as [|x l Hx _ IH]; [done |].
  unfold replace_each in *. simpl. by rewrite Hx, IH.
Qed.

End ListPrimLemmas.

#[export] Hint Resolve drop_while_suffix drop_while_length slice0_length
  slice0_prefix : js.
#[export] Hint Rewrite @replace_each_app : js.

Lemma sum_list_const (c : nat) (l : list nat) :
  Forall (λ x, x = c) l → sum_list l = c * length l.
Proof. induction 1 as [|x l -> _ IH]; simpl; lia. Qed.

(** ** [join] *)

Lemma join_cons (sep s : jsstring) (l : list jsstring) :
  l ≠ [] → join sep (s :: l) = s ++ sep ++ join sep l.
Proof. by destruct l. Qed.

(** [x] occurs in [s]: what [s.includes(x)] tests. *)
Definition substring_of (x s : jsstring) : Prop := ∃ a b, s = a ++ x ++ b.

Lemma substring_of_refl (s : jsstring) : substring_of s s.
Proof. exists [], []. by rewrite app_nil_r. Qed.

Lemma substring_of_app_l (x s t : jsstring) :
  substring_of x s → substring_of x (t ++ s).
Proof. intros (a & b & ->). exists (t ++ a), b. by rewrite <- app_assoc. Qed.

Lemma substring_of_app_r (x s t : jsstring) :
  substring_of x s → substring_of x (s ++ t).
Proof. intros (a & b & ->). exists a, (b ++ t). by rewrite <- !app_assoc. Qed.

Lemma substring_of_trans (x y z : jsstring) :
  substring_of x y → substring_of y z → substring_of x z.
Proof.
  intros (a & b & ->) (c & d & ->). exists (c ++ a), (b ++ d).
  by rewrite <- !app_assoc.
Qed.

Lemma substring_of_cons (x s : jsstring) (c : jschar) :
  substring_of x s → substring_of x (c :: s).
Proof. apply (substring_of_app_l x s [c]). Qed.

Lemma join_substring (sep x : jsstring) (l : list jsstring) :
  x ∈ l → substring_of x (join sep l).
Proof.
  induction l as [|s l IH]; [by intros ?%elem_of_nil |].
  destruct l as [|s' l'].
  - intros ->%list_elem_of_singleton. apply substring_of_refl.
  - rewrite join_cons by done. intros [-> | Hx]%elem_of_cons.
    + apply substring_of_app_r, substring_of_refl.
    + do 2 apply substring_of_app_l. by apply IH.
Qed.

#[export] Hint Resolve substring_of_refl substring_of_app_l substring_of_app_r
  substring_of_cons join_substring : js.

(** ** [trim] *)

Lemma trim_head (s : jsstring) (c : jschar) :
  head (trim s) = Some c → is_space c = false.
Proof.
  unfold trim. intros H%drop_while_end_head.
  destruct (drop_while is_space s) as [|y t] eqn:E; [done |].
  injection H as <-. by eapply drop_while_head.
Qed.

Lemma trim_last (s : jsstring) (c : jschar) :
  last (trim s) = Some c → is_space c = false.
Proof. apply drop_while_end_last. Qed.

Lemma trim_fixed (s : jsstring) :
  (∀ c, head s = Some c → is_space c = false) →
  (∀ c, last s = Some c → is_space c = false) → trim s = s.
Proof.
  intros Hh Hl. unfold trim. rewrite drop_while_fixed by done.
  by apply drop_while_end_id.
Qed.

(** A text between two characters that are not white space is trimmed. *)
Lemma trim_between (c d : jschar) (s : jsstring) :
  is_space c = false → is_space d = false →
  trim (c :: s ++ [d]) = c :: s ++ [d].
Proof.
  intros Hc Hd. apply trim_fixed; [by intros ? [= <-] |].
  rewrite app_comm_cons, last_snoc. by intros ? [= <-].
Qed.

Lemma trim_idemp (s : jsstring) : trim (trim s) = trim s.
Proof. apply trim_fixed; [apply trim_head | apply trim_last]. Qed.

#[export] Hint Rewrite trim_idemp : js.
