(* ===== verification/Runtime.v ===== *)
(** * The JavaScript values and the library calls the generator relies on

    The front matter of a post is a JavaScript object produced by a YAML
    parser; its fields hold values of any type, which the generator converts
    with [String(v)], tests with [Array.isArray] and with truthiness.
    [jsval] models these values as far as the conversions can observe them.

    The Unicode tables, the collation of the locale and the other library
    calls whose results the repository does not define are fields of type
    classes, with the laws the theorems use; [ascii_unicode] and
    [codeunit_collation] are instances on which every definition computes. *)

From Stdlib Require Import NArith ZArith Ascii String List Lia DecimalString.
From stdpp Require Import base tactics numbers option list.
From S2P Require Import Prelude.

(** ** Values *)

(** A number and an object (a [Date] included) carry the string [String(v)]
    gives for them; a number also says whether it is truthy (neither zero nor
    [NaN]). *)
Inductive jsval : Type :=
  | VUndefined
  | VNull
  | VBool (b : bool)
  | VNum (shown : jsstring) (nonzero : bool)
  | VStr (s : jsstring)
  | VArr (items : list jsval)
  | VObj (shown : jsstring).

(** [String(v)]; an array is joined with commas, [null] and [undefined]
    elements giving the empty string. *)
Fixpoint toStr (v : jsval) : jsstring :=
  match v with
  | VUndefined => js "undefined"
  | VNull => js "null"
  | VBool true => js "true"
  | VBool false => js "false"
  | VNum shown _ => shown
  | VStr s => s
  | VArr items =>
      join (js ",")
        (map (λ x, match x with VUndefined | VNull => [] | _ => toStr x end)
           items)
  | VObj shown => shown
  end.

(** [Boolean(v)]. *)
Definition truthy (v : jsval) : bool :=
  match v with
  | VUndefined | VNull => false
  | VBool b => b
  | VNum _ nonzero => nonzero
  | VStr s => negb (bool_decide (s = []))
  | VArr _ | VObj _ => true
  end.

(** [Array.isArray(v)] together with the elements. *)
Definition asArray (v : jsval) : option (list jsval) :=
  match v with VArr items => Some items | _ => None end.

(** [Boolean(s)] for a string, the callback of [filter(Boolean)]. *)
Definition nonempty (s : jsstring) : bool := negb (bool_decide (s = [])).

(** ** Numbers as strings *)

(** The value of a string of decimal digits. *)
Fixpoint digits_value (acc : N) (s : jsstring) : option N :=
  match s with
  | [] => Some acc
  | c :: t =>
      if is_digit c then digits_value (acc * 10 + (c - 48))%N t else None
  end.

(** [String(n)] for a natural number below 10^21, the length of an array
    for instance. *)
Definition decimal (n : N) : jsstring :=
  js (NilEmpty.string_of_uint (N.to_uint n)).

(** ** Unicode tables *)

Definition is_ascii (c : jschar) : bool := (c <? 128)%N.

(** [toLowerCase] on an ASCII code unit. *)
Definition ascii_lower (c : jschar) : jschar :=
  if is_upper c then (c + 32)%N else c.

(** [String.prototype.normalize('NFD')] and [String.prototype.toLowerCase].
    The laws say what both do on ASCII text, which no Unicode table
    changes. *)
Class Unicode : Type := {
  normalizeNFD : jsstring → jsstring;
  toLowerCase : jsstring → jsstring;
  normalizeNFD_ascii : ∀ s,
    Forall (λ c, is_ascii c = true) s → normalizeNFD s = s;
  toLowerCase_ascii : ∀ s,
    Forall (λ c, is_ascii c = true) s → toLowerCase s = map ascii_lower s
}.

(** A runtime that changes ASCII letters only. *)
#[export] Program Instance ascii_unicode : Unicode := {|
  normalizeNFD s := s;
  toLowerCase s := map ascii_lower s
|}.
Next Obligation. done. Qed.
Next Obligation. done. Qed.

(** ** Collation *)

(** [a.localeCompare(b, 'pt-BR')]: a total preorder on strings. *)
Class Collation : Type := {
  localeCompare : jsstring → jsstring → Z;
  localeCompare_total : ∀ a b,
    (localeCompare a b ≤ 0 ∨ localeCompare b a ≤ 0)%Z;
  localeCompare_trans : ∀ a b c,
    (localeCompare a b ≤ 0 → localeCompare b c ≤ 0 → localeCompare a c ≤ 0)%Z;
  localeCompare_refl : ∀ a, localeCompare a a = 0%Z
}.

(** Comparison of code units, the collation of a runtime without locale
    data. *)
Fixpoint codeunit_compare (a b : jsstring) : Z :=
  match a, b with
  | [], [] => 0
  | [], _ :: _ => -1
  | _ :: _, [] => 1
  | x :: a', y :: b' =>
      if (x <? y)%N then -1 else if (y <? x)%N then 1 else codeunit_compare a' b'
  end.

Lemma codeunit_compare_refl (a : jsstring) : codeunit_compare a a = 0%Z.
Proof. induction a as [|x a IH]; simpl; [done |]. by rewrite N.ltb_irrefl. Qed.

Ltac case_N_ltb :=
  repeat match goal with
  | |- context [(?x <? ?y)%N] => destruct (N.ltb_spec x y)
  | H : context [(?x <? ?y)%N] |- _ => destruct (N.ltb_spec x y)
  end.

Lemma codeunit_compare_total (a b : jsstring) :
  (codeunit_compare a b ≤ 0 ∨ codeunit_compare b a ≤ 0)%Z.
Proof.
  revert b. induction a as [|x a IH]; intros [|y b]; simpl; try lia.
  case_N_ltb; try lia. apply IH.
Qed.

Lemma codeunit_compare_trans (a b c : jsstring) :
  (codeunit_compare a b ≤ 0 → codeunit_compare b c ≤ 0 →
   codeunit_compare a c ≤ 0)%Z.
Proof.
  revert b c. induction a as [|x a IH]; intros [|y b] [|z c]; simpl; try lia.
  case_N_ltb; try lia. apply IH.
Qed.

#[export] Instance codeunit_collation : Collation := {|
  localeCompare := codeunit_compare;
  localeCompare_total := codeunit_compare_total;
  localeCompare_trans := codeunit_compare_trans;
  localeCompare_refl := codeunit_compare_refl
|}.

(** ASCII literals satisfy the premise of the Unicode laws by computation. *)
Lemma all_ascii_Forall (s : jsstring) :
  forallb is_ascii s = true → Forall (λ c, is_ascii c = true) s.
Proof.
  induction s as [|c s IH]; simpl; [constructor |].
  rewrite andb_true_iff. intros [? ?]. constructor; auto.
Qed.

Lemma Forall_all_ascii (s : jsstring) :
  Forall (λ c, is_ascii c = true) s → forallb is_ascii s = true.
Proof. induction 1 as [|c s Hc _ IH]; simpl; [done |]. by rewrite Hc, IH. Qed.

(** ** The URL parser *)

(** [new URL(rel, base)]: its serialisation ([toString()]) and its origin;
    [None] when the constructor throws.  [base] is [None] for the call with
    one argument. *)
Class UrlApi : Type := {
  urlToString : jsstring → option jsstring → option jsstring;
  urlOrigin : jsstring → option jsstring → option jsstring
}.

(** [/^https?:\/\//i.test(s)]: the case-insensitive match folds ASCII
    letters only. *)
Definition is_http_url (s : jsstring) : bool :=
  let l := map ascii_lower s in
  startsWith (js "http://") l || startsWith (js "https://") l.

(** A parser for the URLs of a site without user info, port or query:
    an absolute http(s) URL is kept, its origin being what precedes the
    first slash of the path; any other reference is appended to the origin of
    the base. *)
Fixpoint span_not_slash (s : jsstring) : jsstring :=
  match s with
  | [] => []
  | c :: t => if (c =? 47)%N then [] else c :: span_not_slash t
  end.

Definition simple_origin (s : jsstring) : option jsstring :=
  let l := map ascii_lower s in
  if startsWith (js "http://") l then Some (take 7 l ++ span_not_slash (drop 7 l))
  else if startsWith (js "https://") l then Some (take 8 l ++ span_not_slash (drop 8 l))
  else None.

#[export] Instance simple_url : UrlApi := {|
  urlToString rel base :=
    if is_http_url rel then Some rel
    else o ← base ≫= simple_origin;
         Some (o ++ (if startsWith (js "/") rel then rel else 47%N :: rel));
  urlOrigin rel base :=
    if is_http_url rel then simple_origin rel else base ≫= simple_origin
|}.

(** ** Dates *)

(** [new Date(v).getTime()] ([None] for an invalid date),
    [Date.prototype.toISOString], [Date.prototype.toUTCString] and the
    [Intl.DateTimeFormat] of [formatDate], on a time in milliseconds. *)
Class DateApi : Type := {
  dateOf : jsval → option Z;
  toISOString : Z → jsstring;
  toUTCString : Z → jsstring;
  formatDate : Z → jsstring
}.

(** ** Front matter *)

(** [matter(source)] of gray-matter: the data of the metadata header as an
    object and the body; [None] when the header cannot be parsed. *)
Class FrontMatter : Type := {
  matter : jsstring → option (list (jsstring * jsval) * jsstring)
}.

(** ** Instances for evaluation

    A clock that reads a number of milliseconds and prints it in decimal, a
    front-matter parser given by a table, and a renderer that returns its
    input: with them the loader and the page builders compute on concrete
    inputs. *)

Definition ms_dates : DateApi := {|
  dateOf v :=
    match v with
    | VNum shown _ | VStr shown => Z.of_N <$> digits_value 0 shown
    | _ => None
    end;
  toISOString z := decimal (Z.to_N z);
  toUTCString z := decimal (Z.to_N z);
  formatDate z := decimal (Z.to_N z)
|}.

Definition table_matter
    (table : list (jsstring * (list (jsstring * jsval) * jsstring)))
    : FrontMatter := {|
  matter source := (λ e, e.2.2) <$> list_find (λ e, e.1 = source) table
|}.

(** ** Decimal numerals *)

Lemma decimal_digits (n : N) : Forall (λ c, is_digit c = true) (decimal n).
Proof.
  unfold decimal. induction (N.to_uint n) as [|d IH|d IH|d IH|d IH|d IH|d IH
    |d IH|d IH|d IH|d IH]; [constructor | ..];
    cbn [NilEmpty.string_of_uint]; rewrite js_cons; by constructor.
Qed.

Lemma digits_value_is_Some (acc : N) (s : jsstring) :
  Forall (λ c, is_digit c = true) s → is_Some (digits_value acc s).
Proof.
  intros Hs. revert acc. induction Hs as [|c s Hc _ IH]; intros acc; simpl.
  - done.
  - rewrite Hc. apply IH.
Qed.

(** The dates of [ms_dates] read back what they print. *)
Lemma ms_dates_parse (t : Z) :
  is_Some (dateOf (DateApi := ms_dates)
             (VStr (toISOString (DateApi := ms_dates) t))).
Proof.
  cbn [dateOf toISOString ms_dates]. apply fmap_is_Some.
  apply digits_value_is_Some, decimal_digits.
Qed.
