(* ===== verification/JsObject.v ===== *)
(** * Ordinary objects used as dictionaries

    [buildTagsMap] and [loadPosts] of [src/scripts/build.js] use object
    literals as maps from tag names to values, and [buildTagPages],
    [buildBlogPage] and [JSON.stringify] read their keys back in property
    order.  An object is modelled by the list of its own properties in that
    order: keys that are array indices first, in ascending numeric order, then
    the other keys in the order they were created.  A read that finds no own
    property sees the properties every object literal inherits from
    [Object.prototype]. *)

From Stdlib Require Import NArith ZArith Ascii String List Lia.
From stdpp Require Import base tactics numbers option list sorting sets.
From S2P Require Import Prelude Runtime.

(** ** Keys *)

(** An array index is a canonical numeric string (no leading zero) whose
    value is less than 2^32 - 1. *)
Definition array_index (k : jsstring) : option N :=
  match k with
  | [] => None
  | c :: t =>
      if (c =? 48)%N && nonempty t then None
      else n ← digits_value 0 k; if (n <? 4294967295)%N then Some n else None
  end.

(** The names an object literal inherits from [Object.prototype]. *)
Definition object_prototype_keys : list jsstring :=
  [ js "constructor"; js "__defineGetter__"; js "__defineSetter__";
    js "hasOwnProperty"; js "__lookupGetter__"; js "__lookupSetter__";
    js "isPrototypeOf"; js "propertyIsEnumerable"; js "toString";
    js "valueOf"; js "__proto__"; js "toLocaleString" ].

Definition inherited (k : jsstring) : bool :=
  bool_decide (k ∈ object_prototype_keys).

(** ** Objects *)

Section Object.
Context {V : Type}.

(** Own properties in property order. *)
Definition jsobject : Type := list (jsstring * V).

Definition obj_keys (o : jsobject) : list jsstring := o.*1.

(** [Object.entries(o)]. *)
Definition obj_entries (o : jsobject) : list (jsstring * V) := o.

(** The own property [k]. *)
Fixpoint obj_get (k : jsstring) (o : jsobject) : option V :=
  match o with
  | [] => None
  | (k', v) :: t => if decide (k' = k) then Some v else obj_get k t
  end.

Definition obj_has (k : jsstring) (o : jsobject) : bool :=
  bool_decide (k ∈ obj_keys o).

(** [k in o]: an own or an inherited property. *)
Definition obj_in (k : jsstring) (o : jsobject) : bool :=
  obj_has k o || inherited k.

(** A new array index goes before the first key that is not a smaller
    array index. *)
Fixpoint obj_insert_index (n : N) (k : jsstring) (v : V) (o : jsobject)
    : jsobject :=
  match o with
  | [] => [(k, v)]
  | (k', v') :: t =>
      match array_index k' with
      | Some n' =>
          if (n' <? n)%N then (k', v') :: obj_insert_index n k v t
          else (k, v) :: o
      | None => (k, v) :: o
      end
  end.

(** [o[k] = v] on an object whose properties are all own data properties:
    an existing property keeps its place, a new one is created. *)
Definition obj_set (k : jsstring) (v : V) (o : jsobject) : jsobject :=
  if obj_has k o
  then (λ kv, if decide (kv.1 = k) then (k, v) else kv) <$> o
  else match array_index k with
       | Some n => obj_insert_index n k v o
       | None => o ++ [(k, v)]
       end.

(** [Object.fromEntries(entries)]. *)
Definition obj_fromEntries (entries : list (jsstring * V)) : jsobject :=
  foldl (λ o kv, obj_set kv.1 kv.2 o) [] entries.

(** [{ ...target, ...source }]: the own properties of [target], then those
    of [source], a key of both keeping its place and taking the value of
    [source]. *)
Definition obj_assign (target source : jsobject) : jsobject :=
  foldl (λ o kv, obj_set kv.1 kv.2 o) target source.

End Object.
Arguments jsobject V : clear implicits.

(** ** Property order *)

(** [k1] may stand before [k2] in property order. *)
Definition key_before (k1 k2 : jsstring) : Prop :=
  match array_index k1, array_index k2 with
  | Some n1, Some n2 => (n1 ≤ n2)%N
  | Some _, None => True
  | None, Some _ => False
  | None, None => True
  end.

#[export] Instance key_before_dec k1 k2 : Decision (key_before k1 k2).
Proof. unfold key_before. repeat case_match; apply _. Defined.

(** The invariant of an object: no key twice, keys in property order. *)
Definition obj_wf {V} (o : jsobject V) : Prop :=
  NoDup (obj_keys o) ∧ StronglySorted key_before (obj_keys o).

Lemma key_before_trans (k1 k2 k3 : jsstring) :
  key_before k1 k2 → key_before k2 k3 → key_before k1 k3.
Proof. unfold key_before. repeat case_match; try done. lia. Qed.

Lemma key_before_not_index (k1 k2 : jsstring) :
  array_index k2 = None → key_before k1 k2.
Proof. unfold key_before. intros ->. by case_match. Qed.

Section ObjectLemmas.
Context {V : Type}.
Implicit Types (o : jsobject V) (k : jsstring) (v : V).

Lemma obj_get_cons k k' v o :
  obj_get k ((k', v) :: o) = if decide (k' = k) then Some v else obj_get k o.
Proof. done. Qed.

Lemma obj_has_true k o : obj_has k o = true ↔ k ∈ obj_keys o.
Proof. apply bool_decide_eq_true. Qed.

Lemma obj_has_false k o : obj_has k o = false ↔ k ∉ obj_keys o.
Proof. apply bool_decide_eq_false. Qed.

Lemma obj_get_None k o : obj_get k o = None ↔ k ∉ obj_keys o.
Proof.
  induction o as [|[k' v'] t IH]; simpl.
  - split; [intros _; apply not_elem_of_nil | done].
  - rewrite not_elem_of_cons. case_decide; [| rewrite IH]; naive_solver.
Qed.

Lemma obj_get_Some_elem k v o : obj_get k o = Some v → (k, v) ∈ o.
Proof.
  induction o as [|[k' v'] t IH]; simpl; [done |].
  case_decide; [intros [= ->]; subst; left | right; auto].
Qed.

Lemma obj_get_is_Some k o : is_Some (obj_get k o) ↔ k ∈ obj_keys o.
Proof.
  rewrite <- not_eq_None_Some, obj_get_None.
  split; [apply dec_stable | auto].
Qed.

(** *** Keys after an assignment *)

Lemma obj_keys_replace k v o :
  obj_keys ((λ kv, if decide (kv.1 = k) then (k, v) else kv) <$> o) = obj_keys o.
Proof.
  unfold obj_keys. induction o as [|[k' v'] t IH]; [done |].
  rewrite !fmap_cons, IH. by case_decide; simplify_eq/=.
Qed.

Lemma obj_keys_insert_index n k v o :
  obj_keys (obj_insert_index n k v o) ≡ₚ k :: obj_keys o.
Proof.
  unfold obj_keys. induction o as [|[k' v'] t IH]; simpl; [done |].
  repeat case_match; simpl; try done. rewrite IH. apply Permutation_swap.
Qed.

Lemma obj_keys_set k v o :
  obj_keys (obj_set k v o) ≡ₚ if obj_has k o then obj_keys o else k :: obj_keys o.
Proof.
  unfold obj_set. destruct (obj_has k o).
  - by rewrite obj_keys_replace.
  - case_match; [apply obj_keys_insert_index |].
    unfold obj_keys. rewrite fmap_app. simpl. by rewrite Permutation_app_comm.
Qed.

Lemma obj_keys_set_elem k k' v o :
  k' ∈ obj_keys (obj_set k v o) ↔ k' = k ∨ k' ∈ obj_keys o.
Proof.
  rewrite obj_keys_set. destruct (obj_has k o) eqn:E.
  - apply obj_has_true in E. naive_solver.
  - by rewrite elem_of_cons.
Qed.

(** *** Reading after an assignment *)

Lemma obj_get_replace k k' v o :
  obj_get k' ((λ kv, if decide (kv.1 = k) then (k, v) else kv) <$> o) =
    if decide (k = k') then (if obj_has k o then Some v else None)
    else obj_get k' o.
Proof.
  unfold obj_has, obj_keys.
  induction o as [|[k1 v1] t IH]; [by case_decide |].
  rewrite !fmap_cons. cbn [obj_get fst]. rewrite IH. clear IH.
  repeat (case_decide || case_bool_decide); simplify_eq/=; try done;
    set_solver.
Qed.

Lemma obj_get_insert_index n k k' v o :
  k ∉ obj_keys o →
  obj_get k' (obj_insert_index n k v o) =
    if decide (k = k') then Some v else obj_get k' o.
Proof.
  unfold obj_keys. induction o as [|[k1 v1] t IH]; simpl; [done |].
  rewrite not_elem_of_cons. intros [Hne Hnot].
  repeat case_match; simplify_eq/=; try done.
  all: rewrite ?IH by done; repeat case_decide; simplify_eq/=; done.
Qed.

Lemma obj_get_app_fresh k k' v o :
  k ∉ obj_keys o →
  obj_get k' (o ++ [(k, v)]) = if decide (k = k') then Some v else obj_get k' o.
Proof.
  unfold obj_keys. induction o as [|[k1 v1] t IH]; simpl; [done |].
  rewrite not_elem_of_cons. intros [Hne Hnot].
  rewrite IH by done. repeat case_decide; simplify_eq/=; done.
Qed.

Lemma obj_get_set k k' v o :
  obj_get k' (obj_set k v o) = if decide (k = k') then Some v else obj_get k' o.
Proof.
  unfold obj_set. destruct (obj_has k o) eqn:E.
  - rewrite obj_get_replace, E. done.
  - apply obj_has_false in E. case_match.
    + by apply obj_get_insert_index.
    + by apply obj_get_app_fresh.
Qed.

Lemma obj_get_set_eq k v o : obj_get k (obj_set k v o) = Some v.
Proof. rewrite obj_get_set. by case_decide. Qed.

Lemma obj_get_set_ne k k' v o : k ≠ k' → obj_get k' (obj_set k v o) = obj_get k' o.
Proof. intros. rewrite obj_get_set. by case_decide. Qed.

(** An object built from the pairs [(k, f k)] maps each key to [f k]. *)
Lemma foldl_obj_set_graph (f : jsstring → V) (ks : list jsstring) o k' :
  obj_get k' (foldl (λ o kv, obj_set kv.1 kv.2 o) o (map (λ k, (k, f k)) ks)) =
    if decide (k' ∈ ks) then Some (f k') else obj_get k' o.
Proof.
  revert o. induction ks as [|k ks IH]; intros o; simpl.
  - done.
  - rewrite IH, obj_get_set.
    repeat case_decide; simplify_eq/=; try done; set_solver.
Qed.

Lemma foldl_obj_set_keys_graph (f : jsstring → V) (ks : list jsstring) o k' :
  obj_get k' (foldl (λ o k, obj_set k (f k) o) o ks) =
    if decide (k' ∈ ks) then Some (f k') else obj_get k' o.
Proof.
  revert o. induction ks as [|k ks IH]; intros o; simpl.
  - done.
  - rewrite IH, obj_get_set.
    repeat case_decide; simplify_eq/=; try done; set_solver.
Qed.

Lemma obj_fromEntries_graph (f : jsstring → V) (ks : list jsstring) k' :
  obj_get k' (obj_fromEntries (map (λ k, (k, f k)) ks)) =
    if decide (k' ∈ ks) then Some (f k') else None.
Proof. apply foldl_obj_set_graph. Qed.

Lemma obj_fromEntries_keys (f : jsstring → V) (ks : list jsstring) k' :
  k' ∈ obj_keys (obj_fromEntries (map (λ k, (k, f k)) ks)) ↔ k' ∈ ks.
Proof.
  rewrite <- obj_get_is_Some, obj_fromEntries_graph.
  case_decide; [by split; eauto | split; [by intros [? ?] | done]].
Qed.

Lemma obj_get_assign k (target source : jsobject V) :
  NoDup (obj_keys source) →
  obj_get k (obj_assign target source) =
    match obj_get k source with
    | Some v => Some v
    | None => obj_get k target
    end.
Proof.
  unfold obj_assign, obj_keys. revert target.
  induction source as [|[k' v'] source IH]; intros target Hnd; [done |].
  rewrite fmap_cons in Hnd. apply NoDup_cons in Hnd as [Hk' Hnd].
  cbn [foldl fst snd]. rewrite IH, obj_get_set by done. simpl.
  case_decide as Hk; [| done]. subst k'.
  by rewrite (proj2 (obj_get_None k source)).
Qed.

Lemma obj_keys_assign k (target source : jsobject V) :
  k ∈ obj_keys (obj_assign target source) ↔
  k ∈ obj_keys target ∨ k ∈ obj_keys source.
Proof.
  unfold obj_assign. revert target.
  induction source as [|[k' v'] source IH]; intros target; simpl.
  - rewrite elem_of_nil. naive_solver.
  - rewrite IH, obj_keys_set_elem, elem_of_cons. naive_solver.
Qed.

End ObjectLemmas.

(** ** Array indices are canonical *)

Lemma digits_value_bounds (s : jsstring) (acc n : N) :
  digits_value acc s = Some n →
  (acc * 10 ^ N.of_nat (length s) ≤ n < (acc + 1) * 10 ^ N.of_nat (length s))%N.
Proof.
  revert acc. induction s as [|c t IH]; intros acc; cbn [digits_value length].
  - intros [= ->]. cbn. lia.
  - destruct (is_digit c) eqn:Hc; [| done]. intros Hn%IH.
    rewrite Nat2N.inj_succ, N.pow_succ_r'.
    assert (c - 48 < 10)%N by solve_class. nia.
Qed.

Lemma digits_value_inj (s1 s2 : jsstring) (acc1 acc2 n : N) :
  length s1 = length s2 →
  digits_value acc1 s1 = Some n → digits_value acc2 s2 = Some n →
  acc1 = acc2 ∧ s1 = s2.
Proof.
  revert s2 acc1 acc2.
  induction s1 as [|c1 t1 IH]; intros [|c2 t2] acc1 acc2 Hlen; try done;
    cbn [digits_value].
  - by intros [= ->] [= ->].
  - destruct (is_digit c1) eqn:H1, (is_digit c2) eqn:H2; try done.
    intros E1 E2. injection Hlen as Hlen.
    destruct (IH t2 _ _ Hlen E1 E2) as [Hacc ->].
    assert (c1 = c2 ∧ acc1 = acc2) as [-> ->]; [solve_class | done].
Qed.

Lemma array_index_inv (k : jsstring) (n : N) :
  array_index k = Some n →
  digits_value 0 k = Some n ∧ (n < 10 ^ N.of_nat (length k))%N ∧
  (k = [48%N] ∨ (10 ^ N.of_nat (length k - 1) ≤ n)%N).
Proof.
  destruct k as [|c t]; [done |]. unfold array_index.
  destruct ((c =? 48)%N && nonempty t) eqn:E; [done |].
  destruct (digits_value 0 (c :: t)) as [m|] eqn:D; [| done].
  cbn [mbind option_bind].
  destruct (m <? 4294967295)%N; [| done]. intros [= ->]. split; [done |].
  cbn [digits_value] in D. destruct (is_digit c) eqn:Hc; [| done].
  apply digits_value_bounds in D. cbn [length].
  rewrite Nat.sub_succ, Nat.sub_0_r, Nat2N.inj_succ, N.pow_succ_r'.
  assert (48 ≤ c ≤ 57)%N as Hd by solve_class.
  assert (c = 48%N → t = []) as Ht.
  { intros ->. destruct t; [done |]. by rewrite N.eqb_refl in E. }
  destruct (decide (c = 48%N)) as [-> | Hne].
  - rewrite Ht in * by done. cbn in D |- *. split; [lia | by left].
  - revert D. generalize (10 ^ N.of_nat (length t))%N. intros p D.
    split; [nia | right; nia].
Qed.

Lemma array_index_inj (k1 k2 : jsstring) (n : N) :
  array_index k1 = Some n → array_index k2 = Some n → k1 = k2.
Proof.
  intros (D1 & U1 & L1)%array_index_inv (D2 & U2 & L2)%array_index_inv.
  assert (length k1 = length k2) as Hlen.
  { assert (∀ a b, (10 ^ N.of_nat a ≤ n < 10 ^ N.of_nat b)%N → a < b) as Hpow.
    { intros a b [Ha Hb].
      assert (N.of_nat a < N.of_nat b)%N; [| lia].
      apply (N.pow_lt_mono_r_iff 10); lia. }
    destruct L1 as [-> | L1], L2 as [-> | L2]; [done | | |].
    - injection D1 as <-. pose proof (N.pow_nonzero 10 (N.of_nat (length k2 - 1))). lia.
    - injection D2 as <-. pose proof (N.pow_nonzero 10 (N.of_nat (length k1 - 1))). lia.
    - pose proof (Hpow _ _ (conj L1 U2)). pose proof (Hpow _ _ (conj L2 U1)). lia. }
  by destruct (digits_value_inj k1 k2 0 0 n Hlen D1 D2).
Qed.

(** ** The invariant is kept *)

Lemma StronglySorted_snoc {A} (R : relation A) (l : list A) (x : A) :
  StronglySorted R l → Forall (λ z, R z x) l → StronglySorted R (l ++ [x]).
Proof.
  induction 1 as [|y l Hs IH Hy]; simpl; intros Hx.
  - repeat constructor.
  - inversion_clear Hx as [|? ? Hyx Hlx]. constructor; [by apply IH |].
    apply Forall_app; split; [done | by constructor].
Qed.

Section ObjectInvariant.
Context {V : Type}.
Implicit Types (o : jsobject V) (k : jsstring) (v : V).

Lemma obj_wf_nil : obj_wf ([] : jsobject V).
Proof. split; constructor. Qed.

Lemma insert_index_sorted n k v o :
  array_index k = Some n →
  StronglySorted key_before (obj_keys o) →
  StronglySorted key_before (obj_keys (obj_insert_index n k v o)).
Proof.
  intros Hk. unfold obj_keys.
  induction o as [|[k' v'] t IH]; simpl; [repeat constructor |].
  intros Hs. pose proof Hs as Hs'. apply StronglySorted_inv in Hs' as [Ht Hk'].
  assert (key_before k k' → StronglySorted key_before (k :: k' :: t.*1)) as Hfront.
  { intros Hb. constructor; [done |]. constructor; [done |].
    eapply Forall_impl; [exact Hk' |]. intros z. by apply key_before_trans. }
  destruct (array_index k') as [n'|] eqn:En'.
  - destruct (N.ltb_spec n' n) as [Hlt|Hge]; simpl.
    + constructor; [by apply IH |].
      eapply Forall_forall. intros z Hz.
      apply (elem_of_Permutation_proper _ _ _ (obj_keys_insert_index n k v t)) in Hz.
      apply elem_of_cons in Hz as [-> | Hz].
      * unfold key_before. rewrite En', Hk. lia.
      * eapply Forall_forall in Hk'; eauto.
    + apply Hfront. unfold key_before. by rewrite Hk, En'.
  - apply Hfront. unfold key_before. by rewrite Hk, En'.
Qed.

Lemma obj_set_wf k v o : obj_wf o → obj_wf (obj_set k v o).
Proof.
  intros [Hnd Hs]. split.
  - rewrite obj_keys_set. destruct (obj_has k o) eqn:E; [done |].
    apply obj_has_false in E. by constructor.
  - unfold obj_set. destruct (obj_has k o) eqn:E.
    + by rewrite obj_keys_replace.
    + destruct (array_index k) as [n|] eqn:Ek; [by apply insert_index_sorted |].
      unfold obj_keys. rewrite fmap_app. apply StronglySorted_snoc; [done |].
      apply Forall_forall. intros z _. by apply key_before_not_index.
Qed.

Lemma foldl_obj_set_wf {A} (f : A → jsstring * V) (l : list A) o :
  obj_wf o → obj_wf (foldl (λ o x, obj_set (f x).1 (f x).2 o) o l).
Proof. revert o. induction l as [|x l IH]; simpl; auto using obj_set_wf. Qed.

Lemma obj_fromEntries_wf (entries : list (jsstring * V)) :
  obj_wf (obj_fromEntries entries).
Proof. apply (foldl_obj_set_wf id), obj_wf_nil. Qed.

Lemma obj_assign_wf (target source : jsobject V) :
  obj_wf target → obj_wf (obj_assign target source).
Proof. apply (foldl_obj_set_wf id). Qed.

End ObjectInvariant.

(** ** An object is rebuilt from its entries *)

Section Entries.
Context {V : Type}.
Implicit Types (o : jsobject V) (k : jsstring) (v : V).

Lemma obj_wf_app_l (o1 o2 : jsobject V) : obj_wf (o1 ++ o2) → obj_wf o1.
Proof.
  unfold obj_wf, obj_keys. rewrite fmap_app.
  intros [[Hnd _]%NoDup_app Hs%StronglySorted_app_1_l]. done.
Qed.

Lemma obj_insert_index_end (n : N) k v o :
  Forall (λ k', ∃ n', array_index k' = Some n' ∧ (n' < n)%N) (obj_keys o) →
  obj_insert_index n k v o = o ++ [(k, v)].
Proof.
  induction o as [|[k' v'] t IH]; [done |].
  intros [(n' & Hk' & Hlt) Ht]%Forall_cons. cbn [obj_insert_index app].
  cbn [fst] in Hk'. rewrite Hk', (proj2 (N.ltb_lt _ _) Hlt). by rewrite IH.
Qed.

Lemma obj_set_end k v o : obj_wf (o ++ [(k, v)]) → obj_set k v o = o ++ [(k, v)].
Proof.
  unfold obj_wf, obj_keys. rewrite fmap_app.
  intros [(_ & Hfresh & _)%NoDup_app Hs]. unfold obj_set.
  assert (k ∉ obj_keys o) as Hk.
  { intros Hk. apply (Hfresh k Hk). by left. }
  rewrite (proj2 (obj_has_false k o) Hk).
  destruct (array_index k) as [n|] eqn:Ek; [| done].
  apply obj_insert_index_end, Forall_forall. intros k' Hk'.
  assert (key_before k' k) as Hb.
  { eapply StronglySorted_app_1_elem_of; [exact Hs | exact Hk' | by left]. }
  unfold key_before in Hb. rewrite Ek in Hb.
  destruct (array_index k') as [n'|] eqn:Ek'; [| done].
  exists n'. split; [done |].
  assert (n' ≠ n); [| lia]. intros ->.
  apply Hk. by rewrite <- (array_index_inj _ _ _ Ek' Ek).
Qed.

Lemma foldl_obj_set_entries (o entries : jsobject V) :
  obj_wf (o ++ entries) →
  foldl (λ o kv, obj_set kv.1 kv.2 o) o entries = o ++ entries.
Proof.
  revert o. induction entries as [|[k v] rest IH]; intros o Hwf.
  - by rewrite app_nil_r.
  - rewrite cons_middle, app_assoc in Hwf |- *. cbn [foldl fst snd].
    rewrite obj_set_end by (by eapply obj_wf_app_l). rewrite IH; [| done].
    by rewrite <- !app_assoc.
Qed.

Lemma obj_fromEntries_entries o :
  obj_wf o → obj_fromEntries (obj_entries o) = o.
Proof. intros Hwf. by apply (foldl_obj_set_entries []). Qed.

Lemma obj_fromEntries_id o : obj_wf o → obj_fromEntries o = o.
Proof. apply obj_fromEntries_entries. Qed.

(** The invariant speaks of the keys only. *)
Lemma obj_wf_values {W} (f : jsstring * V → W) o :
  obj_wf o → obj_wf (map (λ kv, (kv.1, f kv)) o).
Proof. unfold obj_wf, obj_keys. by rewrite <- list_fmap_compose. Qed.

End Entries.

(** ** The order of the keys that are not array indices *)

Definition is_array_index (k : jsstring) : bool :=
  match array_index k with Some _ => true | None => false end.

Definition named_keys (ks : list jsstring) : list jsstring :=
  List.filter (λ k, negb (is_array_index k)) ks.

Section NamedKeys.
Context {V : Type}.
Implicit Types (o : jsobject V) (k : jsstring) (v : V).

Lemma named_keys_app ks1 ks2 :
  named_keys (ks1 ++ ks2) = named_keys ks1 ++ named_keys ks2.
Proof. apply List.filter_app. Qed.

Lemma named_keys_cons k ks :
  named_keys (k :: ks) =
    (if is_array_index k then [] else [k]) ++ named_keys ks.
Proof. unfold named_keys. simpl. by destruct (is_array_index k). Qed.

Lemma named_keys_insert_index n k v o :
  array_index k = Some n →
  named_keys (obj_keys (obj_insert_index n k v o)) = named_keys (obj_keys o).
Proof.
  intros Hk. unfold obj_keys.
  assert (is_array_index k = true) as Hi by (unfold is_array_index; by rewrite Hk).
  induction o as [|[k' v'] t IH]; cbn [obj_insert_index].
  - rewrite fmap_cons, named_keys_cons. cbn [fst]. by rewrite Hi.
  - destruct (array_index k') as [n'|]; [destruct (n' <? n)%N |];
      rewrite !fmap_cons; cbn [fst]; rewrite !named_keys_cons; cbn [fst];
      rewrite ?Hi, ?IH; done.
Qed.

(** A new key that is not an array index becomes the last key; any other
    assignment leaves the named keys as they are. *)
Lemma named_keys_set k v o :
  named_keys (obj_keys (obj_set k v o)) =
    named_keys (obj_keys o)
    ++ (if obj_has k o || is_array_index k then [] else [k]).
Proof.
  unfold obj_set. destruct (obj_has k o) eqn:E; simpl.
  - by rewrite obj_keys_replace, app_nil_r.
  - unfold is_array_index. destruct (array_index k) as [n|] eqn:Ek.
    + by rewrite (named_keys_insert_index n), app_nil_r.
    + unfold obj_keys. rewrite fmap_app, named_keys_app. f_equal.
      rewrite fmap_cons, named_keys_cons. cbn [fst]. unfold is_array_index.
      by rewrite Ek.
Qed.

Lemma named_keys_foldl_set (f : jsstring → V) (ks : list jsstring) o :
  NoDup ks → (∀ k, k ∈ ks → k ∉ obj_keys o) →
  named_keys (obj_keys (foldl (λ o k, obj_set k (f k) o) o ks)) =
    named_keys (obj_keys o) ++ named_keys ks.
Proof.
  revert o. induction ks as [|k ks IH]; intros o Hnd Hfresh; simpl.
  - by rewrite app_nil_r.
  - apply NoDup_cons in Hnd as [Hk Hnd]. rewrite IH; [| done |].
    + rewrite named_keys_set, <- app_assoc. f_equal.
      rewrite (proj2 (obj_has_false k o)) by (apply Hfresh; left).
      simpl. by destruct (is_array_index k).
    + intros k' Hk'. rewrite obj_keys_set_elem. intros [-> | Hin]; [done |].
      by apply (Hfresh k'); [right |].
Qed.

End NamedKeys.

(** ** Reads through the prototype *)

(** What the expression [o[k]] gives on an object literal: an own property,
    a property of [Object.prototype] (a function or the prototype itself,
    which is truthy and has no array methods), or [undefined]. *)
Inductive jsread (V : Type) : Type :=
  | Own (v : V)
  | Inherited
  | Missing.
Arguments Own {V} v.
Arguments Inherited {V}.
Arguments Missing {V}.

Definition obj_read {V} (k : jsstring) (o : jsobject V) : jsread V :=
  match obj_get k o with
  | Some v => Own v
  | None => if inherited k then Inherited else Missing
  end.

#[export] Hint Resolve obj_wf_nil obj_set_wf obj_fromEntries_wf : js.
#[export] Hint Rewrite @obj_get_set_eq : js.
