(* ===== verification/Escape.v ===== *)
(** * HTML and XML escaping

    [escapeHtml] and [escapeXml] of [src/scripts/build.js]: five global
    replacements applied one after the other, ampersand first.  The file
    proves that the five passes compute the character-wise escaping
    [escape_ref], that the result holds none of the characters that open a
    tag or close an attribute, that decoding the five entities gives the
    input back, and the algebraic laws the page builders rely on. *)

From Stdlib Require Import NArith Ascii String List Lia.
From stdpp Require Import base tactics numbers option list.
From S2P Require Import Prelude.

(** ** The code *)

Definition escapeHtml (value : jsstring) : jsstring :=
  replace_each (N.eqb 39) (js "&#39;")
    (replace_each (N.eqb 34) (js "&quot;")
      (replace_each (N.eqb 62) (js "&gt;")
        (replace_each (N.eqb 60) (js "&lt;")
          (replace_each (N.eqb 38) (js "&amp;") value)))).

Definition escapeXml (value : jsstring) : jsstring := escapeHtml value.

(** ** Reference definitions *)

(** The five characters the code replaces. *)
Definition html_special (c : jschar) : bool :=
  ((c =? 38) || (c =? 60) || (c =? 62) || (c =? 34) || (c =? 39))%N.

(** The characters that can end a text node or a quoted attribute value. *)
Definition html_delimiter (c : jschar) : bool :=
  ((c =? 60) || (c =? 62) || (c =? 34) || (c =? 39))%N.

(** The number of delimiters of a text: the size of its markup. *)
Definition markup_count (s : jsstring) : nat :=
  length (List.filter html_delimiter s).

(** One-pass escaping: the entity of a single character. *)
Definition escape_char (c : jschar) : jsstring :=
  if (c =? 38)%N then js "&amp;"
  else if (c =? 60)%N then js "&lt;"
  else if (c =? 62)%N then js "&gt;"
  else if (c =? 34)%N then js "&quot;"
  else if (c =? 39)%N then js "&#39;"
  else [c].

Definition escape_ref (s : jsstring) : jsstring := flat_map escape_char s.

(** What a browser does with the five entities the code emits: the decoder
    of the text the generator writes.  Any other ampersand is kept. *)
Fixpoint unescape_skip (skip : nat) (s : jsstring) : jsstring :=
  match s with
  | [] => []
  | c :: t =>
      match skip with
      | S k => unescape_skip k t
      | O =>
          if startsWith (js "&amp;") s then 38%N :: unescape_skip 4 t
          else if startsWith (js "&lt;") s then 60%N :: unescape_skip 3 t
          else if startsWith (js "&gt;") s then 62%N :: unescape_skip 3 t
          else if startsWith (js "&quot;") s then 34%N :: unescape_skip 5 t
          else if startsWith (js "&#39;") s then 39%N :: unescape_skip 4 t
          else c :: unescape_skip 0 t
      end
  end.

Definition unescape (s : jsstring) : jsstring := unescape_skip 0 s.

(** ** The five passes compute the one-pass escaping *)

(** A pass leaves a character it does not match alone. *)
Lemma replace_each_other (a c : jschar) (r : jsstring) :
  c ≠ a → replace_each (N.eqb a) r [c] = [c].
Proof.
  intros Hne. rewrite replace_each_singleton.
  by rewrite (proj2 (N.eqb_neq a c)).
Qed.

Lemma escape_char_passes (c : jschar) :
  replace_each (N.eqb 39) (js "&#39;")
    (replace_each (N.eqb 34) (js "&quot;")
      (replace_each (N.eqb 62) (js "&gt;")
        (replace_each (N.eqb 60) (js "&lt;")
          (replace_each (N.eqb 38) (js "&amp;") [c])))) = escape_char c.
Proof.
  unfold escape_char.
  repeat (case_N_eqb; [by vm_compute |]).
  by rewrite !replace_each_other.
Qed.

(** The equations of [escapeHtml]: it is a homomorphism of strings, and on
    one character it is [escape_char]. *)
Lemma escapeHtml_app (s t : jsstring) :
  escapeHtml (s ++ t) = escapeHtml s ++ escapeHtml t.
Proof. unfold escapeHtml. by rewrite !replace_each_app. Qed.

Lemma escapeHtml_nil : escapeHtml [] = [].
Proof. done. Qed.

Lemma escapeHtml_cons (c : jschar) (s : jsstring) :
  escapeHtml (c :: s) = escape_char c ++ escapeHtml s.
Proof.
  change (c :: s) with ([c] ++ s). rewrite escapeHtml_app. f_equal.
  apply escape_char_passes.
Qed.

#[export] Hint Rewrite escapeHtml_app escapeHtml_nil escapeHtml_cons : js.

(** ** Algebraic laws *)

Lemma escape_ref_app (s t : jsstring) :
  escape_ref (s ++ t) = escape_ref s ++ escape_ref t.
Proof. apply flat_map_app. Qed.

Lemma escape_char_plain (c : jschar) :
  html_special c = false → escape_char c = [c].
Proof.
  unfold html_special, escape_char. intros H.
  repeat (case_N_eqb; [done |]). done.
Qed.

Lemma escape_char_no_delimiter (c : jschar) :
  Forall (λ d, html_delimiter d = false) (escape_char c).
Proof.
  unfold escape_char.
  repeat (case_N_eqb; [by vm_compute; repeat constructor |]).
  constructor; [| done]. unfold html_delimiter.
  by rewrite !(proj2 (N.eqb_neq c _)).
Qed.

Lemma escape_char_length (c : jschar) :
  1 ≤ length (escape_char c) ≤ 6.
Proof.
  unfold escape_char.
  repeat (case_N_eqb; [vm_compute; lia |]). simpl. lia.
Qed.

Lemma unescape_skip_plain (c : jschar) (t : jsstring) :
  c ≠ 38%N → unescape_skip 0 (c :: t) = c :: unescape_skip 0 t.
Proof.
  intros Hne. change (unescape_skip 0 (c :: t)) with
    (if startsWith (js "&amp;") (c :: t) then 38%N :: unescape_skip 4 t
     else if startsWith (js "&lt;") (c :: t) then 60%N :: unescape_skip 3 t
     else if startsWith (js "&gt;") (c :: t) then 62%N :: unescape_skip 3 t
     else if startsWith (js "&quot;") (c :: t) then 34%N :: unescape_skip 5 t
     else if startsWith (js "&#39;") (c :: t) then 39%N :: unescape_skip 4 t
     else c :: unescape_skip 0 t).
  by rewrite !startsWith_js_ne.
Qed.

(** An entity is decoded to the character it stands for. *)
Lemma unescape_escape_char (c : jschar) (rest : jsstring) :
  unescape_skip 0 (escape_char c ++ rest) = c :: unescape_skip 0 rest.
Proof.
  unfold escape_char.
  repeat (case_N_eqb; [by vm_compute |]).
  by apply unescape_skip_plain.
Qed.

(** ** Properties of [escapeHtml] *)

(** C12: the five replacement passes of [escapeHtml], in the order of the
    code, compute the character-wise escaping [escape_ref]: an ampersand that
    the passes for the other characters introduce is never escaped again. *)
Theorem escapeHtml_is_escape_ref (s : jsstring) : escapeHtml s = escape_ref s.
Proof.
  induction s as [|c s IH]; [done |].
  rewrite escapeHtml_cons, IH. done.
Qed.

(** C3: the result of [escapeHtml] holds no [<], [>], double or single
    quote, whatever the input: text placed in an element or in a quoted
    attribute cannot end it. *)
Theorem escapeHtml_no_delimiter (s : jsstring) :
  Forall (λ c, html_delimiter c = false) (escapeHtml s).
Proof.
  induction s as [|c s IH]; [constructor |].
  rewrite escapeHtml_cons. apply Forall_app; split; [| done].
  apply escape_char_no_delimiter.
Qed.

(** Decoding the five entities gives the input of [escapeHtml] back, so
    escaping loses nothing and two different texts are never escaped to the
    same text. *)
Theorem unescape_escapeHtml (s : jsstring) : unescape (escapeHtml s) = s.
Proof.
  unfold unescape. induction s as [|c s IH]; [done |].
  rewrite escapeHtml_cons, unescape_escape_char. by f_equal.
Qed.

Lemma escapeHtml_length (s : jsstring) :
  length s ≤ length (escapeHtml s) ≤ 6 * length s.
Proof.
  induction s as [|c s IH]; [simpl; lia |].
  rewrite escapeHtml_cons, length_app. pose proof (escape_char_length c).
  simpl. lia.
Qed.

Lemma escapeHtml_plain (s : jsstring) :
  Forall (λ c, html_special c = false) s → escapeHtml s = s.
Proof.
  induction 1 as [|c s Hc _ IH]; [done |].
  by rewrite escapeHtml_cons, escape_char_plain, IH.
Qed.

(** [escapeHtml] is not idempotent: escaping twice escapes the ampersand of
    the entities, which is why the page builders escape each field once. *)
Example escapeHtml_twice :
  escapeHtml (escapeHtml (js "<")) = js "&amp;lt;".
Proof. by vm_compute. Qed.

(** ** Counting markup *)

Lemma markup_count_app (s t : jsstring) :
  markup_count (s ++ t) = markup_count s + markup_count t.
Proof. unfold markup_count. by rewrite List.filter_app, length_app. Qed.

Lemma markup_count_zero (s : jsstring) :
  Forall (λ c, html_delimiter c = false) s → markup_count s = 0.
Proof.
  unfold markup_count. induction 1 as [|c s Hc _ IH]; [done |].
  simpl. by rewrite Hc.
Qed.

Lemma markup_count_escapeHtml (s : jsstring) : markup_count (escapeHtml s) = 0.
Proof.
  induction s as [|c s IH]; [done |].
  rewrite escapeHtml_cons, markup_count_app, IH.
  by rewrite markup_count_zero by apply escape_char_no_delimiter.
Qed.

Lemma markup_count_escapeXml (s : jsstring) : markup_count (escapeXml s) = 0.
Proof. apply markup_count_escapeHtml. Qed.

Lemma markup_count_join (sep : jsstring) (l : list jsstring) :
  markup_count sep = 0 →
  markup_count (join sep l) = sum_list (markup_count <$> l).
Proof.
  intros Hsep. induction l as [|s l IH]; [done |].
  rewrite fmap_cons. cbn [sum_list].
  destruct l as [|t l]; [simpl; lia |].
  rewrite join_cons by done. by rewrite !markup_count_app, Hsep, IH.
Qed.

#[export] Hint Rewrite markup_count_app markup_count_escapeHtml
  markup_count_escapeXml : js.
