(* ===== verification/Sorting.v ===== *)
(** * [Array.prototype.sort] with a comparison function

    The generator sorts posts by date ([loadPosts]), categories and tag names
    by collation ([main], [buildTagsMap]) and scored posts by score and date
    ([findRelatedPosts]).  ECMAScript requires the sort to be stable: with a
    consistent comparison function the result is the one sorted permutation
    of the array that keeps elements comparing equal in their input order.
    [js_sort] computes it by insertion from the right; the file proves that
    it is a permutation, sorted, stable, and the identity on a sorted
    array, for every comparison function that is total and transitive. *)

From Stdlib Require Import ZArith List Lia Sorted Permutation.
From stdpp Require Import base tactics numbers option list sorting.
From S2P Require Import Prelude.

(** What the callers' comparison functions promise: [cmp a b <= 0] reads
    "[a] may stand before [b]". *)
Class Comparator {A : Type} (cmp : A → A → Z) : Prop := {
  cmp_total : ∀ x y, (cmp x y ≤ 0 ∨ cmp y x ≤ 0)%Z;
  cmp_trans : ∀ x y z, (cmp x y ≤ 0 → cmp y z ≤ 0 → cmp x z ≤ 0)%Z
}.

Lemma StronglySorted_impl {A} (R1 R2 : A → A → Prop) (l : list A) :
  (∀ a b, R1 a b → R2 a b) → StronglySorted R1 l → StronglySorted R2 l.
Proof.
  intros HR. induction 1 as [|x l _ IH Hx]; constructor; [done |].
  eapply Forall_impl; [exact Hx | by intros; apply HR].
Qed.

Section Sort.
Context {A : Type} (cmp : A → A → Z).
Implicit Types (x y : A) (l : list A).

(** [x] is placed before the first element it may stand before. *)
Fixpoint insert_sorted (x : A) (l : list A) : list A :=
  match l with
  | [] => [x]
  | y :: t => if (cmp x y <=? 0)%Z then x :: l else y :: insert_sorted x t
  end.

Definition js_sort (l : list A) : list A := foldr insert_sorted [] l.

(** The order the comparison function induces. *)
Definition cmp_le (x y : A) : Prop := (cmp x y ≤ 0)%Z.

Lemma insert_sorted_perm x l : insert_sorted x l ≡ₚ x :: l.
Proof.
  induction l as [|y t IH]; simpl; [done |].
  case_match; [done |]. rewrite IH. apply Permutation_swap.
Qed.

Lemma js_sort_perm l : js_sort l ≡ₚ l.
Proof.
  induction l as [|x l IH]; simpl; [done |].
  by rewrite insert_sorted_perm, IH.
Qed.

Lemma js_sort_length l : length (js_sort l) = length l.
Proof. by rewrite js_sort_perm. Qed.

Lemma js_sort_elem_of x l : x ∈ js_sort l ↔ x ∈ l.
Proof. by rewrite js_sort_perm. Qed.

(** Elements that may all stand before one another keep their order: the
    sort never moves an element past one it compares equal to. *)
Lemma filter_insert_sorted (P : A → bool) x l :
  (∀ a b, P a = true → P b = true → cmp_le a b) →
  List.filter P (insert_sorted x l) = List.filter P (x :: l).
Proof.
  intros HP. induction l as [|y t IH]; [done |].
  simpl. destruct (Z.leb_spec (cmp x y) 0) as [Hle|Hgt]; [done |].
  simpl in *. rewrite IH.
  destruct (P x) eqn:Hx, (P y) eqn:Hy; try done.
  specialize (HP x y Hx Hy). unfold cmp_le in HP. lia.
Qed.

Lemma filter_js_sort (P : A → bool) l :
  (∀ a b, P a = true → P b = true → cmp_le a b) →
  List.filter P (js_sort l) = List.filter P l.
Proof.
  intros HP. induction l as [|x l IH]; [done |].
  simpl js_sort. rewrite filter_insert_sorted by done.
  simpl. by rewrite IH.
Qed.

Section WithComparator.
Context `{!Comparator cmp}.

Lemma insert_sorted_sorted x l :
  StronglySorted cmp_le l → StronglySorted cmp_le (insert_sorted x l).
Proof.
  induction 1 as [|y t Hs IH Hy]; simpl; [repeat constructor |].
  destruct (Z.leb_spec (cmp x y) 0) as [Hle|Hgt].
  - constructor; [by constructor |]. constructor; [done |].
    eapply Forall_impl; [exact Hy |]. intros z Hz. by eapply cmp_trans.
  - constructor; [done |]. rewrite insert_sorted_perm. constructor; [| done].
    destruct (cmp_total x y); [lia | done].
Qed.

Lemma js_sort_sorted l : StronglySorted cmp_le (js_sort l).
Proof.
  induction l as [|x l IH]; simpl; [constructor |].
  by apply insert_sorted_sorted.
Qed.

End WithComparator.

Lemma insert_sorted_head x l :
  Forall (cmp_le x) l → insert_sorted x l = x :: l.
Proof.
  destruct 1 as [|y t Hy _]; simpl; [done |].
  unfold cmp_le in Hy. by rewrite (proj2 (Z.leb_le _ _) Hy).
Qed.

Lemma js_sort_id l : StronglySorted cmp_le l → js_sort l = l.
Proof.
  induction 1 as [|x l _ IH Hx]; [done |].
  simpl. rewrite IH. by apply insert_sorted_head.
Qed.

End Sort.

Lemma StronglySorted_list_filter {A} (R : A → A → Prop) (P : A → bool)
    (l : list A) :
  StronglySorted R l → StronglySorted R (List.filter P l).
Proof.
  induction 1 as [|x l _ IH Hx]; simpl; [constructor |].
  destruct (P x); [| done]. constructor; [done |].
  apply Forall_forall. intros y [Hy _]%list_elem_of_In%filter_In.
  rewrite Forall_forall in Hx. by apply Hx, list_elem_of_In.
Qed.

(** ** The comparison functions of the code *)

(** [(a, b) => key(b) - key(a)]: descending by a numeric key. *)
Definition by_desc {A} (key : A → Z) (a b : A) : Z := (key b - key a)%Z.

#[export] Instance by_desc_comparator {A} (key : A → Z) :
  Comparator (by_desc key).
Proof. split; unfold by_desc; intros; lia. Qed.

Lemma by_desc_le {A} (key : A → Z) (a b : A) :
  cmp_le (by_desc key) a b ↔ (key b ≤ key a)%Z.
Proof. unfold cmp_le, by_desc. lia. Qed.

#[export] Hint Resolve js_sort_perm js_sort_sorted : js.
#[export] Hint Rewrite @js_sort_length : js.
