(* ===== verification/Slug.v ===== *)
(** * Slugs

    [slugify] of [src/scripts/build.js] derives the URL-safe identifier of a
    post from its file name and of a tag from its name.  The file models its
    six steps in the order of the code and proves the shape of every slug
    (lowercase letters, digits and single hyphens, no leading hyphen, at most
    80 code units), that a well-formed slug is a fixed point, and what the
    truncation and the loss of punctuation cost: a slug can end in a hyphen,
    can be empty, and different names can share one slug. *)

From Stdlib Require Import NArith ZArith Ascii String List Lia.
From stdpp Require Import base tactics numbers option list.
From S2P Require Import Prelude Runtime.

(** ** The code *)

(** The class [[\u0300-\u036f]]: combining diacritical marks. *)
Definition is_combining_mark (c : jschar) : bool := in_range 768 879 c.

Definition is_hyphen (c : jschar) : bool := (c =? 45)%N.

(** [s.replace(/(^-|-$)+/g, '')].  The pattern matches a hyphen at index 0
    and a hyphen at the last index, and nothing else: one leading and one
    trailing hyphen are removed. *)
Definition strip_leading_hyphen (s : jsstring) : jsstring :=
  match s with
  | c :: t => if is_hyphen c then t else s
  | [] => []
  end.

Definition strip_trailing_hyphen (s : jsstring) : jsstring :=
  match reverse s with
  | c :: t => if is_hyphen c then reverse t else s
  | [] => []
  end.

Definition strip_edge_hyphens (s : jsstring) : jsstring :=
  strip_trailing_hyphen (strip_leading_hyphen s).

Section Slugify.
Context `{!Unicode}.

Definition slugify (text : jsstring) : jsstring :=
  slice0 80
    (strip_edge_hyphens
      (replace_runs (λ c, negb (is_slug_char c)) (js "-")
        (toLowerCase
          (replace_each is_combining_mark [] (normalizeNFD text))))).

End Slugify.

(** ** The shape of a slug *)

(** Slug characters separated by single hyphens; [prev_hyphen] says that the
    previous character was a hyphen (or that there is none), so a hyphen may
    not follow. *)
Fixpoint hyphen_sep (prev_hyphen : bool) (s : jsstring) : bool :=
  match s with
  | [] => true
  | c :: t =>
      if is_hyphen c then negb prev_hyphen && hyphen_sep true t
      else is_slug_char c && hyphen_sep false t
  end.

(** A slug has no leading hyphen. *)
Definition slug_shape (s : jsstring) : bool := hyphen_sep true s.

(** A slug that was not cut: no trailing hyphen either. *)
Definition clean_slug (s : jsstring) : bool :=
  slug_shape s && slug_shape (reverse s) && bool_decide (length s ≤ 80).

(** ** Lemmas on the shape *)

Lemma slug_char_not_hyphen (c : jschar) :
  is_slug_char c = true → is_hyphen c = false.
Proof. unfold is_hyphen. intros H. apply N.eqb_neq. solve_class. Qed.

Lemma hyphen_not_slug_char (c : jschar) :
  is_hyphen c = true → is_slug_char c = false.
Proof.
  intros H. destruct (is_slug_char c) eqn:E; [| done].
  apply slug_char_not_hyphen in E. congruence.
Qed.

Lemma hyphen_sep_weaken (b : bool) (s : jsstring) :
  hyphen_sep true s = true → hyphen_sep b s = true.
Proof. destruct s as [|c t]; simpl; [done |]. by destruct (is_hyphen c), b. Qed.

Lemma hyphen_sep_app_l (b : bool) (s1 s2 : jsstring) :
  hyphen_sep b (s1 ++ s2) = true → hyphen_sep b s1 = true.
Proof.
  revert b. induction s1 as [|c t IH]; intros b; simpl; [done |].
  destruct (is_hyphen c); rewrite !andb_true_iff; intros [? ?]; eauto.
Qed.

Lemma hyphen_sep_prefix (b : bool) (s1 s2 : jsstring) :
  s1 `prefix_of` s2 → hyphen_sep b s2 = true → hyphen_sep b s1 = true.
Proof. intros [k ->]. apply hyphen_sep_app_l. Qed.

Lemma hyphen_sep_Forall (b : bool) (s : jsstring) :
  hyphen_sep b s = true →
  Forall (λ c, is_slug_char c = true ∨ is_hyphen c = true) s.
Proof.
  revert b. induction s as [|c t IH]; intros b; simpl; [constructor |].
  destruct (is_hyphen c) eqn:Hc; rewrite andb_true_iff; intros [? ?];
    constructor; eauto.
Qed.

Lemma slug_shape_head (c : jschar) (t : jsstring) :
  slug_shape (c :: t) = true → is_hyphen c = false.
Proof. unfold slug_shape. simpl. by destruct (is_hyphen c). Qed.

(** The hyphen runs of [replace_runs] give the shape. *)
Lemma hyphen_sep_replace_runs (b : bool) (s : jsstring) :
  hyphen_sep b
    (replace_runs_from (λ c, negb (is_slug_char c)) (js "-") b s) = true.
Proof.
  change (js "-") with [45%N].
  revert b. induction s as [|c t IH]; intros b; simpl; [done |].
  destruct (is_slug_char c) eqn:Hc; simpl.
  - by rewrite (slug_char_not_hyphen c Hc), Hc, IH.
  - destruct b; simpl; [apply IH |]. by rewrite IH.
Qed.

(** A string of the shape is left alone by the replacement of runs. *)
Lemma replace_runs_shape (b : bool) (s : jsstring) :
  hyphen_sep b s = true →
  replace_runs_from (λ c, negb (is_slug_char c)) (js "-") b s = s.
Proof.
  change (js "-") with [45%N].
  revert b. induction s as [|c t IH]; intros b; simpl; [done |].
  destruct (is_hyphen c) eqn:Hc; rewrite andb_true_iff; intros [H1 H2].
  - rewrite (hyphen_not_slug_char c Hc). simpl.
    destruct b; [done |]. simpl. apply N.eqb_eq in Hc as ->. by rewrite IH.
  - rewrite H1. simpl. by rewrite IH.
Qed.

Lemma strip_leading_hyphen_shape (s : jsstring) :
  hyphen_sep false s = true → slug_shape (strip_leading_hyphen s) = true.
Proof.
  unfold slug_shape. destruct s as [|c t]; simpl; [done |].
  destruct (is_hyphen c) eqn:Hc; simpl; [done |]. by rewrite Hc.
Qed.

Lemma strip_trailing_hyphen_prefix (s : jsstring) :
  strip_trailing_hyphen s `prefix_of` s.
Proof.
  unfold strip_trailing_hyphen. destruct (reverse s) as [|c t] eqn:E.
  - apply prefix_nil.
  - destruct (is_hyphen c); [| done].
    exists [c]. by rewrite <- reverse_cons, <- E, reverse_involutive.
Qed.

Lemma strip_edge_hyphens_shape (s : jsstring) :
  hyphen_sep false s = true → slug_shape (strip_edge_hyphens s) = true.
Proof.
  intros H. eapply hyphen_sep_prefix; [apply strip_trailing_hyphen_prefix |].
  by apply strip_leading_hyphen_shape.
Qed.

Lemma strip_leading_hyphen_id (s : jsstring) :
  slug_shape s = true → strip_leading_hyphen s = s.
Proof. destruct s as [|c t]; [done |]. intros H%slug_shape_head. simpl. by rewrite H. Qed.

Lemma strip_trailing_hyphen_id (s : jsstring) :
  slug_shape (reverse s) = true → strip_trailing_hyphen s = s.
Proof.
  unfold strip_trailing_hyphen. destruct (reverse s) as [|c t] eqn:E.
  - intros _. by apply (f_equal reverse) in E; rewrite reverse_involutive in E.
  - intros H%slug_shape_head. by rewrite H.
Qed.

Lemma slug_or_hyphen_ascii (s : jsstring) :
  Forall (λ c, is_slug_char c = true ∨ is_hyphen c = true) s →
  Forall (λ c, is_ascii c = true) s.
Proof.
  intros Hs. eapply Forall_impl; [exact Hs |].
  intros c Hc. simpl in Hc. unfold is_ascii, is_hyphen in *.
  apply N.ltb_lt. destruct Hc; solve_class.
Qed.

Lemma slug_or_hyphen_lower (s : jsstring) :
  Forall (λ c, is_slug_char c = true ∨ is_hyphen c = true) s →
  map ascii_lower s = s.
Proof.
  induction 1 as [|c t Hc _ IH]; simpl; [done |]. rewrite IH. f_equal.
  unfold ascii_lower. destruct (is_upper c) eqn:Hu; [| done].
  unfold is_hyphen in Hc. destruct Hc; solve_class.
Qed.

Lemma ascii_no_combining_mark (s : jsstring) :
  Forall (λ c, is_ascii c = true) s →
  replace_each is_combining_mark [] s = s.
Proof.
  intros H. apply replace_each_none. eapply Forall_impl; [exact H |].
  intros c Hc. simpl in Hc. unfold is_ascii, is_combining_mark in *.
  apply N.ltb_lt in Hc. unfold in_range. apply andb_false_iff. left.
  apply N.leb_gt. lia.
Qed.

(** ** Properties of [slugify] *)

Section SlugifyProps.
Context `{!Unicode}.

(** On ASCII text [slugify] does not depend on the Unicode tables. *)
Lemma slugify_ascii (s : jsstring) :
  forallb is_ascii s = true →
  slugify s =
    slice0 80 (strip_edge_hyphens
      (replace_runs (λ c, negb (is_slug_char c)) (js "-") (map ascii_lower s))).
Proof.
  intros Hs%all_ascii_Forall. unfold slugify.
  rewrite normalizeNFD_ascii, ascii_no_combining_mark by done.
  by rewrite toLowerCase_ascii.
Qed.

Lemma slugify_slug_shape (text : jsstring) : slug_shape (slugify text) = true.
Proof.
  unfold slugify. eapply hyphen_sep_prefix; [apply slice0_prefix |].
  apply strip_edge_hyphens_shape, hyphen_sep_replace_runs.
Qed.

(** C5: every slug, of any text and with any Unicode tables, is safe in
    a URL path and in a file name: it consists of lowercase ASCII letters,
    digits and hyphens, does not start with a hyphen, has no two hyphens
    in a row, and is at most 80 code units long. *)
Theorem slugify_shape (text : jsstring) :
  slug_shape (slugify text) = true ∧ length (slugify text) ≤ 80 ∧
  Forall (λ c, is_slug_char c = true ∨ is_hyphen c = true) (slugify text).
Proof.
  split_and!; [apply slugify_slug_shape | apply slice0_length |].
  eapply hyphen_sep_Forall, slugify_slug_shape.
Qed.

(** A clean slug (the shape of a slug read from both ends, at most 80
    code units) is a fixed point of [slugify]: slugs of such names are the
    names themselves. *)
Theorem slugify_clean (s : jsstring) : clean_slug s = true → slugify s = s.
Proof.
  unfold clean_slug. rewrite !andb_true_iff, bool_decide_eq_true.
  intros [[Hs Hr] Hlen].
  pose proof (hyphen_sep_Forall _ _ Hs) as Hall.
  rewrite slugify_ascii by (by apply Forall_all_ascii, slug_or_hyphen_ascii).
  rewrite slug_or_hyphen_lower by done.
  unfold replace_runs. rewrite replace_runs_shape by (by apply hyphen_sep_weaken).
  unfold strip_edge_hyphens.
  rewrite strip_leading_hyphen_id, strip_trailing_hyphen_id by done.
  by apply slice0_short.
Qed.


(** [slugify] is not injective, and its result can be empty: the tags
    [C++] and [c] share the slug [c], and the tag [+++] has the empty
    slug. *)
Theorem slugify_collision :
  slugify (js "C++") = slugify (js "c") ∧ js "C++" ≠ js "c" ∧
  slugify (js "+++") = [].
Proof. rewrite !slugify_ascii by (by vm_compute). by vm_compute. Qed.

End SlugifyProps.

Lemma slugify_clean_witness :
  clean_slug (js "vs-code") = true ∧
  @slugify ascii_unicode (js "vs-code") = js "vs-code".
Proof.
  split; [by vm_compute |].
  apply (@slugify_clean ascii_unicode). by vm_compute.
Defined.
