(* ===== verification/Url.v ===== *)
(** * Site configuration and URL construction

    The configuration [SITE] of [src/scripts/build.js] is computed once from
    the environment ([inferDefaultOrigin], [inferBasePathFromRepository],
    [normalizeOrigin], [normalizeBasePath]) and read by [toPublicUrl] and
    [toAbsoluteUrl], which every page builder calls.  The model passes it as
    an explicit [Site] value.  The file proves the normal forms of origin,
    base path and path, and that a public URL is the base path followed by
    the normalised path unless the argument is an absolute http(s) URL. *)

From Stdlib Require Import NArith ZArith Ascii String List Lia.
From stdpp Require Import base tactics numbers option list.
From S2P Require Import Prelude Runtime.

(** ** Configuration *)

(** [process.env]: a variable that is not set is [None]. *)
Record Env : Type := {
  GITHUB_REPOSITORY : option jsstring;
  GITHUB_REPOSITORY_OWNER : option jsstring;
  SITE_URL : option jsstring;
  BASE_PATH : option jsstring
}.

Record Site : Type := {
  siteName : jsstring;
  siteDescription : jsstring;
  origin : jsstring;
  basePath : jsstring;
  adsClient : jsstring
}.

(** [process.env.X || fallback]: an unset and an empty variable give the
    fallback. *)
Definition env_or (v : option jsstring) (fallback : jsstring) : jsstring :=
  match v with
  | Some s => if nonempty s then s else fallback
  | None => fallback
  end.

Definition is_slash (c : jschar) : bool := (c =? 47)%N.

(** [String.prototype.split('/')]. *)
Fixpoint split_slash (s : jsstring) : list jsstring :=
  match s with
  | [] => [[]]
  | c :: t =>
      if is_slash c then [] :: split_slash t
      else match split_slash t with
           | h :: r => (c :: h) :: r
           | [] => [[c]]
           end
  end.

Definition default_origin : jsstring := js "https://miguel-br-dl.github.io".

Definition inferDefaultOrigin (repositoryOwner : jsstring) : jsstring :=
  if nonempty repositoryOwner
  then js "https://" ++ repositoryOwner ++ js ".github.io"
  else default_origin.

Section Config.
Context `{!Unicode}.

Definition inferBasePathFromRepository (repository : jsstring) : jsstring :=
  let parts := split_slash repository in
  match parts !! 0, parts !! 1 with
  | Some owner, Some repo =>
      if negb (nonempty owner) || negb (nonempty repo) then []
      else if bool_decide
                (toLowerCase repo = toLowerCase owner ++ js ".github.io")
      then []
      else 47%N :: repo
  | _, _ => []
  end.

(** [String(origin || '').replace(/\/+$/, '') || default]. *)
Definition normalizeOrigin (origin : jsstring) : jsstring :=
  let stripped := drop_while_end is_slash origin in
  if nonempty stripped then stripped else default_origin.

(** The pattern [/^\/+|\/+$/g] matches the run of slashes at the start and
    the run at the end. *)
Definition normalizeBasePath (basePath : jsstring) : jsstring :=
  if negb (nonempty basePath) || bool_decide (basePath = js "/") then []
  else
    let clean :=
      47%N :: drop_while_end is_slash (drop_while is_slash (trim basePath)) in
    if bool_decide (clean = js "/") then [] else clean.

(** The constant [SITE]: name, description and ad client are literals of
    the script, passed here as arguments. *)
Definition mkSite (name description ads : jsstring) (env : Env) : Site := {|
  siteName := name;
  siteDescription := description;
  origin :=
    normalizeOrigin
      (env_or (SITE_URL env)
         (inferDefaultOrigin (env_or (GITHUB_REPOSITORY_OWNER env) [])));
  basePath :=
    normalizeBasePath
      (env_or (BASE_PATH env)
         (inferBasePathFromRepository (env_or (GITHUB_REPOSITORY env) [])));
  adsClient := ads
|}.

End Config.

(** ** URL construction *)

(** [String(rawPath || '').trim()], then a leading slash. *)
Definition normalizePath (rawPath : jsval) : jsstring :=
  let value := trim (if truthy rawPath then toStr rawPath else []) in
  if negb (nonempty value) || bool_decide (value = js "/") then js "/"
  else if startsWith (js "/") value then value
  else 47%N :: value.

Section Urls.
Context (site : Site).

Definition toPublicUrl (rawPath : jsval) : jsstring :=
  if is_http_url (toStr rawPath) then toStr rawPath
  else
    let pathWithBase := basePath site ++ normalizePath rawPath in
    if nonempty pathWithBase then pathWithBase else js "/".

Context `{!UrlApi}.

(** [new URL(pathWithBase, SITE.origin).toString()] throws a [TypeError]
    when the origin or the path cannot be parsed: [None]. *)
Definition toAbsoluteUrl (rawPath : jsval) : option jsstring :=
  if is_http_url (toStr rawPath) then Some (toStr rawPath)
  else
    let pathWithBase := basePath site ++ normalizePath rawPath in
    urlToString (if nonempty pathWithBase then pathWithBase else js "/")
      (Some (origin site)).

End Urls.

(** ** Normal forms *)

Lemma startsWith_slash (s : jsstring) :
  startsWith (js "/") s = true ↔ ∃ t, s = 47%N :: t.
Proof.
  change (js "/") with [47%N]. destruct s as [|c t].
  - split; [done | by intros [? ?]].
  - rewrite startsWith_cons, andb_true_r, N.eqb_eq.
    split; [intros <-; eauto | by intros [? [= ->]]].
Qed.

Lemma nonempty_true (s : jsstring) : nonempty s = true ↔ s ≠ [].
Proof. unfold nonempty. rewrite negb_true_iff, bool_decide_eq_false. done. Qed.

Lemma nonempty_cons (c : jschar) (s : jsstring) : nonempty (c :: s) = true.
Proof. by apply nonempty_true. Qed.

Lemma nonempty_app_r (s t : jsstring) : nonempty t = true → nonempty (s ++ t) = true.
Proof. rewrite !nonempty_true. by destruct s, t. Qed.

(** A well-formed base path is empty, or a slash followed by a segment that
    neither starts nor ends with a slash. *)
Definition basePath_wf (b : jsstring) : Prop :=
  b = [] ∨ ∃ c t, b = 47%N :: c :: t ∧ is_slash c = false
                  ∧ last (c :: t) ≠ Some 47%N.

Definition origin_wf (o : jsstring) : Prop := o ≠ [] ∧ last o ≠ Some 47%N.

Definition site_wf (site : Site) : Prop :=
  basePath_wf (basePath site) ∧ origin_wf (origin site).

Lemma last_not_slash (p : jschar → bool) (l : jsstring) :
  last (drop_while_end is_slash l) ≠ Some 47%N.
Proof. intros H%drop_while_end_last. done. Qed.

Lemma normalizeOrigin_wf (o : jsstring) : origin_wf (normalizeOrigin o).
Proof.
  unfold normalizeOrigin.
  destruct (nonempty (drop_while_end is_slash o)) eqn:E.
  - split; [by apply nonempty_true | by apply (last_not_slash is_slash)].
  - by vm_compute.
Qed.

Lemma normalizeBasePath_wf (b : jsstring) : basePath_wf (normalizeBasePath b).
Proof.
  unfold normalizeBasePath. case_match; [by left |].
  change (js "/") with [47%N].
  destruct (drop_while_end is_slash (drop_while is_slash (trim b)))
    as [|c t] eqn:E; [by left |].
  right. rewrite bool_decide_eq_false_2 by done.
  exists c, t. split_and!; [done | |].
  - assert (head (drop_while is_slash (trim b)) = Some c) as Hh
      by (apply (drop_while_end_head is_slash); by rewrite E).
    destruct (drop_while is_slash (trim b)) as [|c' t'] eqn:E'; [done |].
    injection Hh as ->. by eapply drop_while_head.
  - rewrite <- E. by apply (last_not_slash is_slash).
Qed.

Section ConfigProps.
Context `{!Unicode}.

(** C30: whatever the environment holds, the configuration is well formed:
    the origin is not empty and has no trailing slash, and the base path is
    empty or a slash followed by a segment without a slash at either end. *)
Theorem mkSite_wf (name description ads : jsstring) (env : Env) :
  site_wf (mkSite name description ads env).
Proof. split; [apply normalizeBasePath_wf | apply normalizeOrigin_wf]. Qed.

Lemma split_slash_no_slash (s : jsstring) :
  Forall (λ c, is_slash c = false) s → split_slash s = [s].
Proof. induction 1 as [|c t Hc _ IH]; simpl; [done |]. by rewrite Hc, IH. Qed.

Lemma split_slash_two (owner repo : jsstring) :
  Forall (λ c, is_slash c = false) owner →
  Forall (λ c, is_slash c = false) repo →
  split_slash (owner ++ 47%N :: repo) = [owner; repo].
Proof.
  intros Ho Hr. induction Ho as [|c t Hc _ IH]; simpl.
  - by rewrite split_slash_no_slash.
  - by rewrite Hc, IH.
Qed.

(** For a repository [owner/repo] the inferred base path is empty when
    the repository is the owner's site ([repo] equals [owner.github.io] up
    to case), and [/repo] otherwise. *)
Theorem inferBasePathFromRepository_spec (owner repo : jsstring) :
  Forall (λ c, is_slash c = false) owner →
  Forall (λ c, is_slash c = false) repo →
  owner ≠ [] → repo ≠ [] →
  inferBasePathFromRepository (owner ++ 47%N :: repo) =
    if bool_decide (toLowerCase repo = toLowerCase owner ++ js ".github.io")
    then [] else 47%N :: repo.
Proof.
  intros Ho Hr Hne1 Hne2. unfold inferBasePathFromRepository.
  rewrite split_slash_two by done. simpl.
  by rewrite (proj2 (nonempty_true owner)), (proj2 (nonempty_true repo)).
Qed.

End ConfigProps.

Lemma inferBasePathFromRepository_spec_witness :
  @inferBasePathFromRepository ascii_unicode
    (js "miguel-br-dl" ++ 47%N :: js "Miguel-BR-DL.github.io") = [].
Proof.
  rewrite (@inferBasePathFromRepository_spec ascii_unicode);
    [by vm_compute | | | by vm_compute..];
    apply Forall_forall; intros c Hc; by vm_compute in Hc |- *;
    repeat (apply elem_of_cons in Hc as [-> | Hc]; [by vm_compute |]); inversion Hc.
Defined.

(** ** Paths and public URLs *)

Lemma normalizePath_cases (v : jsval) :
  let value := trim (if truthy v then toStr v else []) in
  normalizePath v = js "/" ∨
  (normalizePath v = value ∧ startsWith (js "/") value = true) ∨
  (normalizePath v = 47%N :: value ∧ value ≠ []
   ∧ startsWith (js "/") value = false).
Proof.
  intros value. unfold normalizePath. fold value.
  destruct (nonempty value) eqn:Hn; cbn [negb orb]; [| by left].
  case_bool_decide; [by left |].
  destruct (startsWith (js "/") value) eqn:Hs; [by right; left |].
  right; right. by apply nonempty_true in Hn.
Qed.

Lemma normalizePath_slash (v : jsval) : ∃ t, normalizePath v = 47%N :: t.
Proof.
  destruct (normalizePath_cases v) as [-> | [[-> Hs] | [-> _]]]; eauto.
  by apply startsWith_slash.
Qed.

Lemma normalizePath_trimmed (v : jsval) : trim (normalizePath v) = normalizePath v.
Proof.
  destruct (normalizePath_cases v) as [-> | [[-> Hs] | [-> [Hne _]]]].
  - by vm_compute.
  - apply trim_idemp.
  - apply trim_fixed; [by intros c [= <-] |].
    intros c Hc. apply (trim_last (if truthy v then toStr v else [])).
    destruct (trim (if truthy v then toStr v else [])) as [|d u]; [done |].
    by rewrite last_cons_cons in Hc.
Qed.

(** [normalizePath] always gives a path with a leading slash, and it
    is idempotent: a normalised path passed again (as the page builders do
    with the URLs they compose) is unchanged. *)
Theorem normalizePath_idemp (v : jsval) :
  (∃ t, normalizePath v = 47%N :: t) ∧
  normalizePath (VStr (normalizePath v)) = normalizePath v.
Proof.
  split; [apply normalizePath_slash |].
  destruct (normalizePath_slash v) as [t Ht].
  unfold normalizePath at 1. cbn [truthy toStr]. fold (nonempty (normalizePath v)).
  assert (nonempty (normalizePath v) = true) as Hn
    by (apply nonempty_true; by rewrite Ht).
  rewrite !Hn, normalizePath_trimmed, Hn. cbn [negb orb]. case_bool_decide as Heq; [done |].
  by rewrite (proj2 (startsWith_slash _)) by eauto.
Qed.

Lemma is_http_url_slash (t : jsstring) : is_http_url (47%N :: t) = false.
Proof. done. Qed.

(** A path that starts with a slash and has no white space at its ends is
    its own normal form. *)
Lemma normalizePath_rooted (t : jsstring) :
  trim (47%N :: t) = 47%N :: t → normalizePath (VStr (47%N :: t)) = 47%N :: t.
Proof.
  intros Htrim. unfold normalizePath. cbn [truthy toStr].
  fold (nonempty (47%N :: t)). rewrite nonempty_cons, Htrim, nonempty_cons.
  cbn [negb orb]. case_bool_decide as Heq; [done |].
  by rewrite (proj2 (startsWith_slash _)) by eauto.
Qed.

Section UrlProps.
Context (site : Site).

Lemma toPublicUrl_rooted_path (t : jsstring) :
  trim (47%N :: t) = 47%N :: t →
  toPublicUrl site (VStr (47%N :: t)) = basePath site ++ 47%N :: t.
Proof.
  intros Htrim. unfold toPublicUrl. cbn [toStr].
  rewrite is_http_url_slash, normalizePath_rooted by done.
  by rewrite nonempty_app_r.
Qed.

(** A path that is not an absolute URL is put under the base path. *)
Lemma toPublicUrl_path (v : jsval) :
  is_http_url (toStr v) = false →
  toPublicUrl site v = basePath site ++ normalizePath v.
Proof.
  intros E. unfold toPublicUrl. rewrite E.
  destruct (normalizePath_slash v) as [t ->].
  by rewrite nonempty_app_r.
Qed.

(** C10: a public URL is the argument itself when it is an absolute http(s)
    URL, and otherwise the base path followed by the normalised path; the
    fallback to ["/"] of the code is never taken. *)
Theorem toPublicUrl_spec (v : jsval) :
  toPublicUrl site v =
    if is_http_url (toStr v) then toStr v
    else basePath site ++ normalizePath v.
Proof.
  destruct (is_http_url (toStr v)) eqn:E; [| by apply toPublicUrl_path].
  unfold toPublicUrl. by rewrite E.
Qed.

(** With a well-formed configuration every public URL is either an
    absolute http(s) URL or starts with a slash, so a page can link to it
    from any directory of the site. *)
Theorem toPublicUrl_rooted (v : jsval) :
  basePath_wf (basePath site) →
  is_http_url (toPublicUrl site v) = true ∨ ∃ t, toPublicUrl site v = 47%N :: t.
Proof.
  intros Hwf. destruct (is_http_url (toStr v)) eqn:E.
  { left. unfold toPublicUrl. by rewrite E. }
  right. rewrite toPublicUrl_path by done.
  destruct Hwf as [-> | (c & t & -> & _)]; [apply normalizePath_slash | eauto].
Qed.

End UrlProps.

Lemma toPublicUrl_rooted_witness :
  let site := mkSite (H := ascii_unicode) [] [] []
                {| GITHUB_REPOSITORY := Some (js "octo/blog");
                   GITHUB_REPOSITORY_OWNER := Some (js "octo");
                   SITE_URL := None; BASE_PATH := None |} in
  toPublicUrl site (VStr (js "posts/a.html")) = js "/blog/posts/a.html".
Proof.
  intros site.
  destruct (toPublicUrl_rooted site (VStr (js "posts/a.html"))
              (normalizeBasePath_wf _)) as [H | [t H]];
    by vm_compute in H |- *.
Defined.
