(* ===== verification/Markup.v ===== *)
(** * Post-processing of rendered Markdown

    [addLazyLoadingToImages] and [stripHtml] of [src/scripts/build.js] rewrite
    the HTML the Markdown renderer returns: the first gives every [<img]
    followed by white space a [loading="lazy"] attribute, the second derives
    the plain text of a post by replacing tags and runs of white space with
    one space.  Both are global replacements; the matchers below decide where
    their patterns match and how far.  [isExternalLink] and the [link_open]
    rule give the links that leave the site the attributes [target] and
    [rel].  The file proves where the [loading] attribute is added and where
    it is not, and which links receive the two attributes. *)

From Stdlib Require Import NArith ZArith Ascii String List Lia.
From stdpp Require Import base tactics numbers option list.
From S2P Require Import Prelude Runtime JsObject Url.

(** ** [addLazyLoadingToImages] *)

(** The replacement [<img loading="lazy" ]. *)
Definition lazy_img : jsstring :=
  js "<img loading=" ++ 34%N :: js "lazy" ++ 34%N :: js " ".

(** [/<img\s+/]: the four characters and the longest run of white space
    after them, which is not empty. *)
Definition match_img (s : jsstring) : option (nat * jsstring) :=
  if startsWith (js "<img") s then
    match length (take_while is_space (drop 4 s)) with
    | O => None
    | S n => Some (3 + S n, lazy_img)
    end
  else None.

Definition addLazyLoadingToImages (html : jsstring) : jsstring :=
  replace_matches match_img html.

(** ** [stripHtml] *)

Definition is_gt (c : jschar) : bool := (c =? 62)%N.

(** [/<[^>]+>/]: a [<], the longest run of characters other than [>], which
    is not empty, and the [>] that ends it. *)
Definition match_tag (s : jsstring) : option (nat * jsstring) :=
  match s with
  | 60%N :: r =>
      let body := take_while (λ c, negb (is_gt c)) r in
      match body, drop_while (λ c, negb (is_gt c)) r with
      | _ :: _, _ :: _ => Some (S (length body), js " ")
      | _, _ => None
      end
  | _ => None
  end.

Definition stripHtml (html : jsstring) : jsstring :=
  trim (replace_runs is_space (js " ") (replace_matches match_tag html)).

(** ** External links *)

(** [/^(mailto:|tel:|javascript:)/i]. *)
Definition is_special_scheme (value : jsstring) : bool :=
  let l := map ascii_lower value in
  startsWith (js "mailto:") l || startsWith (js "tel:") l
  || startsWith (js "javascript:") l.

Section Links.
Context `{!UrlApi} (site : Site).

(** The exceptions of the URL constructor are caught: [false]. *)
Definition isExternalLink (href : jsval) : bool :=
  if negb (truthy href) then false
  else
    let value := trim (toStr href) in
    if negb (nonempty value) || startsWith (js "#") value
       || startsWith (js "/") value
    then false
    else if is_special_scheme value then false
    else
      match urlOrigin value (Some (origin site)), urlOrigin (origin site) None with
      | Some linkOrigin, Some siteOrigin =>
          negb (bool_decide (linkOrigin = siteOrigin))
      | _, _ => false
      end.

(** [token.attrSet(name, value)] of markdown-it: the first attribute of
    the name is replaced, or the attribute is added at the end. *)
Fixpoint attrSet (name value : jsstring) (attrs : list (jsstring * jsstring))
    : list (jsstring * jsstring) :=
  match attrs with
  | [] => [(name, value)]
  | kv :: rest =>
      if decide (kv.1 = name) then (name, value) :: rest
      else kv :: attrSet name value rest
  end.

(** [token.attrGet(name)]: the value of the first attribute of the name,
    or [null]. *)
Fixpoint attrGet (name : jsstring) (attrs : list (jsstring * jsstring))
    : jsval :=
  match attrs with
  | [] => VNull
  | kv :: rest => if decide (kv.1 = name) then VStr kv.2 else attrGet name rest
  end.

(** The attributes of the token after the [link_open] rule. *)
Definition linkOpenAttrs (attrs : list (jsstring * jsstring))
    : list (jsstring * jsstring) :=
  if isExternalLink (attrGet (js "href") attrs)
  then attrSet (js "rel") (js "noopener noreferrer")
         (attrSet (js "target") (js "_blank") attrs)
  else attrs.

End Links.

(** ** Rendering *)

(** [md.render(source)] with the options and the rules of the script: the
    renderer of the library, given the [highlight] callback and the
    [link_open] rule. *)
Class Markdown : Type := {
  mdRender : jsstring → jsstring
}.

(** A renderer that returns its input, for evaluation. *)
Definition id_markdown : Markdown := {| mdRender source := source |}.

(** ** Properties of the replacements *)

Lemma match_img_other (c : jschar) (s : jsstring) :
  c ≠ 60%N → match_img (c :: s) = None.
Proof.
  intros Hc. unfold match_img.
  change (js "<img") with (60%N :: js "img").
  by rewrite startsWith_cons_ne.
Qed.

(** Text without an opening angle bracket is left as it is. *)
Lemma addLazyLoadingToImages_text (pre rest : jsstring) :
  Forall (λ c, c ≠ 60%N) pre →
  addLazyLoadingToImages (pre ++ rest) = pre ++ addLazyLoadingToImages rest.
Proof.
  unfold addLazyLoadingToImages, replace_matches.
  induction 1 as [|c pre Hc _ IH]; [done |].
  cbn [app replace_matches_skip]. by rewrite match_img_other, IH.
Qed.

Lemma match_img_img (sp rest : jsstring) (c : jschar) :
  sp ≠ [] → Forall (λ c, is_space c = true) sp → is_space c = false →
  match_img (js "<img" ++ sp ++ c :: rest) = Some (3 + length sp, lazy_img).
Proof.
  intros Hne Hsp Hc. unfold match_img.
  rewrite startsWith_app, (drop_app_length' (js "<img")) by done.
  rewrite take_while_app, (take_while_stop _ c), app_nil_r by done.
  by destruct sp.
Qed.

(** An image tag followed by white space receives the attribute, and the
    white space after the tag name is replaced by one space. *)
Lemma addLazyLoadingToImages_img (sp rest : jsstring) (c : jschar) :
  sp ≠ [] → Forall (λ c, is_space c = true) sp → is_space c = false →
  addLazyLoadingToImages (js "<img" ++ sp ++ c :: rest) =
    lazy_img ++ addLazyLoadingToImages (c :: rest).
Proof.
  intros Hne Hsp Hc. unfold addLazyLoadingToImages, replace_matches.
  pose proof (match_img_img sp rest c Hne Hsp Hc) as Hm.
  change (js "<img" ++ sp ++ c :: rest)
    with (60%N :: js "img" ++ sp ++ c :: rest) in *.
  rewrite (replace_matches_skip_match _ _ _ _ _ Hm). f_equal. f_equal.
  rewrite (drop_app_add' (js "img")) by done. apply drop_app_length.
Qed.

(** The pattern is case sensitive and requires white space: an upper-case
    tag and a tag without attributes are left as they are, and an image
    that has the attribute receives it again. *)
Example addLazyLoadingToImages_misses :
  addLazyLoadingToImages (js "<IMG src=x>") = js "<IMG src=x>" ∧
  addLazyLoadingToImages (js "<img/>") = js "<img/>" ∧
  addLazyLoadingToImages (js "<img loading=lazy src=x>")
  = lazy_img ++ js "loading=lazy src=x>".
Proof. by vm_compute. Qed.

(** ** Properties of the link rule *)

Lemma attrGet_attrSet (name name' value : jsstring)
    (attrs : list (jsstring * jsstring)) :
  attrGet name' (attrSet name value attrs) =
    if decide (name = name') then VStr value else attrGet name' attrs.
Proof.
  induction attrs as [|[k v] attrs IH]; simpl.
  - by case_decide.
  - repeat (case_decide; simpl in *; simplify_eq); try done.
    all: by rewrite ?IH, ?decide_True, ?decide_False by done.
Qed.

Section LinkProperties.
Context `{!UrlApi} (site : Site).

Lemma isExternalLink_internal (value : jsstring) :
  startsWith (js "/") (trim value) = true ∨
  startsWith (js "#") (trim value) = true ∨ trim value = [] →
  isExternalLink site (VStr value) = false.
Proof.
  unfold isExternalLink. cbn [toStr]. destruct (negb (truthy _)); [done |].
  intros [-> | [-> | ->]]; by rewrite ?orb_true_r.
Qed.

(** C31: a link the rule opens in a new tab cannot reach its opener, and the
    attributes of a link that stays on the site are not changed. *)
Theorem linkOpenAttrs_noopener (attrs : list (jsstring * jsstring)) :
  if isExternalLink site (attrGet (js "href") attrs)
  then attrGet (js "target") (linkOpenAttrs site attrs) = VStr (js "_blank") ∧
       attrGet (js "rel") (linkOpenAttrs site attrs)
       = VStr (js "noopener noreferrer") ∧
       attrGet (js "href") (linkOpenAttrs site attrs)
       = attrGet (js "href") attrs
  else linkOpenAttrs site attrs = attrs.
Proof.
  unfold linkOpenAttrs. destruct (isExternalLink _ _); [| done].
  rewrite !attrGet_attrSet. split_and!; by repeat case_decide.
Qed.

End LinkProperties.
