(* ===== verification/Posts.v ===== *)
(** * The content loader

    [validateFrontmatter] and [loadPosts] of [src/scripts/build.js]: every
    Markdown file of the posts directory is parsed, its metadata validated
    and normalised into a [Post], and the posts are sorted by date, newest
    first.  A failure of any file is the failure of the build.  The file
    proves when validation succeeds and what its errors name, the invariant
    of a loaded post, and that the collection is sorted, complete and in
    directory order among posts of the same date. *)

From Stdlib Require Import NArith ZArith Ascii String List Lia.
From stdpp Require Import base tactics numbers option list sorting sets.
From S2P Require Import Prelude Runtime JsObject Sorting Slug Url Markup.

(** ** Data *)

Record Post : Type := {
  slug : jsstring;
  title : jsstring;
  date : Z;
  isoDate : jsstring;
  formattedDate : jsstring;
  category : jsstring;
  summary : jsstring;
  readingTime : jsstring;
  tags : list jsstring;
  tagSlugs : jsobject jsstring;
  coverImage : jsstring;
  coverImageAbsolute : jsstring;
  url : jsstring;
  absoluteUrl : jsstring;
  htmlContent : jsstring;
  plainText : jsstring
}.

(** The errors that end a build, with the data their messages show. *)
Inductive build_error : Type :=
  | MissingFields (filename : jsstring) (missing : list jsstring)
  | NoTags (filename : jsstring)
  | InvalidDate (filename : jsstring) (raw : jsval)
  | FrontMatterError (filename : jsstring)
  | InvalidUrl (path : jsstring)
  | TypeError (what : jsstring)
  | RangeError (what : jsstring)
  | IoError (path : jsstring)
  | MinifyError (path : jsstring).

(** The text of the [Error] objects the script creates (the accented
    letters are the code units 225 and 243); the text of an error of a
    library is not part of the script. *)
Definition error_message (e : build_error) : option jsstring :=
  match e with
  | MissingFields filename missing =>
      Some (filename ++ js " est" ++ 225%N :: js " sem os campos obrigat"
              ++ 243%N :: js "rios: " ++ join (js ", ") missing)
  | NoTags filename =>
      Some (filename ++ js " deve ter ao menos uma tag em " ++ 34%N :: js "tags"
              ++ 34%N :: js ".")
  | InvalidDate filename raw =>
      Some (js "Data inv" ++ 225%N :: js "lida em " ++ filename ++ js ": "
              ++ toStr raw)
  | FrontMatterError _ | InvalidUrl _ | TypeError _ | RangeError _
  | IoError _ | MinifyError _ => None
  end.

Definition REQUIRED_FRONTMATTER_FIELDS : list jsstring :=
  [ js "title"; js "date"; js "category"; js "summary"; js "readingTime";
    js "tags"; js "coverImage" ].

(** [data.field]: the value of a property, [undefined] when there is none.
    None of the fields read is a name of [Object.prototype]. *)
Definition field (name : jsstring) (data : jsobject jsval) : jsval :=
  default VUndefined (obj_get name data).

(** ** Validation *)

Definition validateFrontmatter (filename : jsstring) (data : jsobject jsval)
    : result build_error unit :=
  let missing :=
    List.filter (λ name, negb (obj_in name data)) REQUIRED_FRONTMATTER_FIELDS in
  if (0 <? length missing)%nat then Err (MissingFields filename missing)
  else
    match asArray (field (js "tags") data) with
    | Some (_ :: _) => Ok tt
    | _ => Err (NoTags filename)
    end.

(** ** Loading *)

(** [path.basename(file, '.md')] on a directory entry: the extension is
    removed unless it is the whole name. *)
Definition basename_md (file : jsstring) : jsstring :=
  if endsWith (js ".md") file && negb (bool_decide (file = js ".md"))
  then take (length file - 3) file
  else file.

Section Loader.
Context `{!Unicode, !UrlApi, !DateApi, !FrontMatter, !Markdown}.
Context (site : Site).

(** [toAbsoluteUrl] as the loader calls it: a [TypeError] of the URL
    constructor ends the build. *)
Definition absoluteUrlOf (rawPath : jsval) : result build_error jsstring :=
  match toAbsoluteUrl site rawPath with
  | Some u => Ok u
  | None => Err (InvalidUrl (toStr rawPath))
  end.

(** The body of the loop of [loadPosts] for one file. *)
Definition loadPost (file source : jsstring) : result build_error Post :=
  match matter source with
  | None => Err (FrontMatterError file)
  | Some (data, content) =>
      _ ← validateFrontmatter file data;
      let slug := slugify (basename_md file) in
      match dateOf (field (js "date") data) with
      | None => Err (InvalidDate file (field (js "date") data))
      | Some date =>
          let tags :=
            List.filter nonempty
              (map (λ tag, trim (toStr tag))
                 (default [] (asArray (field (js "tags") data)))) in
          let tagSlugs :=
            obj_fromEntries (map (λ tag, (tag, slugify tag)) tags) in
          let htmlContent := addLazyLoadingToImages (mdRender content) in
          let postPath := VStr (js "/posts/" ++ slug ++ js ".html") in
          coverImageAbsolute ← absoluteUrlOf (field (js "coverImage") data);
          absoluteUrl ← absoluteUrlOf postPath;
          Ok {|
            slug := slug;
            title := trim (toStr (field (js "title") data));
            date := date;
            isoDate := toISOString date;
            formattedDate := formatDate date;
            category := trim (toStr (field (js "category") data));
            summary := trim (toStr (field (js "summary") data));
            readingTime := trim (toStr (field (js "readingTime") data));
            tags := tags;
            tagSlugs := tagSlugs;
            coverImage := toPublicUrl site (field (js "coverImage") data);
            coverImageAbsolute := coverImageAbsolute;
            url := toPublicUrl site postPath;
            absoluteUrl := absoluteUrl;
            htmlContent := htmlContent;
            plainText := stripHtml htmlContent
          |}
      end
  end.

(** The loop: the first failure ends it. *)
Fixpoint loadAll (files : list (jsstring * jsstring))
    : result build_error (list Post) :=
  match files with
  | [] => Ok []
  | (file, source) :: rest =>
      post ← loadPost file source;
      posts ← loadAll rest;
      Ok (post :: posts)
  end.

(** [loadPosts] on the entries of the posts directory, each with the text
    of the file. *)
Definition loadPosts (entries : list (jsstring * jsstring))
    : result build_error (list Post) :=
  let files := List.filter (λ e, endsWith (js ".md") e.1) entries in
  posts ← loadAll files;
  Ok (js_sort (by_desc date) posts).

End Loader.

(** ** Validation: lemmas *)

Lemma required_not_inherited :
  Forall (λ name, inherited name = false) REQUIRED_FRONTMATTER_FIELDS.
Proof. repeat constructor. Qed.

Lemma required_obj_in (name : jsstring) (data : jsobject jsval) :
  name ∈ REQUIRED_FRONTMATTER_FIELDS → obj_in name data = obj_has name data.
Proof.
  intros Hin. unfold obj_in.
  pose proof required_not_inherited as H.
  rewrite Forall_forall in H. rewrite (H name Hin). apply orb_false_r.
Qed.

(** The fields [validateFrontmatter] reports. *)
Definition missing_fields (data : jsobject jsval) : list jsstring :=
  List.filter (λ name, negb (obj_in name data)) REQUIRED_FRONTMATTER_FIELDS.

Lemma elem_of_missing_fields (name : jsstring) (data : jsobject jsval) :
  name ∈ missing_fields data ↔
  name ∈ REQUIRED_FRONTMATTER_FIELDS ∧ name ∉ obj_keys data.
Proof.
  unfold missing_fields. rewrite list_elem_of_In, filter_In, <- list_elem_of_In.
  split; intros [Hin H]; split; try done.
  - rewrite required_obj_in, negb_true_iff in H by done. by apply obj_has_false.
  - rewrite required_obj_in, negb_true_iff by done. by apply obj_has_false.
Qed.

Lemma missing_fields_nil (data : jsobject jsval) :
  missing_fields data = [] ↔
  ∀ name, name ∈ REQUIRED_FRONTMATTER_FIELDS → name ∈ obj_keys data.
Proof.
  split.
  - intros Hnil name Hin. destruct (decide (name ∈ obj_keys data)); [done |].
    assert (name ∈ missing_fields data) as Hm by by apply elem_of_missing_fields.
    rewrite Hnil in Hm. by apply elem_of_nil in Hm.
  - intros Hall. destruct (missing_fields data) as [|name l] eqn:E; [done |].
    assert (name ∈ missing_fields data) as Hm by (rewrite E; left).
    apply elem_of_missing_fields in Hm as [Hin Hnot]. by destruct Hnot; auto.
Qed.

Lemma validateFrontmatter_unfold (filename : jsstring) (data : jsobject jsval) :
  validateFrontmatter filename data =
    match missing_fields data with
    | _ :: _ => Err (MissingFields filename (missing_fields data))
    | [] =>
        match asArray (field (js "tags") data) with
        | Some (_ :: _) => Ok tt
        | _ => Err (NoTags filename)
        end
    end.
Proof.
  unfold validateFrontmatter. fold (missing_fields data).
  by destruct (missing_fields data).
Qed.

(** ** Validation: properties *)

(** C21: validation succeeds exactly when the seven required fields are
    present and [tags] is an array with at least one element. *)
Theorem validateFrontmatter_Ok (filename : jsstring) (data : jsobject jsval) :
  validateFrontmatter filename data = Ok tt ↔
  (∀ name, name ∈ REQUIRED_FRONTMATTER_FIELDS → name ∈ obj_keys data) ∧
  ∃ tag rest, field (js "tags") data = VArr (tag :: rest).
Proof.
  rewrite validateFrontmatter_unfold, <- missing_fields_nil.
  destruct (missing_fields data); [| naive_solver].
  destruct (field (js "tags") data) as [| | | | |[|tag rest]|]; simpl; naive_solver.
Qed.

(** C4: when a required field is absent, validation fails with the error
    that lists the absent fields, and its message starts with the file name
    and contains the name of every absent field. *)
Theorem validateFrontmatter_missing (filename name : jsstring)
    (data : jsobject jsval) :
  name ∈ REQUIRED_FRONTMATTER_FIELDS → name ∉ obj_keys data →
  ∃ missing msg,
    validateFrontmatter filename data = Err (MissingFields filename missing) ∧
    name ∈ missing ∧
    error_message (MissingFields filename missing) = Some msg ∧
    filename `prefix_of` msg ∧ substring_of name msg.
Proof.
  intros Hreq Hnot.
  assert (name ∈ missing_fields data) as Hm by by apply elem_of_missing_fields.
  exists (missing_fields data). eexists. split_and!; [| done | done | |].
  - rewrite validateFrontmatter_unfold.
    destruct (missing_fields data); [by apply elem_of_nil in Hm | done].
  - by eexists.
  - apply substring_of_app_l, substring_of_app_l, substring_of_cons,
      substring_of_app_l, substring_of_cons, substring_of_app_l.
    by apply join_substring.
Qed.

Lemma validateFrontmatter_missing_witness :
  ∃ missing msg,
    validateFrontmatter (js "a.md") [(js "title", VStr (js "T"))]
      = Err (MissingFields (js "a.md") missing) ∧
    js "summary" ∈ missing ∧
    error_message (MissingFields (js "a.md") missing) = Some msg ∧
    js "a.md" `prefix_of` msg ∧ substring_of (js "summary") msg.
Proof.
  apply validateFrontmatter_missing.
  - unfold REQUIRED_FRONTMATTER_FIELDS. set_solver.
  - intros H%list_elem_of_singleton. by vm_compute in H.
Defined.

(** ** The invariant of a loaded post *)

Section LoaderProps.
Context `{!Unicode, !UrlApi, !DateApi, !FrontMatter, !Markdown}.
Context (site : Site).

Record post_wf (p : Post) : Prop := {
  wf_slug : slug_shape (slug p) = true ∧ length (slug p) ≤ 80;
  wf_url : url p = basePath site ++ js "/posts/" ++ slug p ++ js ".html";
  wf_tags : Forall (λ tag, tag ≠ [] ∧ trim tag = tag) (tags p);
  wf_tagSlugs : ∀ tag,
    obj_get tag (tagSlugs p) =
      if decide (tag ∈ tags p) then Some (slugify tag) else None;
  wf_tagSlugs_obj : obj_wf (tagSlugs p);
  wf_trimmed :
    trim (title p) = title p ∧ trim (category p) = category p ∧
    trim (summary p) = summary p ∧ trim (readingTime p) = readingTime p;
  wf_dates :
    isoDate p = toISOString (date p) ∧ formattedDate p = formatDate (date p);
  wf_text : plainText p = stripHtml (htmlContent p)
}.

Lemma post_path_trimmed (s : jsstring) :
  trim (js "/posts/" ++ s ++ js ".html") = js "/posts/" ++ s ++ js ".html".
Proof.
  apply trim_fixed.
  - by intros c [= <-].
  - change (js ".html") with (js ".htm" ++ [108%N]).
    rewrite !app_assoc, last_snoc. by intros c [= <-].
Qed.

Lemma post_url (s : jsstring) :
  toPublicUrl site (VStr (js "/posts/" ++ s ++ js ".html")) =
    basePath site ++ js "/posts/" ++ s ++ js ".html".
Proof. apply (toPublicUrl_rooted_path site), (post_path_trimmed s). Qed.

Lemma loaded_tags_wf (items : list jsval) :
  Forall (λ tag, tag ≠ [] ∧ trim tag = tag)
    (List.filter nonempty (map (λ tag, trim (toStr tag)) items)).
Proof.
  apply Forall_forall. intros tag [Hin Hne]%list_elem_of_In%filter_In.
  split; [by apply nonempty_true |].
  apply in_map_iff in Hin as (v & <- & _). apply trim_idemp.
Qed.

Lemma loadPost_wf (file source : jsstring) (p : Post) :
  loadPost site file source = Ok p → post_wf p.
Proof.
  unfold loadPost. destruct (matter source) as [[data content]|]; [| done].
  intros Hload. inv_Ok.
  destruct (dateOf (field (js "date") data)) as [d|]; [| done].
  inv_Ok. subst p. split; simpl.
  - split; [apply slugify_slug_shape | apply slice0_length].
  - apply post_url.
  - apply loaded_tags_wf.
  - intros tag. apply obj_fromEntries_graph.
  - apply obj_fromEntries_wf.
  - by rewrite !trim_idemp.
  - done.
  - done.
Qed.

(** ** The loop *)

Lemma loadAll_Ok (files : list (jsstring * jsstring)) (posts : list Post) :
  loadAll site files = Ok posts ↔
  Forall2 (λ e p, loadPost site e.1 e.2 = Ok p) files posts.
Proof.
  revert posts. induction files as [|[file source] rest IH]; intros posts; simpl.
  - split; [intros [= <-]; constructor | by inversion 1].
  - split.
    + intros Hl. inv_Ok. subst. constructor; [done | by apply IH].
    + inversion 1 as [|? p ? ps Hp Hrest]; subst. simpl in Hp.
      rewrite Hp. simpl. apply IH in Hrest. by rewrite Hrest.
Qed.

Lemma loadAll_first_error (pre rest : list (jsstring * jsstring))
    (file source : jsstring) (e : build_error) :
  Forall (λ x, is_Ok (loadPost site x.1 x.2) = true) pre →
  loadPost site file source = Err e →
  loadAll site (pre ++ (file, source) :: rest) = Err e.
Proof.
  intros Hpre He. induction Hpre as [|[f s] pre Hx _ IH]; simpl.
  - by rewrite He.
  - simpl in Hx. destruct (loadPost site f s); [| done]. simpl. by rewrite IH.
Qed.

Lemma loadAll_total (files : list (jsstring * jsstring)) :
  Forall (λ x, is_Ok (loadPost site x.1 x.2) = true) files →
  ∃ posts, loadAll site files = Ok posts.
Proof.
  induction 1 as [|[f s] rest Hx _ [posts IH]]; simpl; [by eexists |].
  simpl in Hx. destruct (loadPost site f s) as [p|]; [| done].
  simpl. rewrite IH. by eexists.
Qed.

(** The Markdown files of the directory, in directory order. *)
Definition md_files (entries : list (jsstring * jsstring))
    : list (jsstring * jsstring) :=
  List.filter (λ e, endsWith (js ".md") e.1) entries.

Lemma loadPosts_inv (entries : list (jsstring * jsstring)) (posts : list Post) :
  loadPosts site entries = Ok posts ↔
  ∃ loaded,
    Forall2 (λ e p, loadPost site e.1 e.2 = Ok p) (md_files entries) loaded ∧
    posts = js_sort (by_desc date) loaded.
Proof.
  unfold loadPosts. fold (md_files entries). split.
  - intros Hl. inv_Ok. subst. eexists. split; [by apply loadAll_Ok | done].
  - intros (loaded & Hall%loadAll_Ok & ->). by rewrite Hall.
Qed.

End LoaderProps.

(** ** Properties of [loadPosts] *)

Section LoadPostsProps.
Context `{!Unicode, !UrlApi, !DateApi, !FrontMatter, !Markdown}.
Context (site : Site).
Implicit Types (entries : list (jsstring * jsstring)) (posts : list Post).

(** Newest first: a post never stands before a post of a later date. *)
Definition newest_first (posts : list Post) : Prop :=
  StronglySorted (λ a b, (date b ≤ date a)%Z) posts.

Lemma js_sort_newest_first posts : newest_first (js_sort (by_desc date) posts).
Proof.
  eapply StronglySorted_impl; [| apply (js_sort_sorted (by_desc date))].
  intros a b. by apply by_desc_le.
Qed.

(** C2: the collection [loadPosts] returns is sorted by date, newest
    first: no post stands before a post with a later date. *)
Theorem loadPosts_sorted entries posts :
  loadPosts site entries = Ok posts → newest_first posts.
Proof. intros (loaded & _ & ->)%loadPosts_inv. apply js_sort_newest_first. Qed.

(** C15: the collection holds exactly one post for each Markdown file of
    the directory, the post [loadPost] builds from it, and nothing for the
    other entries. *)
Theorem loadPosts_complete entries posts :
  loadPosts site entries = Ok posts →
  ∃ loaded,
    Forall2 (λ e p, loadPost site e.1 e.2 = Ok p) (md_files entries) loaded ∧
    posts ≡ₚ loaded.
Proof.
  intros (loaded & Hall & ->)%loadPosts_inv.
  exists loaded. split; [done | apply js_sort_perm].
Qed.

(** The sort is stable: the posts of one date stand in the collection
    in the order of their files in the directory. *)
Theorem loadPosts_stable entries posts loaded (d : Z) :
  loadPosts site entries = Ok posts →
  Forall2 (λ e p, loadPost site e.1 e.2 = Ok p) (md_files entries) loaded →
  List.filter (λ p, (date p =? d)%Z) posts =
  List.filter (λ p, (date p =? d)%Z) loaded.
Proof.
  intros (loaded' & Hall & ->)%loadPosts_inv Hl.
  assert (loaded' = loaded) as ->.
  { apply loadAll_Ok in Hall, Hl. congruence. }
  apply filter_js_sort. intros a b Ha%Z.eqb_eq Hb%Z.eqb_eq.
  apply by_desc_le. lia.
Qed.

(** C16: a failure is fatal and is the failure of the first file that
    fails: when the files before it load, [loadPosts] returns its error,
    whatever follows. *)
Theorem loadPosts_first_error entries pre rest file source (e : build_error) :
  md_files entries = pre ++ (file, source) :: rest →
  Forall (λ x, is_Ok (loadPost site x.1 x.2) = true) pre →
  loadPost site file source = Err e →
  loadPosts site entries = Err e.
Proof.
  intros Hfiles Hpre He. unfold loadPosts. fold (md_files entries).
  rewrite Hfiles. by erewrite loadAll_first_error.
Qed.

(** When every Markdown file loads, [loadPosts] returns a collection:
    the loader has no failure of its own. *)
Theorem loadPosts_total entries :
  Forall (λ x, is_Ok (loadPost site x.1 x.2) = true) (md_files entries) →
  ∃ posts, loadPosts site entries = Ok posts.
Proof.
  intros [posts Hl]%loadAll_total. unfold loadPosts. fold (md_files entries).
  rewrite Hl. by eexists.
Qed.

(** C17: every post of the collection satisfies the invariant of a loaded
    post: a well-shaped slug of at most 80 code units, the URL
    [basePath/posts/slug.html], trimmed non-empty tags each with its slug in
    [tagSlugs], trimmed text fields. *)
Theorem loadPosts_wf entries posts :
  loadPosts site entries = Ok posts → Forall (post_wf site) posts.
Proof.
  intros (loaded & Hall & ->)%loadPosts_inv.
  rewrite js_sort_perm. induction Hall as [|e p es ps Hp _ IH]; constructor.
  - by eapply loadPost_wf.
  - done.
Qed.

(** C38: validation does not make the tags of a post non-empty: when every
    element of the [tags] array is blank, the post loads with no tag at
    all. *)
Theorem loadPost_blank_tags file source data content items p :
  matter source = Some (data, content) →
  field (js "tags") data = VArr items →
  Forall (λ v, trim (toStr v) = []) items →
  loadPost site file source = Ok p →
  tags p = [].
Proof.
  unfold loadPost. intros -> Htags Hblank Hload. inv_Ok.
  destruct (dateOf (field (js "date") data)); [| done].
  inv_Ok. subst p. simpl. rewrite Htags. simpl. clear Htags.
  induction Hblank as [|v vs Hv _ IH]; [done |].
  cbn [map List.filter]. by rewrite Hv.
Qed.

End LoadPostsProps.

(** ** A small site, for evaluation *)

Definition demo_data (date tag : jsstring) : jsobject jsval :=
  [ (js "title", VStr (js " Hello "));
    (js "date", VNum date true);
    (js "category", VStr (js "Tech"));
    (js "summary", VStr (js "S"));
    (js "readingTime", VStr (js "1 min"));
    (js "tags", VArr [VStr tag]);
    (js "coverImage", VStr (js "/c.png")) ].

Definition demo_matter : FrontMatter :=
  table_matter
    [ (js "A", (demo_data (js "100") (js "x"), js "body a"));
      (js "B", (demo_data (js "200") (js "y"), js "body b"));
      (js "C", (demo_data (js "100") (js " "), js "body c"));
      (js "D", ([(js "title", VStr (js "T"))], js "body d")) ].

Definition demo_site : Site :=
  mkSite (H := ascii_unicode) (js "Site") (js "About") (js "ads")
    {| GITHUB_REPOSITORY := Some (js "octo/blog");
       GITHUB_REPOSITORY_OWNER := Some (js "octo");
       SITE_URL := None; BASE_PATH := None |}.

Definition demo_loadPost : jsstring → jsstring → result build_error Post :=
  @loadPost ascii_unicode simple_url ms_dates demo_matter id_markdown demo_site.

Definition demo_loadPosts
    : list (jsstring * jsstring) → result build_error (list Post) :=
  @loadPosts ascii_unicode simple_url ms_dates demo_matter id_markdown
    demo_site.

Definition demo_entries : list (jsstring * jsstring) :=
  [ (js "a.md", js "A"); (js "readme.txt", js "?"); (js "b.md", js "B");
    (js "c.md", js "C") ].

Definition or_nil {E A} (r : result E (list A)) : list A :=
  match r with Ok l => l | Err _ => [] end.

Definition demo_loaded : list Post :=
  or_nil (@loadAll ascii_unicode simple_url ms_dates demo_matter id_markdown
            demo_site (md_files demo_entries)).

Definition demo_posts : list Post := or_nil (demo_loadPosts demo_entries).

Lemma demo_loadPosts_Ok : demo_loadPosts demo_entries = Ok demo_posts.
Proof. by vm_compute. Qed.

Lemma demo_loaded_Forall2 :
  Forall2 (λ e p, demo_loadPost e.1 e.2 = Ok p) (md_files demo_entries)
    demo_loaded.
Proof. apply loadAll_Ok. by vm_compute. Qed.

Lemma loadPosts_sorted_witness :
  demo_loadPosts demo_entries = Ok demo_posts ∧ newest_first demo_posts.
Proof.
  split; [exact demo_loadPosts_Ok |].
  exact (loadPosts_sorted _ _ _ demo_loadPosts_Ok).
Defined.

Lemma loadPosts_complete_witness :
  ∃ loaded,
    Forall2 (λ e p, demo_loadPost e.1 e.2 = Ok p) (md_files demo_entries)
      loaded ∧ demo_posts ≡ₚ loaded.
Proof. exact (loadPosts_complete _ _ _ demo_loadPosts_Ok). Defined.

Lemma loadPosts_stable_witness :
  List.filter (λ p, (date p =? 100)%Z) demo_posts =
  List.filter (λ p, (date p =? 100)%Z) demo_loaded.
Proof.
  eapply @loadPosts_stable; [exact demo_loadPosts_Ok | exact demo_loaded_Forall2].
Defined.

Lemma loadPosts_first_error_witness :
  demo_loadPosts [(js "a.md", js "A"); (js "d.md", js "D"); (js "?.md", js "?")]
  = Err (MissingFields (js "d.md")
           [js "date"; js "category"; js "summary"; js "readingTime";
            js "tags"; js "coverImage"]).
Proof.
  eapply @loadPosts_first_error with (pre := [(js "a.md", js "A")])
    (rest := [(js "?.md", js "?")]).
  - by vm_compute.
  - repeat constructor.
  - by vm_compute.
Defined.

Lemma loadPosts_total_witness : ∃ posts, demo_loadPosts demo_entries = Ok posts.
Proof. eapply @loadPosts_total. repeat constructor. Defined.

Lemma loadPosts_wf_witness :
  Forall (post_wf (H := ascii_unicode) (H1 := ms_dates) demo_site) demo_posts.
Proof. eapply @loadPosts_wf. exact demo_loadPosts_Ok. Defined.

Lemma loadPost_blank_tags_witness :
  ∃ p, demo_loadPost (js "c.md") (js "C") = Ok p ∧ tags p = [].
Proof.
  eexists. split; [by vm_compute |].
  eapply @loadPost_blank_tags with (source := js "C") (items := [VStr (js " ")])
    (data := demo_data (js "100") (js " ")) (content := js "body c")
    (H := ascii_unicode) (H0 := simple_url) (H1 := ms_dates)
    (H2 := demo_matter) (H3 := id_markdown) (site := demo_site)
    (file := js "c.md").
  - by vm_compute.
  - by vm_compute.
  - repeat constructor.
  - by vm_compute.
Defined.
