(* ===== verification/Related.v ===== *)
(** * Related posts

    [findRelatedPosts] of [src/scripts/build.js] chooses the posts shown
    under a post: every other post is scored by the number of its tags that
    the current post has, plus two when the categories agree; the posts with
    a positive score are sorted by score, then by date, and the first three
    are kept.  When no post has a positive score the first three other posts
    of the collection are returned.  The file proves the bounds, the
    exclusion of the current post, the ranking and its optimality, and the
    fallback. *)

From Stdlib Require Import NArith ZArith Ascii String List Lia.
From stdpp Require Import base tactics numbers option list sorting sets.
From S2P Require Import Prelude Runtime JsObject Sorting Posts.

(** ** The code *)

Section Related.
Context (current : Post).

(** [post.tags.filter((tag) => current.tags.includes(tag)).length] *)
Definition sharedTags (post : Post) : nat :=
  length (List.filter (λ tag, bool_decide (tag ∈ tags current)) (tags post)).

Definition categoryBonus (post : Post) : nat :=
  if bool_decide (category post = category current) then 2 else 0.

Definition score (post : Post) : nat := sharedTags post + categoryBonus post.

(** [post.slug !== current.slug] *)
Definition is_other (post : Post) : bool :=
  negb (bool_decide (slug post = slug current)).

(** The loop that fills [scored]. *)
Definition scored_posts (posts : list Post) : list (Post * nat) :=
  flat_map
    (λ post,
       if is_other post
       then (if (0 <? score post)%nat then [(post, score post)] else [])
       else [])
    posts.

(** The comparison function of the sort: higher score first, then later
    date first. *)
Definition scored_cmp (a b : Post * nat) : Z :=
  if bool_decide (b.2 ≠ a.2) then (Z.of_nat b.2 - Z.of_nat a.2)%Z
  else (date b.1 - date a.1)%Z.

Definition findRelatedPosts (posts : list Post) : list Post :=
  let ordered := slice0 3 (map fst (js_sort scored_cmp (scored_posts posts))) in
  if (0 <? length ordered)%nat then ordered
  else slice0 3 (List.filter is_other posts).

End Related.

(** ** The ranking *)

#[export] Instance scored_cmp_comparator : Comparator scored_cmp.
Proof.
  split; unfold scored_cmp; intros; repeat case_bool_decide; lia.
Qed.

(** [a] ranks at least as high as [b]. *)
Definition ranks_before (current : Post) (a b : Post) : Prop :=
  score current b < score current a ∨
  (score current b = score current a ∧ (date b ≤ date a)%Z).

Lemma scored_cmp_le (a b : Post * nat) :
  cmp_le scored_cmp a b ↔ b.2 < a.2 ∨ (b.2 = a.2 ∧ (date b.1 ≤ date a.1)%Z).
Proof. unfold cmp_le, scored_cmp. case_bool_decide; lia. Qed.

Section RelatedProps.
Context (current : Post).
Implicit Types (posts : list Post) (p q : Post).

Lemma elem_of_scored_posts posts p n :
  (p, n) ∈ scored_posts current posts ↔
  p ∈ posts ∧ is_other current p = true ∧ n = score current p ∧ 0 < n.
Proof.
  unfold scored_posts. rewrite list_elem_of_In, in_flat_map. split.
  - intros (q & Hq%list_elem_of_In & Hin).
    destruct (is_other current q) eqn:Ho; [| done].
    destruct (Nat.ltb_spec 0 (score current q)); [| done].
    destruct Hin as [[= <- <-] | []]. done.
  - intros (Hp & Ho & -> & Hn). exists p. split; [by apply list_elem_of_In |].
    rewrite Ho. destruct (Nat.ltb_spec 0 (score current p)); [by left | lia].
Qed.

Lemma scored_posts_snd posts :
  Forall (λ x, x.2 = score current x.1) (scored_posts current posts).
Proof.
  apply Forall_forall. intros [p n] Hin.
  by apply elem_of_scored_posts in Hin as (_ & _ & -> & _).
Qed.

(** The posts with a positive score, best first. *)
Definition ranked (posts : list Post) : list Post :=
  map fst (js_sort scored_cmp (scored_posts current posts)).

Lemma elem_of_ranked posts p :
  p ∈ ranked posts ↔
  p ∈ posts ∧ is_other current p = true ∧ 0 < score current p.
Proof.
  unfold ranked. rewrite list_elem_of_fmap. split.
  - intros ([q n] & -> & Hin). rewrite js_sort_elem_of in Hin.
    apply elem_of_scored_posts in Hin. naive_solver.
  - intros (Hp & Ho & Hn). exists (p, score current p). split; [done |].
    rewrite js_sort_elem_of. by apply elem_of_scored_posts.
Qed.

Lemma ranked_sorted posts : StronglySorted (ranks_before current) (ranked posts).
Proof.
  unfold ranked.
  assert (Forall (λ x, x.2 = score current x.1)
            (js_sort scored_cmp (scored_posts current posts))) as Hsnd
    by (rewrite js_sort_perm; apply scored_posts_snd).
  pose proof (js_sort_sorted scored_cmp (scored_posts current posts)) as Hs.
  induction Hs as [|x l _ IH Hx]; simpl; [constructor |].
  inversion_clear Hsnd as [|? ? Hx2 Hl2].
  constructor; [by apply IH |].
  apply Forall_fmap, Forall_forall. intros y Hy.
  rewrite Forall_forall in Hx, Hl2.
  specialize (Hx y Hy). apply scored_cmp_le in Hx.
  unfold ranks_before. simpl. rewrite <- Hx2, <- (Hl2 y Hy). done.
Qed.

Lemma findRelatedPosts_unfold posts :
  findRelatedPosts current posts =
    match ranked posts with
    | [] => slice0 3 (List.filter (is_other current) posts)
    | _ :: _ => slice0 3 (ranked posts)
    end.
Proof.
  unfold findRelatedPosts. fold (ranked posts).
  by destruct (ranked posts) as [|a [|b [|c l]]].
Qed.

End RelatedProps.

(** ** Properties of [findRelatedPosts] *)

Section RelatedClaims.
Context (current : Post).
Implicit Types (posts : list Post) (p q : Post).

Lemma slice0_elem_of {A} (n : nat) (l : list A) (x : A) :
  x ∈ slice0 n l → x ∈ l.
Proof. intros (i & Hi & _)%elem_of_take. by eapply list_elem_of_lookup_2. Qed.

Lemma is_other_true p : is_other current p = true ↔ slug p ≠ slug current.
Proof. unfold is_other. by rewrite negb_true_iff, bool_decide_eq_false. Qed.

(** C28: at most three posts are related to a post, each is a post of the
    collection, and none has the slug of the current post. *)
Theorem findRelatedPosts_bounds posts :
  length (findRelatedPosts current posts) ≤ 3 ∧
  ∀ p, p ∈ findRelatedPosts current posts →
       p ∈ posts ∧ slug p ≠ slug current.
Proof.
  rewrite findRelatedPosts_unfold. split.
  - destruct (ranked current posts); apply slice0_length.
  - intros p. destruct (ranked current posts) eqn:E; intros Hp%slice0_elem_of.
    + apply list_elem_of_In, filter_In in Hp as [Hp Ho].
      split; [by apply list_elem_of_In | by apply is_other_true].
    + rewrite <- E in Hp. apply elem_of_ranked in Hp as (? & ? & ?).
      split; [done | by apply is_other_true].
Qed.

(** C6: when some other post has a positive score, the related posts are
    the three best of the posts with a positive score: they are ordered by
    score, then by date, newest first, and every scored post that is left
    out ranks no higher than each of them. *)
Theorem findRelatedPosts_ranking posts q0 :
  q0 ∈ posts → slug q0 ≠ slug current → 0 < score current q0 →
  StronglySorted (ranks_before current) (findRelatedPosts current posts) ∧
  (∀ p, p ∈ findRelatedPosts current posts → 0 < score current p) ∧
  ∀ p q, p ∈ findRelatedPosts current posts →
         q ∈ posts → slug q ≠ slug current → 0 < score current q →
         q ∉ findRelatedPosts current posts → ranks_before current p q.
Proof.
  intros Hq0 Ho0 Hs0. rewrite findRelatedPosts_unfold.
  assert (q0 ∈ ranked current posts) as Hne
    by (apply elem_of_ranked; by rewrite is_other_true).
  destruct (ranked current posts) as [|r rs] eqn:E; [by apply elem_of_nil in Hne |].
  rewrite <- E in *. clear Hne r rs E.
  pose proof (ranked_sorted current posts) as Hsorted.
  rewrite <- (take_drop 3 (ranked current posts)) in Hsorted.
  unfold slice0. split_and!.
  - by apply StronglySorted_app_1_l in Hsorted.
  - intros p Hp%slice0_elem_of. by apply elem_of_ranked in Hp as (_ & _ & ?).
  - intros p q Hp Hq Hoq Hsq Hnot.
    eapply StronglySorted_app_1_elem_of; [exact Hsorted | done |].
    assert (q ∈ ranked current posts) as Hqr
      by (apply elem_of_ranked; by rewrite is_other_true).
    rewrite <- (take_drop 3 (ranked current posts)) in Hqr.
    by apply elem_of_app in Hqr as [? | ?].
Qed.

(** C29: when no other post has a positive score, the related posts are the
    first three other posts of the collection, which are the most recent
    ones in a collection sorted by date. *)
Theorem findRelatedPosts_fallback posts :
  (∀ q, q ∈ posts → slug q ≠ slug current → score current q = 0) →
  findRelatedPosts current posts =
    slice0 3 (List.filter (is_other current) posts).
Proof.
  intros Hzero. rewrite findRelatedPosts_unfold.
  destruct (ranked current posts) as [|r rs] eqn:E; [done |].
  assert (r ∈ ranked current posts) as Hr by (rewrite E; left).
  apply elem_of_ranked in Hr as (Hin & Ho%is_other_true & Hs).
  rewrite (Hzero r Hin Ho) in Hs. lia.
Qed.

End RelatedClaims.

(** ** The example of the specification *)

Definition demo_post (s cat : jsstring) (d : Z) (ts : list jsstring) : Post := {|
  slug := s; title := s; date := d; isoDate := []; formattedDate := [];
  category := cat; summary := []; readingTime := []; tags := ts;
  tagSlugs := []; coverImage := []; coverImageAbsolute := []; url := [];
  absoluteUrl := []; htmlContent := []; plainText := []
|}.

Definition demo_current : Post :=
  demo_post (js "current") (js "Tech") 40 [js "x"; js "y"].
Definition demo_A : Post := demo_post (js "a") (js "Tech") 30 [js "x"; js "y"].
Definition demo_B : Post := demo_post (js "b") (js "Tech") 20 [js "x"].
Definition demo_C : Post := demo_post (js "c") (js "Other") 10 [].


Lemma findRelatedPosts_bounds_witness :
  length (findRelatedPosts demo_current [demo_current; demo_A; demo_B; demo_C]) ≤ 3.
Proof. apply findRelatedPosts_bounds. Defined.

Lemma findRelatedPosts_ranking_witness :
  StronglySorted (ranks_before demo_current)
    (findRelatedPosts demo_current [demo_C; demo_B; demo_current; demo_A]).
Proof.
  apply (findRelatedPosts_ranking demo_current _ demo_A);
    [set_solver | by vm_compute | vm_compute; lia].
Defined.

Lemma findRelatedPosts_fallback_witness :
  findRelatedPosts demo_C [demo_current; demo_A; demo_B; demo_C]
  = [demo_current; demo_A; demo_B].
Proof.
  rewrite findRelatedPosts_fallback; [by vm_compute |].
  intros q Hq Hne.
  repeat (apply elem_of_cons in Hq as [-> | Hq]; [by vm_compute |]).
  by apply elem_of_nil in Hq.
Defined.
