(* ===== verification/Tags.v ===== *)
(** * The tag map and the search index

    [buildTagsMap] of [src/scripts/build.js] groups the posts by tag in an
    object literal and copies the groups into a second object in the order
    of the sorted tag names; [buildSearchIndex] projects the posts to the
    records the search widget reads.  The objects are read back in property
    order by the page builders and by [JSON.stringify].  The file proves
    which tags the map holds and which posts each tag lists, in which order
    the keys come out, and when the build fails because a tag is a name that
    every object inherits. *)

From Stdlib Require Import NArith ZArith Ascii String List Lia.
From stdpp Require Import base tactics numbers option list sorting sets.
From S2P Require Import Prelude Runtime JsObject Sorting Posts.

(** ** Data *)

(** The summary of a post pushed to the list of a tag. *)
Record TagEntry : Type := {
  entryTitle : jsstring;
  entrySummary : jsstring;
  entryCategory : jsstring;
  entryDate : jsstring;
  entryUrl : jsstring;
  entryCoverImage : jsstring
}.

Definition tagEntry (post : Post) : TagEntry := {|
  entryTitle := title post;
  entrySummary := summary post;
  entryCategory := category post;
  entryDate := formattedDate post;
  entryUrl := url post;
  entryCoverImage := coverImage post
|}.

(** The record of a post in [search-index.json]. *)
Record SearchRecord : Type := {
  srTitle : jsstring;
  srSummary : jsstring;
  srTags : list jsstring;
  srCategory : jsstring;
  srUrl : jsstring;
  srDate : jsstring;
  srCoverImage : jsstring;
  srTagSlugs : jsobject jsstring
}.

(** The record of one post. *)
Definition searchRecord (post : Post) : SearchRecord := {|
  srTitle := title post;
  srSummary := summary post;
  srTags := tags post;
  srCategory := category post;
  srUrl := url post;
  srDate := formattedDate post;
  srCoverImage := coverImage post;
  srTagSlugs := tagSlugs post
|}.

Definition buildSearchIndex (posts : list Post) : list SearchRecord :=
  map searchRecord posts.

(** ** The code of [buildTagsMap] *)

Abbreviation tagsmap := (jsobject (list TagEntry)).

(** The body of the inner loop: [if (!tagsMap[tag]) tagsMap[tag] = [];
    tagsMap[tag].push(entry)].  A value inherited from [Object.prototype] is
    truthy and has no [push]: the call throws a [TypeError]. *)
Definition pushTag (post : Post) (tagsMap : tagsmap) (tag : jsstring)
    : result build_error tagsmap :=
  let tagsMap1 :=
    match obj_read tag tagsMap with
    | Missing => obj_set tag [] tagsMap
    | _ => tagsMap
    end in
  match obj_read tag tagsMap1 with
  | Own entries => Ok (obj_set tag (entries ++ [tagEntry post]) tagsMap1)
  | _ => Err (TypeError (js "tagsMap[tag].push is not a function"))
  end.

Fixpoint pushTags (post : Post) (tagsMap : tagsmap) (ts : list jsstring)
    : result build_error tagsmap :=
  match ts with
  | [] => Ok tagsMap
  | tag :: rest => m ← pushTag post tagsMap tag; pushTags post m rest
  end.

Fixpoint collectTags (posts : list Post) (tagsMap : tagsmap)
    : result build_error tagsmap :=
  match posts with
  | [] => Ok tagsMap
  | post :: rest => m ← pushTags post tagsMap (tags post); collectTags rest m
  end.

Section BuildTagsMap.
Context `{!Collation}.

(** The copy into [sorted], in the order of the sorted keys. *)
Definition sortTags (tagsMap : tagsmap) : tagsmap :=
  foldl (λ sorted tag, obj_set tag (default [] (obj_get tag tagsMap)) sorted)
    [] (js_sort localeCompare (obj_keys tagsMap)).

Definition buildTagsMap (posts : list Post) : result build_error tagsmap :=
  tagsMap ← collectTags posts [];
  Ok (sortTags tagsMap).

End BuildTagsMap.

(** ** Specification *)

(** The pushes of the two loops, in order. *)
Definition tag_pushes (posts : list Post) : list (Post * jsstring) :=
  flat_map (λ post, map (λ tag, (post, tag)) (tags post)) posts.

(** The entries a sequence of pushes gives a tag. *)
Definition entries_of (tag : jsstring) (pushes : list (Post * jsstring))
    : list TagEntry :=
  map (λ pt, tagEntry pt.1)
    (List.filter (λ pt, bool_decide (pt.2 = tag)) pushes).

Definition all_tags (posts : list Post) : list jsstring :=
  (tag_pushes posts).*2.

Fixpoint pushAll (pushes : list (Post * jsstring)) (tagsMap : tagsmap)
    : result build_error tagsmap :=
  match pushes with
  | [] => Ok tagsMap
  | (post, tag) :: rest => m ← pushTag post tagsMap tag; pushAll rest m
  end.

Lemma pushAll_app (l1 l2 : list (Post * jsstring)) (o : tagsmap) :
  pushAll (l1 ++ l2) o = pushAll l1 o ≫= pushAll l2.
Proof.
  revert o. induction l1 as [|[p t] l1 IH]; intros o; simpl; [done |].
  destruct (pushTag p o t); simpl; [apply IH | done].
Qed.

Lemma pushTags_pushAll (post : Post) (ts : list jsstring) (o : tagsmap) :
  pushTags post o ts = pushAll (map (λ tag, (post, tag)) ts) o.
Proof.
  revert o. induction ts as [|t ts IH]; intros o; simpl; [done |].
  destruct (pushTag post o t); simpl; [apply IH | done].
Qed.

Lemma collectTags_pushAll (posts : list Post) (o : tagsmap) :
  collectTags posts o = pushAll (tag_pushes posts) o.
Proof.
  revert o. induction posts as [|p ps IH]; intros o; simpl; [done |].
  rewrite pushAll_app, pushTags_pushAll.
  destruct (pushAll _ o); simpl; [apply IH | done].
Qed.

(** ** One push *)

Lemma pushTag_cases (post : Post) (o : tagsmap) (tag : jsstring) :
  pushTag post o tag =
    match obj_get tag o with
    | Some entries => Ok (obj_set tag (entries ++ [tagEntry post]) o)
    | None =>
        if inherited tag
        then Err (TypeError (js "tagsMap[tag].push is not a function"))
        else Ok (obj_set tag [tagEntry post] (obj_set tag [] o))
    end.
Proof.
  unfold pushTag, obj_read. destruct (obj_get tag o) as [es|] eqn:E.
  - by rewrite E.
  - destruct (inherited tag) eqn:Ei.
    + by rewrite E.
    + by rewrite obj_get_set_eq.
Qed.

Lemma pushTag_spec (post : Post) (o m : tagsmap) (tag : jsstring) :
  pushTag post o tag = Ok m →
  (∀ k, obj_get k m =
          if decide (tag = k)
          then Some (default [] (obj_get tag o) ++ [tagEntry post])
          else obj_get k o) ∧
  (∀ k, k ∈ obj_keys m ↔ k = tag ∨ k ∈ obj_keys o) ∧
  (obj_wf o → obj_wf m) ∧
  (inherited tag = false ∨ tag ∈ obj_keys o).
Proof.
  rewrite pushTag_cases. destruct (obj_get tag o) as [es|] eqn:E.
  - intros [= <-]. split_and!.
    + intros k. by rewrite obj_get_set.
    + intros k. apply obj_keys_set_elem.
    + apply obj_set_wf.
    + right. apply obj_get_is_Some. by rewrite E.
  - destruct (inherited tag); [done |]. intros [= <-]. split_and!.
    + intros k. rewrite !obj_get_set. by case_decide.
    + intros k. rewrite !obj_keys_set_elem. naive_solver.
    + auto using obj_set_wf.
    + by left.
Qed.

Lemma pushTag_total (post : Post) (o : tagsmap) (tag : jsstring) :
  inherited tag = false → ∃ m, pushTag post o tag = Ok m.
Proof.
  intros Hi. rewrite pushTag_cases, Hi. destruct (obj_get tag o); by eexists.
Qed.

Lemma pushTag_inherited (post : Post) (o : tagsmap) (tag : jsstring) :
  inherited tag = true → tag ∉ obj_keys o →
  pushTag post o tag =
    Err (TypeError (js "tagsMap[tag].push is not a function")).
Proof.
  intros Hi Hk%obj_get_None. by rewrite pushTag_cases, Hk, Hi.
Qed.

(** ** All pushes *)

Lemma entries_of_cons (tag : jsstring) (p : Post) (t : jsstring)
    (pushes : list (Post * jsstring)) :
  entries_of tag ((p, t) :: pushes) =
    (if decide (t = tag) then [tagEntry p] else []) ++ entries_of tag pushes.
Proof.
  unfold entries_of. simpl. case_bool_decide; by case_decide.
Qed.

Lemma pushAll_spec (pushes : list (Post * jsstring)) (o m : tagsmap) :
  pushAll pushes o = Ok m →
  (∀ k, default [] (obj_get k m) =
          default [] (obj_get k o) ++ entries_of k pushes) ∧
  (∀ k, k ∈ obj_keys m ↔ k ∈ obj_keys o ∨ k ∈ pushes.*2) ∧
  (obj_wf o → obj_wf m).
Proof.
  revert o. induction pushes as [|[p t] pushes IH]; intros o; simpl.
  - intros [= <-]. split_and!; [| | done].
    + intros k. by rewrite app_nil_r.
    + intros k. rewrite elem_of_nil. naive_solver.
  - intros Hm. inv_Ok.
    match goal with H : pushTag _ _ _ = Ok ?x |- _ =>
      apply pushTag_spec in H as (Hget & Hkeys & Hwf & _); rename x into o1 end.
    apply IH in Hm as (Hget' & Hkeys' & Hwf'). split_and!.
    + intros k. rewrite Hget', Hget, entries_of_cons.
      case_decide; subst; simpl; by rewrite <- ?app_assoc.
    + intros k. rewrite Hkeys', Hkeys, elem_of_cons. naive_solver.
    + auto.
Qed.

Lemma pushAll_total (pushes : list (Post * jsstring)) (o : tagsmap) :
  Forall (λ tag, inherited tag = false) pushes.*2 →
  ∃ m, pushAll pushes o = Ok m.
Proof.
  revert o. induction pushes as [|[p t] pushes IH]; intros o; simpl.
  - by eexists.
  - intros [Ht Hrest]%Forall_cons.
    destruct (pushTag_total p o t Ht) as [m ->]. simpl. by apply IH.
Qed.

(** A map that holds no inherited name fails at the first tag that is
    one. *)
Lemma pushAll_inherited (pushes : list (Post * jsstring)) (o : tagsmap)
    (tag : jsstring) :
  tag ∈ pushes.*2 → inherited tag = true →
  (∀ k, k ∈ obj_keys o → inherited k = false) →
  pushAll pushes o =
    Err (TypeError (js "tagsMap[tag].push is not a function")).
Proof.
  revert o. induction pushes as [|[p t] pushes IH]; intros o; simpl.
  - by intros ?%elem_of_nil.
  - intros Hin Hi Ho. destruct (inherited t) eqn:Et.
    + rewrite pushTag_inherited; [done | done |].
      intros Hk. apply Ho in Hk. congruence.
    + destruct (pushTag_total p o t Et) as [m Hm]. rewrite Hm. simpl.
      apply elem_of_cons in Hin as [-> | Hin]; [congruence |].
      apply IH; [done | done |]. intros k.
      apply pushTag_spec in Hm as (_ & Hkeys & _). rewrite Hkeys.
      intros [-> | Hk]; auto.
Qed.

(** ** The sorted copy *)

Section Sorted.
Context `{!Collation}.

#[export] Instance localeCompare_comparator : Comparator localeCompare.
Proof. split; [apply localeCompare_total | apply localeCompare_trans]. Qed.

Lemma sortTags_get (o : tagsmap) (k : jsstring) :
  obj_get k (sortTags o) = obj_get k o.
Proof.
  unfold sortTags.
  rewrite (foldl_obj_set_keys_graph (λ tag, default [] (obj_get tag o))).
  case_decide as Hk; rewrite js_sort_elem_of in Hk.
  - apply obj_get_is_Some in Hk as [v ->]. done.
  - symmetry. by apply obj_get_None.
Qed.

Lemma sortTags_keys (o : tagsmap) (k : jsstring) :
  k ∈ obj_keys (sortTags o) ↔ k ∈ obj_keys o.
Proof. by rewrite <- !obj_get_is_Some, sortTags_get. Qed.

Lemma sortTags_wf (o : tagsmap) : obj_wf (sortTags o).
Proof.
  apply (foldl_obj_set_wf (λ tag, (tag, default [] (obj_get tag o)))),
    obj_wf_nil.
Qed.

(** The keys that are not array indices come out in collation order,
    whatever the order they were collected in. *)
Lemma sortTags_named_keys (o : tagsmap) :
  obj_wf o →
  named_keys (obj_keys (sortTags o)) =
    named_keys (js_sort localeCompare (obj_keys o)).
Proof.
  intros [Hnd _]. unfold sortTags.
  rewrite (named_keys_foldl_set (λ tag, default [] (obj_get tag o))).
  - done.
  - by rewrite js_sort_perm.
  - intros k _. apply not_elem_of_nil.
Qed.

Lemma sortTags_sorted (o : tagsmap) :
  obj_wf o →
  StronglySorted (cmp_le localeCompare) (named_keys (obj_keys (sortTags o))).
Proof.
  intros Hwf. rewrite sortTags_named_keys by done.
  apply StronglySorted_list_filter, js_sort_sorted, _.
Qed.

(** ** The whole function *)

Lemma buildTagsMap_pushAll (posts : list Post) :
  buildTagsMap posts = sortTags <$> pushAll (tag_pushes posts) [].
Proof.
  unfold buildTagsMap. rewrite collectTags_pushAll.
  by destruct (pushAll _ _).
Qed.

Lemma buildTagsMap_inv (posts : list Post) (m : tagsmap) :
  buildTagsMap posts = Ok m →
  ∃ o, pushAll (tag_pushes posts) [] = Ok o ∧ m = sortTags o ∧ obj_wf o.
Proof.
  rewrite buildTagsMap_pushAll. destruct (pushAll _ _) as [o|] eqn:E; [| done].
  intros [= <-]. exists o. split_and!; [done | done |].
  by apply (pushAll_spec _ _ _ E), obj_wf_nil.
Qed.

Lemma buildTagsMap_get (posts : list Post) (m : tagsmap) (tag : jsstring) :
  buildTagsMap posts = Ok m →
  obj_get tag m =
    if decide (tag ∈ all_tags posts)
    then Some (entries_of tag (tag_pushes posts)) else None.
Proof.
  intros (o & Ho & -> & _)%buildTagsMap_inv. rewrite sortTags_get.
  apply pushAll_spec in Ho as (Hget & Hkeys & _).
  specialize (Hget tag). specialize (Hkeys tag). simpl in Hget.
  case_decide as Hin.
  - assert (tag ∈ obj_keys o) as [v Hv]%obj_get_is_Some by (apply Hkeys; by right).
    rewrite Hv in Hget |- *. simpl in Hget. by rewrite Hget.
  - apply obj_get_None. rewrite Hkeys, elem_of_nil. unfold all_tags in Hin.
    naive_solver.
Qed.

End Sorted.

(** ** Properties of [buildTagsMap] *)

Lemma elem_of_all_tags (tag : jsstring) (posts : list Post) :
  tag ∈ all_tags posts ↔ ∃ post, post ∈ posts ∧ tag ∈ tags post.
Proof.
  unfold all_tags, tag_pushes. induction posts as [|p posts IH]; simpl.
  - rewrite elem_of_nil. split; [done | by intros (? & ?%elem_of_nil & _)].
  - rewrite fmap_app, elem_of_app, IH.
    change (map (λ tag0, (p, tag0)) (tags p)) with ((λ t, (p, t)) <$> tags p).
    rewrite <- list_fmap_compose, list_fmap_id.
    setoid_rewrite elem_of_cons. naive_solver.
Qed.

Lemma entries_of_tag_pushes (tag : jsstring) (posts : list Post) :
  Forall (λ post, NoDup (tags post)) posts →
  entries_of tag (tag_pushes posts) =
    map tagEntry (List.filter (λ post, bool_decide (tag ∈ tags post)) posts).
Proof.
  assert (∀ (p : Post) ts, NoDup ts →
    entries_of tag (map (λ t, (p, t)) ts) =
      if bool_decide (tag ∈ ts) then [tagEntry p] else []) as Hone.
  { intros p ts. induction 1 as [|t ts Ht _ IH]; [done |].
    simpl map. rewrite entries_of_cons, IH.
    repeat (case_decide || case_bool_decide); set_solver. }
  unfold tag_pushes, entries_of in *.
  induction 1 as [|p posts Hp _ IH]; [done |].
  simpl. rewrite List.filter_app, map_app, IH, (Hone p _ Hp).
  by case_bool_decide.
Qed.

Section Properties.
Context `{!Collation}.

(** C7: the map [buildTagsMap] returns is a well-formed object whose keys
    are exactly the tags of the posts. *)
Theorem buildTagsMap_keys (posts : list Post) (m : tagsmap) :
  buildTagsMap posts = Ok m →
  obj_wf m ∧ ∀ tag, tag ∈ obj_keys m ↔ tag ∈ all_tags posts.
Proof.
  intros Hm. split.
  - apply buildTagsMap_inv in Hm as (o & _ & -> & _). apply sortTags_wf.
  - intros tag. rewrite <- obj_get_is_Some, (buildTagsMap_get _ _ _ Hm).
    case_decide; [by split; eauto | split; [by intros [? ?] | done]].
Qed.

(** A tag of the map lists one entry for each time a post names it,
    in the order the posts were given; a name no post has reads as
    undefined. *)
Theorem buildTagsMap_entries (posts : list Post) (m : tagsmap)
    (tag : jsstring) :
  buildTagsMap posts = Ok m →
  obj_get tag m =
    if decide (tag ∈ all_tags posts)
    then Some (entries_of tag (tag_pushes posts)) else None.
Proof. apply buildTagsMap_get. Qed.

(** C22: when no post repeats a tag, the list of a tag is the entries of
    the posts that have the tag, in the order of the posts (newest first
    when the posts come from [loadPosts]). *)
Theorem buildTagsMap_post_order (posts : list Post) (m : tagsmap)
    (tag : jsstring) :
  Forall (λ post, NoDup (tags post)) posts →
  buildTagsMap posts = Ok m →
  tag ∈ all_tags posts →
  obj_get tag m =
    Some (map tagEntry
            (List.filter (λ post, bool_decide (tag ∈ tags post)) posts)).
Proof.
  intros Hnd Hm Hin. rewrite (buildTagsMap_get _ _ _ Hm).
  rewrite decide_True by done. by rewrite entries_of_tag_pushes.
Qed.

(** C23: the keys of the map that are not array indices are in the order
    of [localeCompare]. *)
Theorem buildTagsMap_order (posts : list Post) (m : tagsmap) :
  buildTagsMap posts = Ok m →
  StronglySorted (cmp_le localeCompare) (named_keys (obj_keys m)).
Proof. intros (o & _ & -> & Hwf)%buildTagsMap_inv. by apply sortTags_sorted. Qed.

(** [buildTagsMap] returns a map when no tag is a property name of
    [Object.prototype]. *)
Theorem buildTagsMap_total (posts : list Post) :
  Forall (λ tag, inherited tag = false) (all_tags posts) →
  ∃ m, buildTagsMap posts = Ok m.
Proof.
  intros Hok. rewrite buildTagsMap_pushAll.
  destruct (pushAll_total (tag_pushes posts) [] Hok) as [o ->]. by eexists.
Qed.

(** C24: a tag that is a property name of [Object.prototype]
    ([constructor], [toString], ...) makes [buildTagsMap] throw: the
    inherited value is truthy, so no array is created, and it has no
    [push]. *)
Theorem buildTagsMap_inherited_tag (posts : list Post) (tag : jsstring) :
  tag ∈ all_tags posts → inherited tag = true →
  buildTagsMap posts =
    Err (TypeError (js "tagsMap[tag].push is not a function")).
Proof.
  intros Hin Hi. rewrite buildTagsMap_pushAll.
  rewrite (pushAll_inherited _ _ tag); [done | done | done |].
  by intros k ?%elem_of_nil.
Qed.

End Properties.

(** ** Evaluation *)

Definition tag_post (name : jsstring) (ts : list jsstring) : Post := {|
  slug := name; title := name; date := 0; isoDate := []; formattedDate := [];
  category := []; summary := []; readingTime := []; tags := ts;
  tagSlugs := []; coverImage := []; coverImageAbsolute := []; url := [];
  absoluteUrl := []; htmlContent := []; plainText := []
|}.

Definition demo_tagged : list Post :=
  [ tag_post (js "p1") [js "rocq"; js "js"];
    tag_post (js "p2") [js "js"];
    tag_post (js "p3") [js "ada"; js "rocq"] ].

Definition demo_tagsMap : tagsmap :=
  match buildTagsMap (H := codeunit_collation) demo_tagged with
  | Ok m => m
  | Err _ => []
  end.

Lemma demo_tagsMap_Ok :
  buildTagsMap (H := codeunit_collation) demo_tagged
  = Ok demo_tagsMap.
Proof. by vm_compute. Qed.


Lemma buildTagsMap_keys_witness :
  obj_wf demo_tagsMap ∧
  ∀ tag, tag ∈ obj_keys demo_tagsMap ↔ tag ∈ all_tags demo_tagged.
Proof. exact (buildTagsMap_keys _ _ demo_tagsMap_Ok). Defined.

Lemma buildTagsMap_entries_witness :
  obj_get (js "js") demo_tagsMap =
    Some [tagEntry (tag_post (js "p1") [js "rocq"; js "js"]);
          tagEntry (tag_post (js "p2") [js "js"])].
Proof. exact (buildTagsMap_entries _ _ (js "js") demo_tagsMap_Ok). Defined.

Lemma buildTagsMap_post_order_witness :
  obj_get (js "rocq") demo_tagsMap =
    Some [tagEntry (tag_post (js "p1") [js "rocq"; js "js"]);
          tagEntry (tag_post (js "p3") [js "ada"; js "rocq"])].
Proof.
  refine (buildTagsMap_post_order _ _ (js "rocq") _ demo_tagsMap_Ok _).
  - repeat constructor; vm_compute; set_solver.
  - vm_compute. set_solver.
Defined.

Lemma buildTagsMap_order_witness :
  StronglySorted (cmp_le codeunit_compare)
    (named_keys (obj_keys demo_tagsMap)).
Proof.
  exact (buildTagsMap_order (H := codeunit_collation) _ _
           demo_tagsMap_Ok).
Defined.

Lemma buildTagsMap_total_witness :
  ∃ m, buildTagsMap (H := codeunit_collation) demo_tagged = Ok m.
Proof.
  apply (buildTagsMap_total (H := codeunit_collation)).
  repeat constructor.
Defined.

Lemma buildTagsMap_inherited_tag_witness :
  buildTagsMap (H := codeunit_collation)
    [tag_post (js "p") [js "js"; js "constructor"]]
  = Err (TypeError (js "tagsMap[tag].push is not a function")).
Proof.
  apply (buildTagsMap_inherited_tag (H := codeunit_collation) _
           (js "constructor")); [| done].
  vm_compute. set_solver.
Defined.
