(* ===== verification/Template.v ===== *)
(** * The template engine

    [renderTemplate] of [src/scripts/build.js] replaces every placeholder
    [{{ name }}] of a template by the text of the parameter [name];
    [renderLayout] renders the base template with the parameters of a page
    laid over the defaults of the site.  The placeholder pattern is matched
    by a scanner; the parameters are an object literal, so a name is looked
    up through [Object.prototype].  The file proves how a template is
    rendered placeholder by placeholder, that substituted text is never
    scanned again, and which parameter wins in a layout. *)

From Stdlib Require Import NArith ZArith Ascii String List Lia.
From stdpp Require Import base tactics numbers option list sets.
From S2P Require Import Prelude Runtime JsObject Url Posts.

(** [String(Object.prototype[name])] for the names every object inherits:
    the source text of a built-in function, or [[object Object]]. *)
Class Prototype : Type := {
  protoText : jsstring → jsstring
}.

(** The texts of V8. *)
Definition v8_prototype : Prototype := {|
  protoText name :=
    if bool_decide (name = js "__proto__") then js "[object Object]"
    else if bool_decide (name = js "constructor")
    then js "function Object() { [native code] }"
    else js "function " ++ name ++ js "() { [native code] }"
|}.

Section Template.
Context `{!Prototype}.

(** The callback of [renderTemplate]: [params[key]], the empty string for
    [undefined] and [null], [String(value)] otherwise. *)
Definition paramText (params : jsobject jsval) (key : jsstring) : jsstring :=
  match obj_read key params with
  | Own VUndefined | Own VNull | Missing => []
  | Own value => toStr value
  | Inherited => protoText key
  end.

(** [/{{\s*([a-zA-Z0-9_]+)\s*}}/]: the three classes are disjoint and none
    holds a brace, so the longest run of each is the only way to match. *)
Definition match_placeholder (params : jsobject jsval) (s : jsstring)
    : option (nat * jsstring) :=
  match s with
  | 123%N :: 123%N :: r =>
      let r1 := drop_while is_space r in
      let key := take_while is_word_char r1 in
      match key, drop_while is_space (drop_while is_word_char r1) with
      | _ :: _, 125%N :: 125%N :: r3 =>
          Some (S (length r - length r3), paramText params key)
      | _, _ => None
      end
  | _ => None
  end.

Definition renderTemplate (template : jsstring) (params : jsobject jsval)
    : jsstring :=
  replace_matches (match_placeholder params) template.

End Template.

(** ** The layout *)

(** [ | Blog e Portfólio Técnico]. *)
Definition titleSuffix : jsstring :=
  js " | Blog e Portf" ++ 243%N :: js "lio T" ++ 233%N :: js "cnico".

Definition defaultParams (site : Site) (canonicalUrl ogImage : jsstring)
    : jsobject jsval :=
  [ (js "metaTitle", VStr (siteName site ++ titleSuffix));
    (js "metaDescription", VStr (siteDescription site));
    (js "canonicalUrl", VStr canonicalUrl);
    (js "ogTitle", VStr (siteName site ++ titleSuffix));
    (js "ogDescription", VStr (siteDescription site));
    (js "ogImage", VStr ogImage);
    (js "ogType", VStr (js "website"));
    (js "content", VStr []);
    (js "adsClient", VStr (adsClient site));
    (js "stylesUrl", VStr (toPublicUrl site (VStr (js "/assets/css/styles.css"))));
    (js "highlightStylesUrl",
      VStr (toPublicUrl site (VStr (js "/assets/css/highlight.css"))));
    (js "mainJsUrl", VStr (toPublicUrl site (VStr (js "/assets/js/main.js"))));
    (js "pageScripts", VStr []);
    (js "headExtra", VStr []);
    (js "homeUrl", VStr (toPublicUrl site (VStr (js "/index.html"))));
    (js "blogUrl", VStr (toPublicUrl site (VStr (js "/blog.html"))));
    (js "projectsUrl", VStr (toPublicUrl site (VStr (js "/projects.html"))));
    (js "aboutUrl", VStr (toPublicUrl site (VStr (js "/about.html"))));
    (js "basePath", VStr (basePath site)) ].

Section Layout.
Context `{!Prototype, !UrlApi} (site : Site).

Definition renderLayout (baseTemplate : jsstring) (params : jsobject jsval)
    : result build_error jsstring :=
  canonicalUrl ← absoluteUrlOf site (VStr (js "/index.html"));
  ogImage ← absoluteUrlOf site (VStr (js "/assets/images/about-profile.png"));
  Ok (renderTemplate baseTemplate
        (obj_assign (defaultParams site canonicalUrl ogImage) params)).

End Layout.

(** ** Specification *)

(** A placeholder: the braces, the name and the white space around it. *)
Definition placeholder (sp1 key sp2 : jsstring) : jsstring :=
  123%N :: 123%N :: sp1 ++ key ++ sp2 ++ [125%N; 125%N].

Definition all_space (s : jsstring) : Prop :=
  Forall (λ c, is_space c = true) s.

Definition is_key (s : jsstring) : Prop :=
  s ≠ [] ∧ Forall (λ c, is_word_char c = true) s.

Definition no_brace (s : jsstring) : Prop := Forall (λ c, c ≠ 123%N) s.

Lemma word_not_space (c : jschar) : is_word_char c = true → is_space c = false.
Proof.
  intros Hw. destruct (is_space c) eqn:Hs; [exfalso | done].
  solve_class.
Qed.

Lemma placeholder_app (sp1 key sp2 post : jsstring) :
  placeholder sp1 key sp2 ++ post =
    123%N :: 123%N :: sp1 ++ key ++ sp2 ++ 125%N :: 125%N :: post.
Proof. unfold placeholder. cbn [app]. by rewrite <- !app_assoc. Qed.

Section TemplateLemmas.
Context `{!Prototype} (params : jsobject jsval).

Lemma match_placeholder_no_brace (c : jschar) (s : jsstring) :
  c ≠ 123%N → match_placeholder params (c :: s) = None.
Proof.
  intros Hc. unfold match_placeholder.
  destruct c as [|p]; [done |]. do 7 (destruct p as [p|p|]; try done).
Qed.

Lemma match_placeholder_placeholder (sp1 key sp2 post : jsstring) :
  all_space sp1 → is_key key → all_space sp2 →
  match_placeholder params (placeholder sp1 key sp2 ++ post) =
    Some (S (length sp1 + length key + length sp2 + 2), paramText params key).
Proof.
  intros Hsp1 [Hne Hkey] Hsp2. rewrite placeholder_app.
  assert (drop_while is_space (sp2 ++ 125%N :: 125%N :: post)
          = 125%N :: 125%N :: post) as Hr2
    by (by rewrite drop_while_app).
  assert (take_while is_word_char (sp2 ++ 125%N :: 125%N :: post) = [])
    as Ht.
  { destruct Hsp2 as [|c sp2 Hc _]; [done |]. apply take_while_stop.
    destruct (is_word_char c) eqn:E; [| done].
    apply word_not_space in E. congruence. }
  assert (drop_while is_word_char (sp2 ++ 125%N :: 125%N :: post)
          = sp2 ++ 125%N :: 125%N :: post) as Hd.
  { pose proof (take_while_drop_while is_word_char
                  (sp2 ++ 125%N :: 125%N :: post)) as Htd.
    by rewrite Ht in Htd. }
  assert (drop_while is_space (sp1 ++ key ++ sp2 ++ 125%N :: 125%N :: post)
          = key ++ sp2 ++ 125%N :: 125%N :: post) as Hr1.
  { rewrite drop_while_app by done. apply drop_while_fixed.
    destruct Hkey as [|c key Hc _]; [done |]. intros x [= <-].
    by apply word_not_space. }
  unfold match_placeholder.
  rewrite Hr1, take_while_app, Ht, app_nil_r, drop_while_app, Hd, Hr2 by done.
  destruct key as [|c key]; [done |]. do 3 f_equal.
  rewrite !length_app. cbn [length]. lia.
Qed.

End TemplateLemmas.

Section TemplateProperties.
Context `{!Prototype} (params : jsobject jsval).

Lemma renderTemplate_no_brace_app (pre rest : jsstring) :
  no_brace pre →
  renderTemplate (pre ++ rest) params = pre ++ renderTemplate rest params.
Proof.
  unfold renderTemplate, replace_matches.
  induction 1 as [|c pre Hc _ IH]; [done |].
  cbn [app replace_matches_skip].
  by rewrite match_placeholder_no_brace, IH.
Qed.

Lemma renderTemplate_placeholder_app (sp1 key sp2 post : jsstring) :
  all_space sp1 → is_key key → all_space sp2 →
  renderTemplate (placeholder sp1 key sp2 ++ post) params =
    paramText params key ++ renderTemplate post params.
Proof.
  intros Hsp1 Hkey Hsp2. unfold renderTemplate, replace_matches.
  pose proof (match_placeholder_placeholder params sp1 key sp2 post
                Hsp1 Hkey Hsp2) as Hm.
  rewrite placeholder_app in Hm |- *. cbn [replace_matches_skip].
  rewrite Hm, replace_matches_skip_drop. do 2 f_equal.
  cbn [drop]. rewrite <- !Nat.add_assoc. by rewrite !drop_app_add.
Qed.

(** A template without an opening brace is rendered as it is. *)
Theorem renderTemplate_text (template : jsstring) :
  no_brace template → renderTemplate template params = template.
Proof.
  intros Hnb. rewrite <- (app_nil_r template) at 1.
  by rewrite renderTemplate_no_brace_app, app_nil_r.
Qed.

(** C9: rendering proceeds placeholder by placeholder: the text before the
    first placeholder is copied, the placeholder is replaced by the text of
    its parameter, and only what follows the placeholder is scanned
    further: the substituted text is never rendered again. *)
Theorem renderTemplate_step (pre sp1 key sp2 post : jsstring) :
  no_brace pre → all_space sp1 → is_key key → all_space sp2 →
  renderTemplate (pre ++ placeholder sp1 key sp2 ++ post) params =
    pre ++ paramText params key ++ renderTemplate post params.
Proof.
  intros. by rewrite renderTemplate_no_brace_app,
    renderTemplate_placeholder_app.
Qed.

Lemma paramText_assign (defaults : jsobject jsval) (key : jsstring) :
  NoDup (obj_keys params) →
  paramText (obj_assign defaults params) key =
    if decide (key ∈ obj_keys params) then paramText params key
    else paramText defaults key.
Proof.
  intros Hnd. unfold paramText, obj_read. rewrite obj_get_assign by done.
  destruct (obj_get key params) as [v|] eqn:E.
  - rewrite decide_True; [done |]. apply obj_get_is_Some. by rewrite E.
  - rewrite decide_False; [done |]. by apply obj_get_None.
Qed.

End TemplateProperties.

Section LayoutProperties.
Context `{!Prototype, !UrlApi} (site : Site).

(** C33: in a layout a parameter of the page replaces the default of the
    site, and a name the page does not give falls back to the default. *)
Theorem renderLayout_param (params : jsobject jsval)
    (canonicalUrl ogImage pre sp1 key sp2 : jsstring) :
  absoluteUrlOf site (VStr (js "/index.html")) = Ok canonicalUrl →
  absoluteUrlOf site (VStr (js "/assets/images/about-profile.png"))
    = Ok ogImage →
  NoDup (obj_keys params) →
  no_brace pre → all_space sp1 → is_key key → all_space sp2 →
  renderLayout site (pre ++ placeholder sp1 key sp2) params =
    Ok (pre ++
        if decide (key ∈ obj_keys params) then paramText params key
        else paramText (defaultParams site canonicalUrl ogImage) key).
Proof.
  intros Hc Ho Hnd Hpre Hsp1 Hkey Hsp2. unfold renderLayout.
  rewrite Hc, Ho. cbn [mbind result_bind]. f_equal.
  rewrite <- (app_nil_r (placeholder sp1 key sp2)).
  rewrite renderTemplate_no_brace_app, renderTemplate_placeholder_app by done.
  rewrite paramText_assign by done.
  by rewrite (renderTemplate_text _ []), app_nil_r by constructor.
Qed.

End LayoutProperties.

(** ** Evaluation *)

(** A placeholder whose name is a property of [Object.prototype] is
    not rendered as the empty string when the parameters do not give it:
    the text of the inherited value is inserted. *)
Theorem renderTemplate_inherited_name :
  renderTemplate (H := v8_prototype) (js "<p>{{ toString }}</p>") []
  = js "<p>function toString() { [native code] }</p>" ∧
  renderTemplate (H := v8_prototype) (js "<p>{{ title }}</p>") []
  = js "<p></p>".
Proof. by vm_compute. Qed.

Lemma renderTemplate_text_witness :
  renderTemplate (H := v8_prototype) (js "a } b")
    [(js "a", VStr (js "x"))] = js "a } b".
Proof.
  apply (renderTemplate_text (H := v8_prototype)).
  repeat constructor; done.
Defined.

Lemma renderTemplate_step_witness :
  renderTemplate (H := v8_prototype) (js "<h1>{{ title }}</h1>{{x}}")
    [(js "title", VStr (js "{{x}}")); (js "x", VNull)]
  = js "<h1>{{x}}</h1>".
Proof.
  exact (renderTemplate_step (H := v8_prototype)
           [(js "title", VStr (js "{{x}}")); (js "x", VNull)]
           (js "<h1>") (js " ") (js "title") (js " ") (js "</h1>{{x}}")
           ltac:(repeat constructor; done) ltac:(repeat constructor)
           ltac:(split; [done | repeat constructor])
           ltac:(repeat constructor)).
Defined.

Lemma renderLayout_param_witness :
  renderLayout (H := v8_prototype) (H0 := simple_url) demo_site
    (js "<title>{{ metaTitle }}") [(js "metaTitle", VStr (js "T"))]
  = Ok (js "<title>T") ∧
  renderLayout (H := v8_prototype) (H0 := simple_url) demo_site
    (js "<a href='{{ blogUrl }}") [(js "metaTitle", VStr (js "T"))]
  = Ok (js "<a href='/blog/blog.html").
Proof.
  split.
  - eapply (renderLayout_param (H := v8_prototype) (H0 := simple_url)
              demo_site [(js "metaTitle", VStr (js "T"))] _ _
              (js "<title>") (js " ") (js "metaTitle") (js " "));
      [by vm_compute | by vm_compute | repeat constructor; set_solver
      | repeat constructor; done | repeat constructor
      | split; [done | repeat constructor] | repeat constructor].
  - eapply (renderLayout_param (H := v8_prototype) (H0 := simple_url)
              demo_site [(js "metaTitle", VStr (js "T"))] _ _
              (js "<a href='") (js " ") (js "blogUrl") (js " "));
      [by vm_compute | by vm_compute | repeat constructor; set_solver
      | repeat constructor; done | repeat constructor
      | split; [done | repeat constructor] | repeat constructor].
Defined.
