(* ===== verification/Feeds.v ===== *)
(** * The sitemap, the robots file and the feed

    [writeSitemap], [writeRobots] and [writeRss] of [src/scripts/build.js]
    compute the text of [sitemap.xml], [robots.txt] and [rss.xml].  The
    sitemap lists each file once, the first reference to it winning; the
    feed holds the first twenty posts.  The definitions return the text, or
    the exception of the URL or date constructor; the file is written by
    the caller.  The file proves what the list without duplicates holds,
    when the writers return, and that the text of a post cannot add markup
    to the feed. *)

From Stdlib Require Import NArith ZArith Ascii String List Lia.
From stdpp Require Import base tactics numbers option list gmap sets.
From S2P Require Import Prelude Runtime JsObject Escape Url Posts.

(** An entry of [pages]. *)
Record PageRef : Type := {
  file : jsstring;
  lastmod : jsstring
}.

(** The lines of a template literal. *)
Definition lines (ls : list jsstring) : jsstring := join [newline] ls.

Definition xml_declaration : jsstring :=
  js "<?xml version=" ++ quoted (js "1.0") ++ js " encoding="
  ++ quoted (js "UTF-8") ++ js "?>".

(** ** [writeSitemap] *)

(** The loop over [pages] with the set [seen]. *)
Fixpoint uniquePages (seen : gset jsstring) (pages : list PageRef)
    : list PageRef :=
  match pages with
  | [] => []
  | page :: rest =>
      if decide (file page ∈ seen) then uniquePages seen rest
      else page :: uniquePages ({[ file page ]} ∪ seen) rest
  end.

Section Writers.
Context `{!UrlApi, !DateApi} (site : Site).

(** [new Date(s).toISOString()]: a [RangeError] on a string that is not a
    date. *)
Definition isoOfString (s : jsstring) : result build_error jsstring :=
  match dateOf (VStr s) with
  | Some t => Ok (toISOString t)
  | None => Err (RangeError (js "Invalid time value"))
  end.

Definition sitemapEntry (page : PageRef) : result build_error jsstring :=
  loc ← absoluteUrlOf site (VStr (file page));
  modified ← isoOfString (lastmod page);
  Ok (lines [ js "  <url>";
              js "    <loc>" ++ escapeXml loc ++ js "</loc>";
              js "    <lastmod>" ++ escapeXml modified ++ js "</lastmod>";
              js "  </url>" ]).

Fixpoint sitemapEntries (pages : list PageRef)
    : result build_error (list jsstring) :=
  match pages with
  | [] => Ok []
  | page :: rest =>
      entry ← sitemapEntry page;
      entries ← sitemapEntries rest;
      Ok (entry :: entries)
  end.

(** The text written to [sitemap.xml]. *)
Definition writeSitemap (pages : list PageRef) : result build_error jsstring :=
  let unique := uniquePages ∅ pages in
  entries ← sitemapEntries unique;
  Ok (lines [ xml_declaration;
              js "<urlset xmlns="
              ++ quoted (js "http://www.sitemaps.org/schemas/sitemap/0.9")
              ++ js ">";
              lines entries;
              js "</urlset>" ]).

(** ** [writeRobots] *)

(** The text written to [robots.txt]. *)
Definition writeRobots : result build_error jsstring :=
  sitemapUrl ← absoluteUrlOf site (VStr (js "/sitemap.xml"));
  Ok (lines [ js "User-agent: *";
              js "Allow: /";
              js "Sitemap: " ++ sitemapUrl;
              [] ]).

(** ** [writeRss] *)

(** [new Date(s).toUTCString()], which does not throw. *)
Definition utcOfString (s : jsstring) : jsstring :=
  match dateOf (VStr s) with
  | Some t => toUTCString t
  | None => js "Invalid Date"
  end.

Definition rssItem (post : Post) : jsstring :=
  lines [ [];
          js "    <item>";
          js "      <title>" ++ escapeXml (title post) ++ js "</title>";
          js "      <description>" ++ escapeXml (summary post)
          ++ js "</description>";
          js "      <link>" ++ escapeXml (absoluteUrl post) ++ js "</link>";
          js "      <guid>" ++ escapeXml (absoluteUrl post) ++ js "</guid>";
          js "      <pubDate>" ++ utcOfString (isoDate post) ++ js "</pubDate>";
          js "      <category>" ++ escapeXml (category post)
          ++ js "</category>";
          js "    </item>" ].

Definition rssItems (posts : list Post) : jsstring :=
  join [] (map rssItem (slice0 20 posts)).

(** The text written to [rss.xml] at the time [now]. *)
Definition writeRss (now : Z) (posts : list Post)
    : result build_error jsstring :=
  let items := rssItems posts in
  home ← absoluteUrlOf site (VStr (js "/index.html"));
  Ok (lines [ xml_declaration;
              js "<rss version=" ++ quoted (js "2.0") ++ js ">";
              js "  <channel>";
              js "    <title>" ++ escapeXml (siteName site) ++ js "</title>";
              js "    <description>" ++ escapeXml (siteDescription site)
              ++ js "</description>";
              js "    <link>" ++ escapeXml home ++ js "</link>";
              js "    <language>pt-BR</language>";
              js "    <lastBuildDate>" ++ toUTCString now
              ++ js "</lastBuildDate>" ++ items;
              js "  </channel>";
              js "</rss>" ]).

End Writers.

(** ** The list without duplicates *)

Lemma uniquePages_files (seen : gset jsstring) (pages : list PageRef)
    (f : jsstring) :
  f ∈ file <$> uniquePages seen pages ↔ f ∈ file <$> pages ∧ f ∉ seen.
Proof.
  revert seen. induction pages as [|page rest IH]; intros seen; simpl.
  - rewrite elem_of_nil. naive_solver.
  - case_decide as Hs; rewrite ?fmap_cons, ?elem_of_cons, IH.
    + split; [naive_solver |]. intros [[-> | ?] ?]; [done | auto].
    + rewrite not_elem_of_union, not_elem_of_singleton.
      destruct (decide (f = file page)); naive_solver.
Qed.

Lemma uniquePages_NoDup_files (seen : gset jsstring) (pages : list PageRef) :
  NoDup (file <$> uniquePages seen pages).
Proof.
  revert seen. induction pages as [|page rest IH]; intros seen; simpl.
  - constructor.
  - case_decide; [done |]. rewrite fmap_cons. constructor; [| done].
    rewrite uniquePages_files. set_solver.
Qed.

Lemma uniquePages_sublist (seen : gset jsstring) (pages : list PageRef) :
  uniquePages seen pages `sublist_of` pages.
Proof.
  revert seen. induction pages as [|page rest IH]; intros seen; simpl.
  - done.
  - case_decide; [by apply sublist_cons | by apply sublist_skip].
Qed.

Lemma uniquePages_first_seen (seen : gset jsstring) (pages : list PageRef)
    (p : PageRef) :
  p ∈ uniquePages seen pages →
  file p ∉ seen ∧
  ∃ l1 l2, pages = l1 ++ p :: l2 ∧ file p ∉ file <$> l1.
Proof.
  revert seen. induction pages as [|page rest IH]; intros seen; simpl.
  - by intros ?%elem_of_nil.
  - case_decide as Hseen.
    + intros (Hp & l1 & l2 & -> & Hl1)%IH. split; [done |].
      exists (page :: l1), l2. split; [done |].
      rewrite fmap_cons, not_elem_of_cons. split; [congruence | done].
    + intros [-> | Hp]%elem_of_cons.
      * split; [done |]. exists [], rest. split; [done |].
        apply not_elem_of_nil.
      * apply IH in Hp as (Hp & l1 & l2 & -> & Hl1).
        split; [set_solver |]. exists (page :: l1), l2. split; [done |].
        rewrite fmap_cons, not_elem_of_cons. split; [set_solver | done].
Qed.

Lemma uniquePages_fresh (seen : gset jsstring) (pages : list PageRef) :
  NoDup (file <$> pages) → (∀ f, f ∈ file <$> pages → f ∉ seen) →
  uniquePages seen pages = pages.
Proof.
  revert seen. induction pages as [|page rest IH]; intros seen; [done |].
  rewrite fmap_cons. intros [Hp Hnd]%NoDup_cons Hseen. simpl.
  rewrite decide_False by (apply Hseen; left). f_equal.
  apply IH; [done |]. intros f Hf. specialize (Hseen f).
  rewrite elem_of_cons in Hseen. set_solver.
Qed.

Lemma uniquePages_length (pages : list PageRef) :
  length (uniquePages ∅ pages)
  = size (list_to_set (file <$> pages) : gset jsstring).
Proof.
  rewrite <- (length_fmap file).
  rewrite <- (size_list_to_set (C := gset jsstring))
    by apply uniquePages_NoDup_files.
  f_equal. apply set_eq. intros f.
  rewrite !elem_of_list_to_set, uniquePages_files. set_solver.
Qed.

(** ** The markup of the writers *)

Lemma markup_count_lines (ls : list jsstring) :
  markup_count (lines ls) = sum_list (markup_count <$> ls).
Proof. by apply markup_count_join. Qed.

Lemma markup_count_digits (s : jsstring) :
  Forall (λ c, is_digit c = true) s → markup_count s = 0.
Proof.
  intros Hs. apply markup_count_zero. eapply Forall_impl; [exact Hs |].
  intros c Hc. destruct (html_delimiter c) eqn:E; [exfalso | done].
  unfold html_delimiter in E. solve_class.
Qed.

(** Closed texts are counted by evaluation, the fields by the lemmas on
    [escapeXml]. *)
Ltac eval_markup :=
  repeat match goal with
  | |- context [markup_count ?s] =>
      let n := eval vm_compute in (markup_count s) in
      change (markup_count s) with n
  end.

Ltac count_markup :=
  repeat (rewrite markup_count_lines; cbn [fmap list_fmap sum_list]);
  unfold id;
  rewrite ?markup_count_app, ?markup_count_escapeXml,
    ?markup_count_escapeHtml.

Section WriterLemmas.
Context `{!UrlApi, !DateApi} (site : Site).

Lemma sitemapEntry_markup (page : PageRef) (entry : jsstring) :
  sitemapEntry site page = Ok entry → markup_count entry = 12.
Proof.
  unfold sitemapEntry. intros. inv_Ok. subst. count_markup. by eval_markup.
Qed.

Lemma sitemapEntries_inv (pages : list PageRef) (entries : list jsstring) :
  sitemapEntries site pages = Ok entries →
  Forall2 (λ page entry, sitemapEntry site page = Ok entry) pages entries.
Proof.
  revert entries. induction pages as [|page rest IH]; intros entries; simpl.
  - intros [= <-]. constructor.
  - intros. inv_Ok. subst. constructor; auto.
Qed.

Lemma sitemapEntries_total (pages : list PageRef) :
  Forall (λ page, is_Ok (sitemapEntry site page) = true) pages →
  is_Ok (sitemapEntries site pages) = true.
Proof.
  induction 1 as [|page rest Hp _ IH]; simpl; [done |].
  destruct (sitemapEntry site page); [| done].
  by destruct (sitemapEntries site rest).
Qed.

Lemma sitemapEntries_markup (pages : list PageRef) (entries : list jsstring) :
  sitemapEntries site pages = Ok entries →
  sum_list (markup_count <$> entries) = 12 * length pages.
Proof.
  revert entries.
  induction pages as [|page rest IH]; intros entries; cbn [sitemapEntries].
  - by intros [= <-].
  - intros. inv_Ok. subst. rewrite fmap_cons.
    change (sum_list (?a :: ?l)) with (a + sum_list l).
    erewrite sitemapEntry_markup, IH by done. cbn [length]. lia.
Qed.

Lemma utcOfString_markup (s : jsstring) :
  (∀ t, markup_count (toUTCString t) = 0) →
  markup_count (utcOfString s) = 0.
Proof. intros Hutc. unfold utcOfString. by destruct (dateOf _). Qed.

Lemma rssItem_markup (post : Post) :
  (∀ t, markup_count (toUTCString t) = 0) →
  markup_count (rssItem post) = 28.
Proof.
  intros Hutc. unfold rssItem. count_markup.
  rewrite utcOfString_markup by done. by eval_markup.
Qed.

Lemma rssItems_markup (posts : list Post) :
  (∀ t, markup_count (toUTCString t) = 0) →
  markup_count (rssItems posts) = 28 * Nat.min 20 (length posts).
Proof.
  intros Hutc. unfold rssItems. rewrite markup_count_join by done.
  rewrite <- list_fmap_compose.
  rewrite (sum_list_const 28), length_fmap; [unfold slice0 |].
  - by rewrite length_take.
  - apply Forall_fmap, Forall_forall. intros post _. by apply rssItem_markup.
Qed.

Lemma writeSitemap_Ok (pages : list PageRef) :
  Forall (λ page, is_Ok (sitemapEntry site page) = true) pages →
  is_Ok (writeSitemap site pages) = true.
Proof.
  intros Hok. unfold writeSitemap.
  assert (is_Ok (sitemapEntries site (uniquePages ∅ pages)) = true) as Hs.
  { apply sitemapEntries_total, Forall_forall. intros page Hp.
    rewrite Forall_forall in Hok. apply Hok.
    eapply elem_of_sublist; [exact Hp | apply uniquePages_sublist]. }
  by destruct (sitemapEntries _ _).
Qed.

End WriterLemmas.

(** ** Properties *)

(** C8: the list [writeSitemap] writes holds every file of [pages] once. *)
Theorem uniquePages_NoDup (pages : list PageRef) :
  NoDup (file <$> uniquePages ∅ pages) ∧
  ∀ f, f ∈ file <$> uniquePages ∅ pages ↔ f ∈ file <$> pages.
Proof.
  split; [apply uniquePages_NoDup_files |].
  intros f. rewrite uniquePages_files. set_solver.
Qed.

(** The pages kept are in the order of [pages], and the page kept for
    a file is the first of [pages] with that file: a later reference
    to the same file, with another modification date, is dropped. *)
Theorem uniquePages_first (pages : list PageRef) (p : PageRef) :
  uniquePages ∅ pages `sublist_of` pages ∧
  (p ∈ uniquePages ∅ pages →
   ∃ l1 l2, pages = l1 ++ p :: l2 ∧ file p ∉ file <$> l1).
Proof.
  split; [apply uniquePages_sublist |].
  by intros (_ & Hp)%uniquePages_first_seen.
Qed.

(** Pages with distinct files are all kept, in their order. *)
Theorem uniquePages_id (pages : list PageRef) :
  NoDup (file <$> pages) → uniquePages ∅ pages = pages.
Proof. intros Hnd. apply uniquePages_fresh; [done | set_solver]. Qed.

Section WriterProperties.
Context `{!UrlApi, !DateApi} (site : Site).

(** [writeSitemap] returns when the file of every page gives a URL
    and its modification date is a date. *)
Theorem writeSitemap_total (pages : list PageRef) :
  Forall (λ page, is_Ok (sitemapEntry site page) = true) pages →
  is_Ok (writeSitemap site pages) = true.
Proof. apply writeSitemap_Ok. Qed.

(** C26: the sitemap holds the markup of its frame and of one [url]
    element for each distinct file, whatever the files and the dates are:
    the delimiters of the text are the twelve of the frame and twelve for
    each distinct file. *)
Theorem writeSitemap_markup (pages : list PageRef) (content : jsstring) :
  writeSitemap site pages = Ok content →
  markup_count content
  = 12 + 12 * size (list_to_set (file <$> pages) : gset jsstring).
Proof.
  unfold writeSitemap. intros. inv_Ok. subst. count_markup.
  erewrite sitemapEntries_markup by done.
  rewrite uniquePages_length. eval_markup. lia.
Qed.

(** C25: the feed holds the markup of its frame and of one [item] element
    for each of the first twenty posts, whatever the posts say, when the
    date format has no delimiter: the fields of a post cannot add markup. *)
Theorem writeRss_markup (now : Z) (posts : list Post) (content : jsstring) :
  (∀ t, markup_count (toUTCString t) = 0) →
  writeRss site now posts = Ok content →
  markup_count content = 36 + 28 * Nat.min 20 (length posts).
Proof.
  intros Hutc. unfold writeRss. intros. inv_Ok. subst. count_markup.
  rewrite Hutc, rssItems_markup by done. eval_markup. lia.
Qed.

End WriterProperties.

(** ** Evaluation *)

Definition demo_pages : list PageRef :=
  [ {| file := js "/index.html"; lastmod := js "5" |};
    {| file := js "/posts/a.html"; lastmod := js "7" |};
    {| file := js "/index.html"; lastmod := js "9" |} ].

Definition demo_sitemap : jsstring :=
  match writeSitemap (H := simple_url) (H0 := ms_dates) demo_site demo_pages
  with Ok content => content | Err _ => [] end.

Definition demo_rss : jsstring :=
  match writeRss (H := simple_url) (H0 := ms_dates) demo_site 0 demo_posts
  with Ok content => content | Err _ => [] end.

Lemma ms_dates_markup (t : Z) :
  markup_count (toUTCString (DateApi := ms_dates) t) = 0.
Proof. apply markup_count_digits, decimal_digits. Qed.

Lemma uniquePages_first_witness :
  ∃ l1 l2,
    demo_pages = l1 ++ {| file := js "/index.html"; lastmod := js "5" |} :: l2
    ∧ js "/index.html" ∉ file <$> l1.
Proof.
  apply (proj2 (uniquePages_first demo_pages
                  {| file := js "/index.html"; lastmod := js "5" |})).
  vm_compute. left.
Defined.

Lemma uniquePages_id_witness :
  uniquePages ∅ (take 2 demo_pages) = take 2 demo_pages.
Proof.
  apply uniquePages_id. vm_compute.
  repeat constructor; set_solver.
Defined.

Lemma writeSitemap_total_witness :
  is_Ok (writeSitemap (H := simple_url) (H0 := ms_dates) demo_site demo_pages)
  = true.
Proof.
  apply (writeSitemap_total (H := simple_url) (H0 := ms_dates)).
  repeat constructor.
Defined.

Lemma writeSitemap_markup_witness : markup_count demo_sitemap = 36.
Proof.
  rewrite (writeSitemap_markup (H := simple_url) (H0 := ms_dates) demo_site
             demo_pages demo_sitemap) by (by vm_compute).
  by vm_compute.
Defined.

Lemma writeRss_markup_witness :
  markup_count demo_rss = 36 + 28 * Nat.min 20 (length demo_posts).
Proof.
  apply (writeRss_markup (H := simple_url) (H0 := ms_dates) demo_site 0).
  - apply ms_dates_markup.
  - by vm_compute.
Defined.
