(* ===== verification/Json.v ===== *)
(** * [JSON.stringify]

    The script serialises the structured data of a post with
    [JSON.stringify(payload)] and the search index and the tag map with
    [JSON.stringify(data, null, 2)].  The file holds the values the script
    serialises, the quoting of a string (ECMAScript QuoteJSONString), the
    two layouts, and [JSON.parse] on the values of the script, and proves
    what the quoting keeps and that the parser reads back what the
    indented layout wrote. *)

From Stdlib Require Import NArith ZArith Ascii String List Lia.
From stdpp Require Import base tactics numbers option list.
From S2P Require Import Prelude Runtime JsObject.

(** The values the script serialises: strings, arrays and objects with the
    properties in their order. *)
Inductive json : Type :=
  | JStr (s : jsstring)
  | JArr (items : list json)
  | JObj (fields : list (jsstring * json)).

(** ** Quoting *)

Definition hex_digit (d : N) : jschar :=
  if (d <? 10)%N then (48 + d)%N else (87 + d)%N.

(** [\uXXXX] with lowercase digits. *)
Definition unicode_escape (c : jschar) : jsstring :=
  [ 92%N; 117%N; hex_digit (c / 4096 mod 16); hex_digit (c / 256 mod 16);
    hex_digit (c / 16 mod 16); hex_digit (c mod 16) ].

Definition is_high_surrogate (c : jschar) : bool := in_range 55296 56319 c.
Definition is_low_surrogate (c : jschar) : bool := in_range 56320 57343 c.

(** A code unit that is not half of a surrogate pair. *)
Definition json_escape_unit (c : jschar) : jsstring :=
  if (c =? 8)%N then js "\b"
  else if (c =? 9)%N then js "\t"
  else if (c =? 10)%N then js "\n"
  else if (c =? 12)%N then js "\f"
  else if (c =? 13)%N then js "\r"
  else if (c =? 34)%N then [92%N; 34%N]
  else if (c =? 92)%N then [92%N; 92%N]
  else if (c <? 32)%N || is_high_surrogate c || is_low_surrogate c
  then unicode_escape c
  else [c].

(** A surrogate pair is kept; a lone surrogate is escaped. *)
Fixpoint json_escape (s : jsstring) : jsstring :=
  match s with
  | [] => []
  | c :: t =>
      match t with
      | d :: t' =>
          if is_high_surrogate c && is_low_surrogate d
          then c :: d :: json_escape t'
          else json_escape_unit c ++ json_escape t
      | [] => json_escape_unit c
      end
  end.

Definition json_quote (s : jsstring) : jsstring := quoted (json_escape s).

(** ** [JSON.stringify(value)] *)

Fixpoint json_stringify (j : json) : jsstring :=
  match j with
  | JStr s => json_quote s
  | JArr items => js "[" ++ join (js ",") (map json_stringify items) ++ js "]"
  | JObj fields =>
      js "{"
      ++ join (js ",")
           (map (λ field, json_quote field.1 ++ js ":" ++ json_stringify field.2)
              fields)
      ++ js "}"
  end.

(** ** [JSON.stringify(value, null, 2)] *)

Definition json_indent (depth : nat) : jsstring := replicate (2 * depth) 32%N.

(** The members of an array or an object, one on a line. *)
Definition json_block (opening closing : jsstring) (depth : nat)
    (members : list jsstring) : jsstring :=
  match members with
  | [] => opening ++ closing
  | _ =>
      opening ++ [newline]
      ++ join (js "," ++ [newline])
           (map (λ member, json_indent (S depth) ++ member) members)
      ++ [newline] ++ json_indent depth ++ closing
  end.

Fixpoint json_pretty (depth : nat) (j : json) : jsstring :=
  match j with
  | JStr s => json_quote s
  | JArr items =>
      json_block (js "[") (js "]") depth (map (json_pretty (S depth)) items)
  | JObj fields =>
      json_block (js "{") (js "}") depth
        (map (λ field,
                json_quote field.1 ++ js ": " ++ json_pretty (S depth) field.2)
           fields)
  end.

(** ** [JSON.parse]

    The browser reads the files back with [response.json()].  The parser
    below is [JSON.parse] on texts whose values are strings, arrays and
    objects, the values the script writes: white space between tokens,
    the escapes of a string, no trailing comma, nothing after the value.
    A number or a literal name is outside the values of [json] and gives
    [None], as a syntax error does.  The fuel bounds the nesting and the
    number of members; [json_parse] starts with more than the length of
    the text. *)

Definition is_json_space (c : jschar) : bool :=
  (c =? 32)%N || (c =? 9)%N || (c =? 10)%N || (c =? 13)%N.

Definition skip_space (s : jsstring) : jsstring := drop_while is_json_space s.

Definition hex_value (c : jschar) : option N :=
  if in_range 48 57 c then Some (c - 48)%N
  else if in_range 97 102 c then Some (c - 87)%N
  else if in_range 65 70 c then Some (c - 55)%N
  else None.

(** The code unit a one-letter escape stands for. *)
Definition unescape_char (c : jschar) : option jschar :=
  if (c =? 34)%N then Some 34%N
  else if (c =? 92)%N then Some 92%N
  else if (c =? 47)%N then Some 47%N
  else if (c =? 98)%N then Some 8%N
  else if (c =? 102)%N then Some 12%N
  else if (c =? 110)%N then Some 10%N
  else if (c =? 114)%N then Some 13%N
  else if (c =? 116)%N then Some 9%N
  else None.

(** The characters of a string after its opening quote, with the text
    that follows the closing quote. *)
Fixpoint parse_chars (s : jsstring) : option (jsstring * jsstring) :=
  match s with
  | [] => None
  | c :: t =>
      if (c =? 34)%N then Some ([], t)
      else if (c =? 92)%N then
        match t with
        | [] => None
        | e :: t1 =>
            if (e =? 117)%N then
              match t1 with
              | h1 :: h2 :: h3 :: h4 :: t2 =>
                  a ← hex_value h1; b ← hex_value h2;
                  c ← hex_value h3; d ← hex_value h4;
                  '(str, rest) ← parse_chars t2;
                  Some ((4096 * a + 256 * b + 16 * c + d)%N :: str, rest)
              | _ => None
              end
            else
              u ← unescape_char e;
              '(str, rest) ← parse_chars t1;
              Some (u :: str, rest)
        end
      else if (c <? 32)%N then None
      else '(str, rest) ← parse_chars t; Some (c :: str, rest)
  end.

Fixpoint parse_value (fuel : nat) (s : jsstring) : option (json * jsstring) :=
  match fuel with
  | 0 => None
  | S fuel =>
      match skip_space s with
      | [] => None
      | c :: t =>
          if (c =? 34)%N then
            '(str, rest) ← parse_chars t; Some (JStr str, rest)
          else if (c =? 91)%N then
            match skip_space t with
            | [] => None
            | d :: rest =>
                if (d =? 93)%N then Some (JArr [], rest)
                else '(items, rest) ← parse_items fuel t;
                     Some (JArr items, rest)
            end
          else if (c =? 123)%N then
            match skip_space t with
            | [] => None
            | d :: rest =>
                if (d =? 125)%N then Some (JObj [], rest)
                else '(fields, rest) ← parse_fields fuel t;
                     Some (JObj fields, rest)
            end
          else None
      end
  end
with parse_items (fuel : nat) (s : jsstring)
    : option (list json * jsstring) :=
  match fuel with
  | 0 => None
  | S fuel =>
      '(item, rest) ← parse_value fuel s;
      match skip_space rest with
      | [] => None
      | c :: t =>
          if (c =? 44)%N then
            '(items, rest) ← parse_items fuel t; Some (item :: items, rest)
          else if (c =? 93)%N then Some ([item], t)
          else None
      end
  end
with parse_fields (fuel : nat) (s : jsstring)
    : option (list (jsstring * json) * jsstring) :=
  match fuel with
  | 0 => None
  | S fuel =>
      match skip_space s with
      | [] => None
      | c :: t =>
          if (c =? 34)%N then
            '(key, rest) ← parse_chars t;
            match skip_space rest with
            | [] => None
            | d :: t =>
                if (d =? 58)%N then
                  '(value, rest) ← parse_value fuel t;
                  match skip_space rest with
                  | [] => None
                  | e :: t =>
                      if (e =? 44)%N then
                        '(fields, rest) ← parse_fields fuel t;
                        Some ((key, value) :: fields, rest)
                      else if (e =? 125)%N then Some ([(key, value)], t)
                      else None
                  end
                else None
            end
          else None
      end
  end.

Definition json_parse (text : jsstring) : option json :=
  '(value, rest) ← parse_value (S (length text)) text;
  if nonempty (skip_space rest) then None else Some value.

(** [Object.keys(value)] on a value [JSON.parse] returned: the names of an
    object in property order, the indices of an array or of a string. *)
Definition json_keys (j : json) : list jsstring :=
  match j with
  | JObj fields => obj_keys (obj_fromEntries fields)
  | JArr items => map (λ i, decimal (N.of_nat i)) (seq 0 (length items))
  | JStr s => map (λ i, decimal (N.of_nat i)) (seq 0 (length s))
  end.

(** ** Specification *)

(** The code units quoting leaves as they are. *)
Definition json_plain (c : jschar) : bool :=
  (32 <=? c)%N && negb (c =? 34)%N && negb (c =? 92)%N
  && negb (is_high_surrogate c) && negb (is_low_surrogate c).

Lemma json_plain_inv (c : jschar) :
  json_plain c = true →
  (32 ≤ c)%N ∧ c ≠ 34%N ∧ c ≠ 92%N ∧
  is_high_surrogate c = false ∧ is_low_surrogate c = false.
Proof.
  unfold json_plain. intros Hc.
  repeat (apply andb_true_iff in Hc as [Hc ?]).
  repeat match goal with
         | H : negb _ = true |- _ => apply negb_true_iff in H
         end.
  apply N.leb_le in Hc. apply N.eqb_neq in H1, H2. done.
Qed.

Lemma json_escape_unit_plain (c : jschar) :
  json_plain c = true → json_escape_unit c = [c].
Proof.
  intros (Hc & H34 & H92 & Hhi & Hlo)%json_plain_inv.
  unfold json_escape_unit. rewrite Hhi, Hlo.
  repeat case_N_eqb; try done; try lia.
  by rewrite (proj2 (N.ltb_ge c 32)) by lia.
Qed.

Lemma json_escape_cons_plain (c : jschar) (s : jsstring) :
  json_plain c = true → json_escape (c :: s) = c :: json_escape s.
Proof.
  intros Hc. cbn [json_escape]. rewrite (json_escape_unit_plain c Hc).
  destruct s as [|d t]; [done |].
  apply json_plain_inv in Hc as (_ & _ & _ & -> & _). done.
Qed.

Lemma json_escape_plain (s : jsstring) :
  Forall (λ c, json_plain c = true) s → json_escape s = s.
Proof.
  induction 1 as [|c s Hc _ IH]; [done |].
  by rewrite json_escape_cons_plain, IH.
Qed.

(** ** Reading back what was written *)

Lemma hex_value_digit (d : N) : (d < 16)%N → hex_value (hex_digit d) = Some d.
Proof.
  intros Hd. unfold hex_value, hex_digit, in_range.
  destruct (N.ltb_spec d 10).
  - rewrite (proj2 (N.leb_le 48 (48 + d))), (proj2 (N.leb_le (48 + d) 57)) by lia.
    simpl. f_equal. lia.
  - rewrite (proj2 (N.leb_gt (87 + d) 57)) by lia. rewrite andb_false_r.
    rewrite (proj2 (N.leb_le 97 (87 + d))), (proj2 (N.leb_le (87 + d) 102)) by lia.
    simpl. f_equal. lia.
Qed.

Lemma nibbles (c : N) :
  (c < 65536)%N →
  (4096 * (c / 4096 mod 16) + 256 * (c / 256 mod 16) + 16 * (c / 16 mod 16)
   + c mod 16)%N = c.
Proof. intros Hc. zify. Z.to_euclidean_division_equations. lia. Qed.

Lemma parse_chars_unicode (c : jschar) (tail : jsstring) :
  (c < 65536)%N →
  parse_chars (unicode_escape c ++ tail) =
    '(str, rest) ← parse_chars tail; Some (c :: str, rest).
Proof.
  intros Hc. unfold unicode_escape. cbn [app parse_chars N.eqb Pos.eqb].
  rewrite !hex_value_digit by (apply N.mod_lt; lia).
  cbn [mbind option_bind]. by rewrite nibbles.
Qed.

Ltac solve_units :=
  unfold is_high_surrogate, is_low_surrogate in *; unfold_classes;
  bool_to_prop;
  repeat match goal with
  | H : (_ <? _)%N = true |- _ => apply N.ltb_lt in H
  | H : (_ <? _)%N = false |- _ => apply N.ltb_ge in H
  end; try lia.

Lemma parse_chars_plain (c : jschar) (tail : jsstring) :
  c ≠ 34%N → c ≠ 92%N → (32 ≤ c)%N →
  parse_chars (c :: tail) = '(str, rest) ← parse_chars tail; Some (c :: str, rest).
Proof.
  intros H34 H92 H32. cbn [parse_chars].
  rewrite (proj2 (N.eqb_neq c 34)), (proj2 (N.eqb_neq c 92)) by done.
  by rewrite (proj2 (N.ltb_ge c 32)) by done.
Qed.

Lemma parse_chars_unit (c : jschar) (tail : jsstring) :
  parse_chars (json_escape_unit c ++ tail) =
    '(str, rest) ← parse_chars tail; Some (c :: str, rest).
Proof.
  unfold json_escape_unit. repeat case_N_eqb; try done.
  destruct ((c <? 32)%N || is_high_surrogate c || is_low_surrogate c) eqn:E.
  - apply parse_chars_unicode. solve_units.
  - apply parse_chars_plain; solve_units.
Qed.

Lemma json_escape_pair (c d : jschar) (t : jsstring) :
  json_escape (c :: d :: t) =
    if is_high_surrogate c && is_low_surrogate d
    then c :: d :: json_escape t
    else json_escape_unit c ++ json_escape (d :: t).
Proof. done. Qed.

Lemma parse_chars_escape (s rest : jsstring) :
  parse_chars (json_escape s ++ 34%N :: rest) = Some (s, rest).
Proof.
  induction s as [s IH] using (induction_ltof1 _ length). unfold ltof in IH.
  destruct s as [|c [|d t]]; [done | |].
  - cbn [json_escape]. by rewrite parse_chars_unit.
  - rewrite json_escape_pair.
    destruct (is_high_surrogate c && is_low_surrogate d) eqn:E.
    + cbn [app]. rewrite !parse_chars_plain by solve_units.
      rewrite (IH t) by (simpl; lia). done.
    + rewrite <- app_assoc, parse_chars_unit, (IH (d :: t)) by (simpl; lia). done.
Qed.

Lemma json_quote_app (s rest : jsstring) :
  json_quote s ++ rest = 34%N :: json_escape s ++ 34%N :: rest.
Proof. unfold json_quote, quoted. by rewrite <- app_comm_cons, <- app_assoc. Qed.

Lemma parse_chars_quote (s rest : jsstring) :
  parse_chars (tail (json_quote s) ++ rest) = Some (s, rest).
Proof.
  unfold json_quote, quoted. cbn [tail]. rewrite <- app_assoc.
  apply parse_chars_escape.
Qed.

(** White space between tokens. *)
Definition json_space (ws : jsstring) : Prop :=
  Forall (λ c, is_json_space c = true) ws.

Lemma skip_space_app (ws s : jsstring) :
  json_space ws → skip_space (ws ++ s) = skip_space s.
Proof. apply drop_while_app. Qed.

Lemma skip_space_token (c : jschar) (t : jsstring) :
  is_json_space c = false → skip_space (c :: t) = c :: t.
Proof. apply drop_while_id. Qed.

Lemma json_indent_space (depth : nat) : json_space (json_indent depth).
Proof. by apply Forall_replicate. Qed.

Lemma parse_value_S (fuel : nat) (s : jsstring) :
  parse_value (S fuel) s =
    match skip_space s with
    | [] => None
    | c :: t =>
        if (c =? 34)%N then
          '(str, rest) ← parse_chars t; Some (JStr str, rest)
        else if (c =? 91)%N then
          match skip_space t with
          | [] => None
          | d :: rest =>
              if (d =? 93)%N then Some (JArr [], rest)
              else '(items, rest) ← parse_items fuel t;
                   Some (JArr items, rest)
          end
        else if (c =? 123)%N then
          match skip_space t with
          | [] => None
          | d :: rest =>
              if (d =? 125)%N then Some (JObj [], rest)
              else '(fields, rest) ← parse_fields fuel t;
                   Some (JObj fields, rest)
          end
        else None
    end.
Proof. done. Qed.

Lemma parse_items_S (fuel : nat) (s : jsstring) :
  parse_items (S fuel) s =
    '(item, rest) ← parse_value fuel s;
    match skip_space rest with
    | [] => None
    | c :: t =>
        if (c =? 44)%N then
          '(items, rest) ← parse_items fuel t; Some (item :: items, rest)
        else if (c =? 93)%N then Some ([item], t)
        else None
    end.
Proof. done. Qed.

Lemma parse_fields_S (fuel : nat) (s : jsstring) :
  parse_fields (S fuel) s =
    match skip_space s with
    | [] => None
    | c :: t =>
        if (c =? 34)%N then
          '(key, rest) ← parse_chars t;
          match skip_space rest with
          | [] => None
          | d :: t =>
              if (d =? 58)%N then
                '(value, rest) ← parse_value fuel t;
                match skip_space rest with
                | [] => None
                | e :: t =>
                    if (e =? 44)%N then
                      '(fields, rest) ← parse_fields fuel t;
                      Some ((key, value) :: fields, rest)
                    else if (e =? 125)%N then Some ([(key, value)], t)
                    else None
                end
              else None
          end
        else None
    end.
Proof. done. Qed.

Lemma parse_value_space (fuel : nat) (ws s : jsstring) :
  json_space ws → parse_value fuel (ws ++ s) = parse_value fuel s.
Proof.
  intros Hws. destruct fuel; [done |].
  by rewrite !parse_value_S, skip_space_app.
Qed.

Lemma parse_items_space (fuel : nat) (ws s : jsstring) :
  json_space ws → parse_items fuel (ws ++ s) = parse_items fuel s.
Proof.
  intros Hws. destruct fuel; [done |].
  by rewrite !parse_items_S, parse_value_space.
Qed.

Lemma parse_fields_space (fuel : nat) (ws s : jsstring) :
  json_space ws → parse_fields fuel (ws ++ s) = parse_fields fuel s.
Proof.
  intros Hws. destruct fuel; [done |].
  by rewrite !parse_fields_S, skip_space_app.
Qed.

Lemma parse_value_skip (fuel : nat) (c : jschar) (s : jsstring) :
  is_json_space c = true → parse_value fuel (c :: s) = parse_value fuel s.
Proof. intros Hc. apply (parse_value_space fuel [c]). by constructor. Qed.

Lemma parse_items_skip (fuel : nat) (c : jschar) (s : jsstring) :
  is_json_space c = true → parse_items fuel (c :: s) = parse_items fuel s.
Proof. intros Hc. apply (parse_items_space fuel [c]). by constructor. Qed.

Lemma parse_fields_skip (fuel : nat) (c : jschar) (s : jsstring) :
  is_json_space c = true → parse_fields fuel (c :: s) = parse_fields fuel s.
Proof. intros Hc. apply (parse_fields_space fuel [c]). by constructor. Qed.

(** A printed value starts with a quote, a bracket or a brace. *)
Definition opens (text : jsstring) : Prop :=
  ∃ c t, text = c :: t ∧ (c = 34 ∨ c = 91 ∨ c = 123)%N.

Lemma json_quote_opens (s rest : jsstring) : opens (json_quote s ++ rest).
Proof. eexists _, _. split; [done |]. by left. Qed.

Lemma json_block_opens (opening closing : jsstring) (depth : nat)
    (members : list jsstring) :
  opens opening → opens (json_block opening closing depth members).
Proof.
  intros (c & t & -> & Hc). unfold json_block.
  destruct members; by eexists _, _.
Qed.

Lemma json_pretty_opens (depth : nat) (j : json) : opens (json_pretty depth j).
Proof.
  destruct j; cbn [json_pretty].
  - rewrite <- (app_nil_r (json_quote s)). apply json_quote_opens.
  - apply json_block_opens. eexists _, _. split; [done |]. by right; left.
  - apply json_block_opens. eexists _, _. split; [done |]. by right; right.
Qed.

Lemma opens_app (text rest : jsstring) : opens text → opens (text ++ rest).
Proof. intros (c & t & -> & Hc). by eexists _, _. Qed.

Lemma skip_space_opens (ws text : jsstring) :
  json_space ws → opens text →
  ∃ c t, skip_space (ws ++ text) = c :: t ∧ c ≠ 93%N ∧ c ≠ 125%N.
Proof.
  intros Hws (c & t & -> & Hc). exists c, t.
  rewrite skip_space_app by done.
  destruct Hc as [-> | [-> | ->]]; by rewrite skip_space_token.
Qed.


(** The members of a block as [json_block] lays them out. *)
Definition member_sep : jsstring := js "," ++ [newline].

Definition indented (depth : nat) (members : list jsstring) : jsstring :=
  join member_sep (map (λ member, json_indent (S depth) ++ member) members).

Lemma json_block_text (opening closing : jsstring) (depth : nat)
    (member : jsstring) (members : list jsstring) (rest : jsstring) :
  json_block opening closing depth (member :: members) ++ rest =
    opening ++ newline :: indented depth (member :: members)
    ++ (newline :: json_indent depth) ++ closing ++ rest.
Proof.
  cbv [json_block indented member_sep]. by rewrite <- !app_assoc.
Qed.

Lemma indented_length (opening closing : jsstring) (depth : nat)
    (member : jsstring) (members : list jsstring) :
  length (indented depth (member :: members)) + 2
  ≤ length (json_block opening closing depth (member :: members)).
Proof.
  rewrite <- (app_nil_r (json_block _ _ _ _)), json_block_text.
  repeat (rewrite !length_app; cbn [length]). lia.
Qed.

Lemma indented_one (depth : nat) (member : jsstring) :
  indented depth [member] = json_indent (S depth) ++ member.
Proof. done. Qed.

Lemma indented_cons (depth : nat) (m1 m2 : jsstring) (members : list jsstring) :
  indented depth (m1 :: m2 :: members) =
    json_indent (S depth) ++ m1 ++ 44%N :: newline
    :: indented depth (m2 :: members).
Proof. unfold indented. cbn [map join]. by rewrite <- !app_assoc. Qed.

(** A property of an object: the quoted name, a colon, a space and the
    value. *)
Definition fieldText (depth : nat) (field : jsstring * json) : jsstring :=
  json_quote field.1 ++ js ": " ++ json_pretty depth field.2.


Lemma json_pretty_JObj (depth : nat) (fields : list (jsstring * json)) :
  json_pretty depth (JObj fields) =
    json_block (js "{") (js "}") depth (map (fieldText (S depth)) fields).
Proof. done. Qed.

Lemma json_pretty_JArr (depth : nat) (items : list json) :
  json_pretty depth (JArr items) =
    json_block (js "[") (js "]") depth (map (json_pretty (S depth)) items).
Proof. done. Qed.

Lemma indented_opens (depth : nat) (member : jsstring)
    (members : list jsstring) (rest : jsstring) :
  opens member →
  ∃ c t, skip_space (newline :: indented depth (member :: members) ++ rest)
         = c :: t ∧ c ≠ 93%N ∧ c ≠ 125%N.
Proof.
  intros Hm.
  assert (∃ r, indented depth (member :: members)
               = json_indent (S depth) ++ member ++ r) as [r ->].
  { destruct members; [exists [] | eexists].
    - by rewrite indented_one, app_nil_r.
    - by rewrite indented_cons. }
  rewrite <- !app_assoc.
  apply (skip_space_opens (newline :: json_indent (S depth))).
  - constructor; [done | apply json_indent_space].
  - by apply opens_app.
Qed.

Section Members.
Context (fuel : nat).
Context (IH : ∀ f j depth rest, f < fuel →
  length (json_pretty depth j) ≤ f →
  parse_value f (json_pretty depth j ++ rest) = Some (j, rest)).

Lemma parse_items_pretty (depth : nat) (items : list json)
    (ws rest : jsstring) (f : nat) :
  items ≠ [] → f ≤ fuel → json_space ws →
  length (indented depth (map (json_pretty (S depth)) items)) < f →
  parse_items f
    (indented depth (map (json_pretty (S depth)) items) ++ ws ++ 93%N :: rest)
  = Some (items, rest).
Proof.
  intros Hne Hf Hws. revert f Hf.
  induction items as [|item [|item2 items] IHitems]; [done | |];
    intros [|f] Hf Hlen; try (by inversion Hlen); cbn [map] in *.
  - rewrite indented_one in *. rewrite length_app in Hlen.
    rewrite parse_items_S, <- app_assoc.
    rewrite parse_value_space by apply json_indent_space.
    rewrite IH by lia. cbn [mbind option_bind].
    by rewrite skip_space_app, skip_space_token.
  - rewrite indented_cons in *. rewrite !length_app in Hlen.
    rewrite parse_items_S, <- !app_assoc.
    rewrite parse_value_space by apply json_indent_space.
    rewrite IH by lia. cbn [mbind option_bind].
    rewrite <- !app_comm_cons, skip_space_token by done. cbn [N.eqb Pos.eqb].
    rewrite parse_items_skip by done.
    rewrite IHitems; [done | done | lia |]. cbn [length] in Hlen. lia.
Qed.

Lemma parse_field_pretty (depth : nat) (field : jsstring * json)
    (tail : jsstring) (f : nat) :
  f < fuel → length (fieldText (S depth) field) ≤ f →
  parse_fields (S f) (json_indent (S depth) ++ fieldText (S depth) field ++ tail)
  = match skip_space tail with
    | [] => None
    | e :: t =>
        if (e =? 44)%N then
          '(fields, rest) ← parse_fields f t; Some (field :: fields, rest)
        else if (e =? 125)%N then Some ([field], t)
        else None
    end.
Proof.
  intros Hf Hlen. destruct field as [key value]. unfold fieldText in *.
  cbn [fst snd] in *. rewrite !length_app in Hlen.
  rewrite parse_fields_S, skip_space_app by apply json_indent_space.
  rewrite <- !app_assoc, json_quote_app.
  rewrite skip_space_token by done. cbn [N.eqb Pos.eqb].
  rewrite parse_chars_escape. cbn [mbind option_bind].
  change (js ": " ++ ?x) with (58%N :: 32%N :: x).
  rewrite skip_space_token by done. cbn [N.eqb Pos.eqb].
  rewrite parse_value_skip by done. rewrite IH by lia. done.
Qed.

Lemma parse_fields_pretty (depth : nat) (fields : list (jsstring * json))
    (ws rest : jsstring) (f : nat) :
  fields ≠ [] → f ≤ fuel → json_space ws →
  length (indented depth (map (fieldText (S depth)) fields)) < f →
  parse_fields f
    (indented depth (map (fieldText (S depth)) fields) ++ ws ++ 125%N :: rest)
  = Some (fields, rest).
Proof.
  intros Hne Hf Hws. revert f Hf.
  induction fields as [|field [|field2 fields] IHfields]; [done | |];
    intros [|f] Hf Hlen; try (by inversion Hlen); cbn [map] in *.
  - rewrite indented_one in *. rewrite length_app in Hlen.
    rewrite <- app_assoc, parse_field_pretty by lia.
    by rewrite skip_space_app, skip_space_token.
  - rewrite indented_cons in *. rewrite !length_app in Hlen.
    rewrite <- !app_assoc, parse_field_pretty by lia.
    rewrite <- !app_comm_cons, skip_space_token by done. cbn [N.eqb Pos.eqb].
    rewrite parse_fields_skip by done.
    rewrite IHfields; [done | done | lia |]. cbn [length] in Hlen. lia.
Qed.

Lemma parse_array_pretty (depth : nat) (items : list json)
    (rest : jsstring) (f : nat) :
  S f ≤ fuel → length (json_pretty depth (JArr items)) ≤ S f →
  parse_value (S f) (json_pretty depth (JArr items) ++ rest)
  = Some (JArr items, rest).
Proof.
  intros Hf Hlen. rewrite parse_value_S, json_pretty_JArr in *.
  destruct items as [|item items]; [done |]. cbn [map] in *.
  pose proof (indented_length (js "[") (js "]") depth
                (json_pretty (S depth) item)
                (map (json_pretty (S depth)) items)) as Hind.
  rewrite json_block_text. change (js "[" ++ ?x) with (91%N :: x).
  rewrite skip_space_token by done. cbn [N.eqb Pos.eqb].
  destruct (indented_opens depth (json_pretty (S depth) item)
              (map (json_pretty (S depth)) items)
              ((newline :: json_indent depth) ++ js "]" ++ rest)
              (json_pretty_opens _ _)) as (c & t & -> & Hc & _).
  rewrite (proj2 (N.eqb_neq c 93)) by done.
  rewrite parse_items_skip by done.
  change (js "]" ++ rest) with (93%N :: rest).
  rewrite (parse_items_pretty depth (item :: items)); try done.
  - lia.
  - constructor; [done | apply json_indent_space].
  - cbn [map]. lia.
Qed.

Lemma parse_object_pretty (depth : nat) (fields : list (jsstring * json))
    (rest : jsstring) (f : nat) :
  S f ≤ fuel → length (json_pretty depth (JObj fields)) ≤ S f →
  parse_value (S f) (json_pretty depth (JObj fields) ++ rest)
  = Some (JObj fields, rest).
Proof.
  intros Hf Hlen. rewrite parse_value_S, json_pretty_JObj in *.
  destruct fields as [|field fields]; [done |]. cbn [map] in *.
  pose proof (indented_length (js "{") (js "}") depth
                (fieldText (S depth) field)
                (map (fieldText (S depth)) fields)) as Hind.
  rewrite json_block_text. change (js "{" ++ ?x) with (123%N :: x).
  rewrite skip_space_token by done. cbn [N.eqb Pos.eqb].
  destruct (indented_opens depth (fieldText (S depth) field)
              (map (fieldText (S depth)) fields)
              ((newline :: json_indent depth) ++ js "}" ++ rest)
              (json_quote_opens _ _)) as (c & t & -> & _ & Hc).
  rewrite (proj2 (N.eqb_neq c 125)) by done.
  rewrite parse_fields_skip by done.
  change (js "}" ++ rest) with (125%N :: rest).
  rewrite (parse_fields_pretty depth (field :: fields)); try done.
  - lia.
  - constructor; [done | apply json_indent_space].
  - cbn [map]. lia.
Qed.

End Members.

(** With fuel for the length of its text a printed value is read back,
    whatever follows it. *)
Lemma parse_value_pretty (fuel : nat) :
  ∀ (j : json) (depth : nat) (rest : jsstring),
    length (json_pretty depth j) ≤ fuel →
    parse_value fuel (json_pretty depth j ++ rest) = Some (j, rest).
Proof.
  induction fuel as [fuel IH] using lt_wf_ind.
  intros j depth rest Hlen.
  assert (∀ f j depth rest, f < fuel → length (json_pretty depth j) ≤ f →
          parse_value f (json_pretty depth j ++ rest) = Some (j, rest))
    as IH' by (intros; by apply IH).
  destruct fuel as [|fuel].
  { destruct (json_pretty_opens depth j) as (c & t & E & _).
    rewrite E in Hlen. by inversion Hlen. }
  destruct j as [s | items | fields].
  - rewrite parse_value_S. cbn [json_pretty]. rewrite json_quote_app.
    rewrite skip_space_token by done. cbn [N.eqb Pos.eqb].
    by rewrite parse_chars_escape.
  - by apply (parse_array_pretty (S fuel) IH').
  - by apply (parse_object_pretty (S fuel) IH').
Qed.

(** What [writeJson] wrote is read back. *)
Lemma json_parse_written (j : json) : json_parse (json_pretty 0 j) = Some j.
Proof.
  unfold json_parse.
  rewrite <- (app_nil_r (json_pretty 0 j)) at 2.
  by rewrite parse_value_pretty by lia.
Qed.

(** C13: [JSON.parse] reads back the value [JSON.stringify(value, null, 2)]
    wrote, at any depth of indentation and with white space around the
    text, whatever the strings hold: quotes, backslashes, control
    characters, lone surrogates. *)
Theorem json_parse_pretty (j : json) (depth : nat) (before after : jsstring) :
  json_space before → json_space after →
  json_parse (before ++ json_pretty depth j ++ after) = Some j.
Proof.
  intros Hb Ha. unfold json_parse.
  rewrite parse_value_space by done.
  rewrite parse_value_pretty by (rewrite !length_app; lia).
  cbn [mbind option_bind]. unfold skip_space.
  by rewrite drop_while_all.
Qed.

(** ** Evaluation *)

Definition demo_json : json :=
  JObj [ (js "a" ++ [dquote] ++ js "b\",
          JArr [JStr (js "x"); JStr [10%N; 55357%N; 8%N]; JArr []]);
         (js "10", JObj []) ].

Lemma json_parse_pretty_witness :
  json_parse ([32%N] ++ json_pretty 1 demo_json ++ [newline]) = Some demo_json.
Proof.
  apply (json_parse_pretty demo_json 1 [32%N] [newline]);
    by repeat constructor.
Defined.
