(* ===== verification/Pages.v ===== *)
(** * The cards and the page builders

    [renderArticleCard], [renderRelatedCard], [buildPostStructuredData] and
    the six page builders of [src/scripts/build.js].  A builder renders the
    template of the page, then the base layout around it, and returns the
    HTML the pipeline minifies and writes; the exception of a URL
    constructor is a value of [build_error].  The texts of the template
    literals are those of the script, code unit by code unit.  The file
    proves which markup a card holds whatever the post says, where the text
    of a post reaches a page without being escaped, and when a builder
    returns. *)

From Stdlib Require Import NArith ZArith Ascii String List Lia.
From stdpp Require Import base tactics numbers option list sets.
From S2P Require Import Prelude Runtime JsObject Escape Slug Url Markup Posts.
From S2P Require Import Related Tags Template Feeds Json.

(** The templates [loadTemplates] reads, by name. *)
Record Templates : Type := {
  t_base : jsstring;
  t_index : jsstring;
  t_blog : jsstring;
  t_post : jsstring;
  t_projects : jsstring;
  t_about : jsstring;
  t_tag : jsstring
}.

(** An entry of [projectCards]. *)
Record Project : Type := {
  projectTitle : jsstring;
  projectStack : jsstring;
  projectDescription : jsstring;
  projectUrl : jsstring;
  projectGithub : jsstring
}.

Section Pages.
Context `{!Prototype, !UrlApi, !Unicode} (site : Site) (templates : Templates).

(** ** Cards *)

(** [post.tagSlugs[tag]] in a template literal. *)
Definition tagSlugText (post : Post) (tag : jsstring) : jsstring :=
  match obj_read tag (tagSlugs post) with
  | Own tagSlug => tagSlug
  | Inherited => protoText tag
  | Missing => js "undefined"
  end.

Definition tagLink (post : Post) (tag : jsstring) : jsstring :=
  js "<a class=" ++ [dquote] ++ js "tag-link" ++ [dquote] ++ js " href="
  ++ [dquote]
  ++ toPublicUrl site (VStr (js "/tags/" ++ tagSlugText post tag ++ js ".html"))
  ++ [dquote] ++ js ">#" ++ escapeHtml tag ++ js "</a>".

Definition tagLinks (post : Post) : jsstring :=
  join [] (map (tagLink post) (tags post)).

Definition renderArticleCard (post : Post) : jsstring :=
  [newline] ++ js "    <article class=" ++ [dquote] ++ js "article-card"
  ++ [dquote] ++ js ">" ++ [newline] ++ js "      <img class=" ++ [dquote]
  ++ js "card-cover" ++ [dquote] ++ js " src=" ++ [dquote]
  ++ escapeHtml (coverImage post) ++ [dquote] ++ js " alt=" ++ [dquote]
  ++ js "Capa de " ++ escapeHtml (title post) ++ [dquote] ++ js " loading="
  ++ [dquote] ++ js "lazy" ++ [dquote] ++ js ">" ++ [newline]
  ++ js "      <div class=" ++ [dquote] ++ js "card-body" ++ [dquote]
  ++ js ">" ++ [newline] ++ js "        <p class=" ++ [dquote]
  ++ js "card-meta" ++ [dquote] ++ js ">" ++ escapeHtml (category post)
  ++ js " " ++ [183%N] ++ js " " ++ escapeHtml (formattedDate post)
  ++ js "</p>" ++ [newline] ++ js "        <h2 class=" ++ [dquote]
  ++ js "card-title" ++ [dquote] ++ js "><a href=" ++ [dquote]
  ++ escapeHtml (url post) ++ [dquote] ++ js ">" ++ escapeHtml (title post)
  ++ js "</a></h2>" ++ [newline] ++ js "        <p class=" ++ [dquote]
  ++ js "card-summary" ++ [dquote] ++ js ">" ++ escapeHtml (summary post)
  ++ js "</p>" ++ [newline] ++ js "        <div class=" ++ [dquote]
  ++ js "tags-row" ++ [dquote] ++ js ">" ++ tagLinks post ++ js "</div>"
  ++ [newline] ++ js "      </div>" ++ [newline] ++ js "    </article>"
  ++ [newline] ++ js "  ".

Definition renderRelatedCard (post : Post) : jsstring :=
  [newline] ++ js "    <article class=" ++ [dquote] ++ js "related-card"
  ++ [dquote] ++ js ">" ++ [newline] ++ js "      <p class=" ++ [dquote]
  ++ js "card-meta" ++ [dquote] ++ js ">" ++ escapeHtml (category post)
  ++ js "</p>" ++ [newline] ++ js "      <h3><a href=" ++ [dquote]
  ++ escapeHtml (url post) ++ [dquote] ++ js ">" ++ escapeHtml (title post)
  ++ js "</a></h3>" ++ [newline] ++ js "      <p>"
  ++ escapeHtml (summary post) ++ js "</p>" ++ [newline]
  ++ js "    </article>" ++ [newline] ++ js "  ".

(** The card of an entry of a tag page. *)
Definition renderTagCard (entry : TagEntry) : jsstring :=
  [newline] ++ js "        <article class=" ++ [dquote] ++ js "article-card"
  ++ [dquote] ++ js ">" ++ [newline] ++ js "          <img class=" ++ [dquote]
  ++ js "card-cover" ++ [dquote] ++ js " src=" ++ [dquote]
  ++ escapeHtml (entryCoverImage entry) ++ [dquote] ++ js " alt=" ++ [dquote]
  ++ js "Capa de " ++ escapeHtml (entryTitle entry) ++ [dquote]
  ++ js " loading=" ++ [dquote] ++ js "lazy" ++ [dquote] ++ js ">"
  ++ [newline] ++ js "          <div class=" ++ [dquote] ++ js "card-body"
  ++ [dquote] ++ js ">" ++ [newline] ++ js "            <p class=" ++ [dquote]
  ++ js "card-meta" ++ [dquote] ++ js ">" ++ escapeHtml (entryCategory entry)
  ++ js " " ++ [183%N] ++ js " " ++ escapeHtml (entryDate entry) ++ js "</p>"
  ++ [newline] ++ js "            <h2 class=" ++ [dquote] ++ js "card-title"
  ++ [dquote] ++ js "><a href=" ++ [dquote] ++ escapeHtml (entryUrl entry)
  ++ [dquote] ++ js ">" ++ escapeHtml (entryTitle entry) ++ js "</a></h2>"
  ++ [newline] ++ js "            <p class=" ++ [dquote] ++ js "card-summary"
  ++ [dquote] ++ js ">" ++ escapeHtml (entrySummary entry) ++ js "</p>"
  ++ [newline] ++ js "          </div>" ++ [newline]
  ++ js "        </article>" ++ [newline] ++ js "      ".

Definition renderProjectCard (project : Project) : jsstring :=
  [newline] ++ js "      <article class=" ++ [dquote] ++ js "project-card"
  ++ [dquote] ++ js ">" ++ [newline] ++ js "        <h2>"
  ++ escapeHtml (projectTitle project) ++ js "</h2>" ++ [newline]
  ++ js "        <p class=" ++ [dquote] ++ js "project-stack" ++ [dquote]
  ++ js ">" ++ escapeHtml (projectStack project) ++ js "</p>" ++ [newline]
  ++ js "        <p>" ++ escapeHtml (projectDescription project) ++ js "</p>"
  ++ [newline] ++ js "        <p><a href=" ++ [dquote]
  ++ escapeHtml (projectUrl project) ++ [dquote] ++ js " target=" ++ [dquote]
  ++ js "_blank" ++ [dquote] ++ js " rel=" ++ [dquote]
  ++ js "noopener noreferrer" ++ [dquote] ++ js ">Abrir projeto</a> "
  ++ [183%N] ++ js " <a href=" ++ [dquote]
  ++ escapeHtml (projectGithub project) ++ [dquote] ++ js " target="
  ++ [dquote] ++ js "_blank" ++ [dquote] ++ js " rel=" ++ [dquote]
  ++ js "noopener noreferrer" ++ [dquote] ++ js ">GitHub</a></p>" ++ [newline]
  ++ js "      </article>" ++ [newline] ++ js "    ".

(** ** Structured data *)

Definition postPayload (post : Post) : json :=
  JObj
    [ (js "@context", JStr (js "https://schema.org"));
      (js "@type", JStr (js "BlogPosting"));
      (js "headline", JStr (title post));
      (js "description", JStr (summary post));
      (js "image", JStr (coverImageAbsolute post));
      (js "author",
        JObj [(js "@type", JStr (js "Person")); (js "name", JStr (siteName site))]);
      (js "publisher",
        JObj [ (js "@type", JStr (js "Organization"));
               (js "name", JStr (siteName site)) ]);
      (js "mainEntityOfPage", JStr (absoluteUrl post));
      (js "datePublished", JStr (isoDate post));
      (js "dateModified", JStr (isoDate post)) ].

Definition buildPostStructuredData (post : Post) : jsstring :=
  js "<script type=" ++ [dquote] ++ js "application/ld+json" ++ [dquote]
  ++ js ">" ++ json_stringify (postPayload post) ++ js "</script>".

(** ** The page builders *)

Definition buildHomePage (posts : list Post) : result build_error jsstring :=
  let latestPosts := join [] (map renderArticleCard (slice0 3 posts)) in
  let content :=
    renderTemplate (t_index templates)
      [ (js "latestPosts", VStr latestPosts);
        (js "blogUrl", VStr (toPublicUrl site (VStr (js "/blog.html"))));
        (js "projectsUrl", VStr (toPublicUrl site (VStr (js "/projects.html"))));
        (js "adsClient", VStr (adsClient site)) ] in
  canonicalUrl ← absoluteUrlOf site (VStr (js "/index.html"));
  ogImage ← absoluteUrlOf site (VStr (js "/assets/images/about-profile.png"));
  renderLayout site (t_base templates)
    [ (js "content", VStr content);
      (js "metaTitle", VStr (siteName site ++ js " | Blog e Portf" ++ [243%N] ++ js "lio T"
        ++ [233%N] ++ js "cnico"));
      (js "metaDescription", VStr (siteDescription site));
      (js "canonicalUrl", VStr canonicalUrl);
      (js "ogTitle", VStr (siteName site ++ js " | Blog e Portf" ++ [243%N] ++ js "lio T"
        ++ [233%N] ++ js "cnico"));
      (js "ogDescription", VStr (siteDescription site));
      (js "ogImage", VStr ogImage);
      (js "ogType", VStr (js "website")) ].

(** An [option] element of the filters of the blog page. *)
Definition renderOption (value : jsstring) : jsstring :=
  js "<option value=" ++ [dquote] ++ escapeHtml value ++ [dquote] ++ js ">"
  ++ escapeHtml value ++ js "</option>".

Definition buildBlogPage (posts : list Post) (categories : list jsstring)
    (tagsMap : tagsmap) : result build_error jsstring :=
  let categoryOptions := join [] (map renderOption categories) in
  let tagOptions := join [] (map renderOption (obj_keys tagsMap)) in
  let blogCards := join [] (map renderArticleCard posts) in
  let content :=
    renderTemplate (t_blog templates)
      [ (js "categoryOptions", VStr categoryOptions);
        (js "tagOptions", VStr tagOptions);
        (js "blogCards", VStr blogCards);
        (js "postsCount", VStr (decimal (N.of_nat (length posts)))) ] in
  canonicalUrl ← absoluteUrlOf site (VStr (js "/blog.html"));
  ogImage ← absoluteUrlOf site (VStr (js "/assets/images/front-end-news.png"));
  renderLayout site (t_base templates)
    [ (js "content", VStr content);
      (js "metaTitle", VStr (js "Blog | " ++ siteName site));
      (js "metaDescription", VStr (js "Artigos sobre backend, frontend e IA com aplica" ++ [231%N; 227%N]
        ++ js "o pr" ++ [225%N] ++ js "tica."));
      (js "canonicalUrl", VStr canonicalUrl);
      (js "ogTitle", VStr (js "Blog T" ++ [233%N] ++ js "cnico | " ++ siteName site));
      (js "ogDescription", VStr (js "Busca local por t" ++ [237%N]
        ++ js "tulo, resumo, tags e categoria."));
      (js "ogImage", VStr ogImage);
      (js "ogType", VStr (js "website"));
      (js "pageScripts", VStr ([newline] ++ js "  <script src=" ++ [dquote]
        ++ js "https://cdn.jsdelivr.net/npm/fuse.js@7.0.0/dist/fuse.min.js"
        ++ [dquote] ++ js " defer></script>" ++ [newline]
        ++ js "  <script src=" ++ [dquote]
        ++ toPublicUrl site (VStr (js "/assets/js/search.js")) ++ [dquote]
        ++ js " defer></script>")) ].

Definition projects : list Project :=
  [
    {| projectTitle := js "Meme Generator Receita";
       projectStack :=
         js "HTML " ++ [183%N] ++ js " CSS " ++ [183%N] ++ js " JavaScript";
       projectDescription :=
         js "Gerador de memes com templates customiz" ++ [225%N]
         ++ js "veis e interface otimizada para cria" ++ [231%N; 227%N]
         ++ js "o r" ++ [225%N] ++ js "pida.";
       projectUrl := js "https://miguel-br-dl.github.io/meme_generator_receita/";
       projectGithub := js "https://github.com/miguel-br-dl/meme_generator_receita" |};
    {| projectTitle := js "Pipeline de Conte" ++ [250%N] ++ js "do Est" ++ [225%N] ++ js "tico";
       projectStack :=
         js "Node.js " ++ [183%N] ++ js " Markdown " ++ [183%N] ++ js " CI/CD";
       projectDescription :=
         js "Automa" ++ [231%N; 227%N]
         ++ js "o de build para transformar Markdown em p" ++ [225%N]
         ++ js "ginas HTML com SEO e distribui" ++ [231%N; 227%N]
         ++ js "o cont" ++ [237%N] ++ js "nua.";
       projectUrl := toPublicUrl site (VStr (js "/blog.html"));
       projectGithub := js "https://github.com/miguel-br-dl" |};
    {| projectTitle := js "Laborat" ++ [243%N] ++ js "rio de IA Aplicada";
       projectStack :=
         js "Python " ++ [183%N] ++ js " APIs " ++ [183%N] ++ js " Automa"
         ++ [231%N; 227%N] ++ js "o";
       projectDescription :=
         js "Experimentos de produtividade para engenharia de software com integra"
         ++ [231%N; 227%N] ++ js "o de IA em fluxos reais.";
       projectUrl := toPublicUrl site (VStr (js "/about.html"));
       projectGithub := js "https://github.com/miguel-br-dl" |} ].

Definition buildProjectsPage : result build_error jsstring :=
  let projectCards := join [] (map renderProjectCard projects) in
  let content :=
    renderTemplate (t_projects templates) [(js "projectCards", VStr projectCards)] in
  canonicalUrl ← absoluteUrlOf site (VStr (js "/projects.html"));
  ogImage ← absoluteUrlOf site (VStr (js "/assets/images/front-end-news.png"));
  renderLayout site (t_base templates)
    [ (js "content", VStr content);
      (js "metaTitle", VStr (js "Projetos | " ++ siteName site));
      (js "metaDescription", VStr (js "Projetos t" ++ [233%N]
        ++ js "cnicos com foco em engenharia de software e entregas profissionais."));
      (js "canonicalUrl", VStr canonicalUrl);
      (js "ogTitle", VStr (js "Projetos T" ++ [233%N] ++ js "cnicos | " ++ siteName site));
      (js "ogDescription", VStr (js "Cards de projetos com stack e links de c" ++ [243%N] ++ js "digo."));
      (js "ogImage", VStr ogImage);
      (js "ogType", VStr (js "website")) ].

Definition buildAboutPage : result build_error jsstring :=
  let content := renderTemplate (t_about templates) [] in
  canonicalUrl ← absoluteUrlOf site (VStr (js "/about.html"));
  ogImage ← absoluteUrlOf site (VStr (js "/assets/images/about-profile.png"));
  renderLayout site (t_base templates)
    [ (js "content", VStr content);
      (js "metaTitle", VStr (js "Sobre | " ++ siteName site));
      (js "metaDescription", VStr (js "Perfil t" ++ [233%N]
        ++ js "cnico de Miguel Angelo Moutinho com foco em arquitetura, backend, frontend e IA."));
      (js "canonicalUrl", VStr canonicalUrl);
      (js "ogTitle", VStr (js "Sobre Miguel Angelo Moutinho"));
      (js "ogDescription", VStr (js "Trajet" ++ [243%N] ++ js "ria t" ++ [233%N] ++ js "cnica e vis"
        ++ [227%N] ++ js "o de engenharia aplicada."));
      (js "ogImage", VStr ogImage);
      (js "ogType", VStr (js "profile")) ].

(** The body of the loop of [buildPostPages]: the page of one post. *)
Definition buildPostPage (posts : list Post) (post : Post)
    : result build_error jsstring :=
  let relatedPosts :=
    join [] (map renderRelatedCard (findRelatedPosts post posts)) in
  let structuredData := buildPostStructuredData post in
  let content :=
    renderTemplate (t_post templates)
      [ (js "homeUrl", VStr (toPublicUrl site (VStr (js "/index.html"))));
        (js "blogUrl", VStr (toPublicUrl site (VStr (js "/blog.html"))));
        (js "postTitle", VStr (escapeHtml (title post)));
        (js "postCategory", VStr (escapeHtml (category post)));
        (js "postDate", VStr (escapeHtml (formattedDate post)));
        (js "readingTime", VStr (escapeHtml (readingTime post)));
        (js "postSummary", VStr (escapeHtml (summary post)));
        (js "postCoverImage", VStr (escapeHtml (coverImage post)));
        (js "tagLinks", VStr (tagLinks post));
        (js "postContent", VStr (htmlContent post));
        (js "relatedPosts", VStr (if nonempty relatedPosts then relatedPosts
           else js "<p class=" ++ [dquote] ++ js "empty-state" ++ [dquote]
                ++ js ">Em breve mais artigos relacionados para esta categoria.</p>"));
        (js "adsClient", VStr (adsClient site)) ] in
  renderLayout site (t_base templates)
    [ (js "content", VStr content);
      (js "metaTitle", VStr (title post ++ js " | " ++ siteName site));
      (js "metaDescription", VStr (summary post));
      (js "canonicalUrl", VStr (absoluteUrl post));
      (js "ogTitle", VStr (title post ++ js " | " ++ siteName site));
      (js "ogDescription", VStr (summary post));
      (js "ogImage", VStr (coverImageAbsolute post));
      (js "ogType", VStr (js "article"));
      (js "headExtra", VStr ([newline] ++ js "  <meta property=" ++ [dquote]
        ++ js "article:published_time" ++ [dquote] ++ js " content="
        ++ [dquote] ++ isoDate post ++ [dquote] ++ js ">" ++ [newline]
        ++ js "  <meta property=" ++ [dquote] ++ js "article:section"
        ++ [dquote] ++ js " content=" ++ [dquote]
        ++ escapeHtml (category post) ++ [dquote] ++ js ">" ++ [newline]
        ++ js "  " ++ structuredData)) ].

(** The body of the loop of [buildTagPages]: the slug and the page of one
    tag. *)
Definition buildTagPage (tagName : jsstring) (entries : list TagEntry)
    : result build_error (jsstring * jsstring) :=
  let slug := slugify tagName in
  let cards := join [] (map renderTagCard entries) in
  let content :=
    renderTemplate (t_tag templates)
      [ (js "tagName", VStr (js "#" ++ escapeHtml tagName));
        (js "tagCount", VStr (decimal (N.of_nat (length entries))));
        (js "tagCards", VStr cards) ] in
  canonicalUrl ← absoluteUrlOf site (VStr (js "/tags/" ++ slug ++ js ".html"));
  ogImage ← absoluteUrlOf site (VStr (js "/assets/images/front-end-news.png"));
  html ← renderLayout site (t_base templates)
    [ (js "content", VStr content);
      (js "metaTitle", VStr (js "Tag: " ++ tagName ++ js " | " ++ siteName site));
      (js "metaDescription", VStr (js "Artigos marcados com a tag " ++ tagName ++ js "."));
      (js "canonicalUrl", VStr canonicalUrl);
      (js "ogTitle", VStr (js "Tag " ++ tagName ++ js " | " ++ siteName site));
      (js "ogDescription", VStr (decimal (N.of_nat (length entries))
        ++ js " artigo(s) relacionado(s) com " ++ tagName ++ js "."));
      (js "ogImage", VStr ogImage);
      (js "ogType", VStr (js "website")) ];
  Ok (slug, html).

End Pages.

(** ** The markup of the cards *)

Lemma markup_count_hyphen_sep (b : bool) (s : jsstring) :
  hyphen_sep b s = true → markup_count s = 0.
Proof.
  intros Hs. apply markup_count_zero. revert b Hs.
  induction s as [|c s IH]; intros b; [constructor |].
  cbn [hyphen_sep]. destruct (is_hyphen c) eqn:Hh.
  - intros [_ Hs]%andb_true_iff. constructor; [| by eapply IH].
    unfold is_hyphen in Hh. apply N.eqb_eq in Hh. by subst.
  - intros [Hc Hs]%andb_true_iff. constructor; [| by eapply IH].
    destruct (html_delimiter c) eqn:E; [exfalso | done].
    unfold html_delimiter in E. solve_class.
Qed.

Lemma tag_path_trimmed (s : jsstring) :
  trim (js "/tags/" ++ s ++ js ".html") = js "/tags/" ++ s ++ js ".html".
Proof.
  change (js ".html") with (js ".htm" ++ [108%N]).
  change (js "/tags/") with (47%N :: js "tags/").
  rewrite <- app_comm_cons, !app_assoc. by apply trim_between.
Qed.

Section CardProperties.
Context `{!Prototype, !UrlApi, !Unicode, !DateApi} (site : Site).

Lemma tag_url (s : jsstring) :
  toPublicUrl site (VStr (js "/tags/" ++ s ++ js ".html")) =
    basePath site ++ js "/tags/" ++ s ++ js ".html".
Proof. apply (toPublicUrl_rooted_path site), (tag_path_trimmed s). Qed.

Lemma tagSlugText_own (post : Post) (tag : jsstring) :
  post_wf site post → tag ∈ tags post →
  tagSlugText post tag = slugify tag.
Proof.
  intros Hwf Hin. unfold tagSlugText, obj_read.
  by rewrite (wf_tagSlugs site post Hwf), decide_True.
Qed.

Lemma tagLink_markup (post : Post) (tag : jsstring) :
  post_wf site post → markup_count (basePath site) = 0 → tag ∈ tags post →
  markup_count (tagLink site post tag) = 8.
Proof.
  intros Hwf Hbase Hin. unfold tagLink.
  rewrite tagSlugText_own, tag_url by done. count_markup.
  rewrite Hbase, (markup_count_hyphen_sep true (slugify tag))
    by apply slugify_slug_shape.
  by eval_markup.
Qed.

Lemma tagLinks_markup (post : Post) :
  post_wf site post → markup_count (basePath site) = 0 →
  markup_count (tagLinks site post) = 8 * length (tags post).
Proof.
  intros Hwf Hbase. unfold tagLinks. rewrite markup_count_join by done.
  rewrite <- list_fmap_compose, (sum_list_const 8), length_fmap; [done |].
  apply Forall_fmap, Forall_forall. intros tag Hin. by apply tagLink_markup.
Qed.

Lemma renderArticleCard_count (post : Post) :
  post_wf site post → markup_count (basePath site) = 0 →
  markup_count (renderArticleCard site post) = 52 + 8 * length (tags post).
Proof.
  intros Hwf Hbase. unfold renderArticleCard. count_markup.
  rewrite tagLinks_markup by done. eval_markup. lia.
Qed.

(** C18: the markup of an article card does not depend on what the post
    says: its delimiters are the 52 of the card and 8 for each tag, for
    every loaded post of a site whose base path holds no delimiter. *)
Theorem renderArticleCard_markup (post : Post) :
  post_wf site post → markup_count (basePath site) = 0 →
  markup_count (renderArticleCard site post) = 52 + 8 * length (tags post).
Proof. apply renderArticleCard_count. Qed.

(** The related card, the card of a tag page, the option of a filter
    and the project card hold the markup of their template and nothing
    else, whatever their fields are. *)
Theorem cards_markup (post : Post) (entry : TagEntry) (value : jsstring)
    (project : Project) :
  markup_count (renderRelatedCard post) = 26 ∧
  markup_count (renderTagCard entry) = 46 ∧
  markup_count (renderOption value) = 6 ∧
  markup_count (renderProjectCard project) = 44.
Proof.
  unfold renderRelatedCard, renderTagCard, renderOption, renderProjectCard.
  split_and!; count_markup; eval_markup; lia.
Qed.

(** C34: the structured data of a post is not escaped for the script
    element that holds it: a title without quote, backslash or control
    character stands in the element as it is, so a title that holds
    the closing tag of a script ends the element. *)
Theorem buildPostStructuredData_raw (post : Post) :
  Forall (λ c, json_plain c = true) (title post) →
  substring_of (title post) (buildPostStructuredData site post).
Proof.
  intros Hplain. unfold buildPostStructuredData.
  do 5 apply substring_of_app_l. apply substring_of_app_r.
  cbn [json_stringify postPayload]. apply substring_of_app_l, substring_of_app_r.
  eapply substring_of_trans; [| apply join_substring; do 2 right; left].
  do 2 apply substring_of_app_l. cbn [snd json_stringify].
  unfold json_quote, quoted. rewrite json_escape_plain by done.
  apply substring_of_cons, substring_of_app_r, substring_of_refl.
Qed.

End CardProperties.

(** ** The builders *)

(** The value of a key of an object literal, by comparison with its keys
    in order. *)
Ltac obj_lookup :=
  repeat (rewrite obj_get_cons;
          first [ rewrite decide_True by reflexivity
                | rewrite decide_False by (by vm_compute) ]).

Lemma absoluteUrlOf_error `{!UrlApi} (site : Site) (v : jsval)
    (e : build_error) :
  absoluteUrlOf site v = Err e → e = InvalidUrl (toStr v).
Proof. unfold absoluteUrlOf. destruct (toAbsoluteUrl _ _); congruence. Qed.

Definition url_error (e : build_error) : Prop := ∃ path, e = InvalidUrl path.

Ltac url_errors :=
  repeat match goal with
  | |- context [absoluteUrlOf ?site ?v] =>
      let E := fresh "E" in
      destruct (absoluteUrlOf site v) eqn:E;
      [| apply absoluteUrlOf_error in E; intros [= <-]; by eexists ]
  end.

Section BuilderProperties.
Context `{!Prototype, !UrlApi, !Unicode} (site : Site) (templates : Templates).

Lemma renderLayout_error (base : jsstring) (params : jsobject jsval)
    (e : build_error) :
  renderLayout site base params = Err e → url_error e.
Proof. unfold renderLayout. url_errors. done. Qed.

(** A page builder fails only when a URL cannot be built: the only
    exception of a builder is the one of the URL constructor. *)
Theorem builders_errors (posts : list Post) (categories : list jsstring)
    (tagsMap : tagsmap) (post : Post) (tagName : jsstring)
    (entries : list TagEntry) (e : build_error) :
  buildHomePage site templates posts = Err e ∨
  buildBlogPage site templates posts categories tagsMap = Err e ∨
  buildProjectsPage site templates = Err e ∨
  buildAboutPage site templates = Err e ∨
  buildPostPage site templates posts post = Err e ∨
  buildTagPage site templates tagName entries = Err e →
  url_error e.
Proof.
  unfold buildHomePage, buildBlogPage, buildProjectsPage, buildAboutPage,
    buildPostPage, buildTagPage.
  intros [He | [He | [He | [He | [He | He]]]]]; revert He; url_errors;
    cbn [mbind result_bind]; try apply renderLayout_error.
  destruct (renderLayout _ _ _) eqn:Hl; [done |].
  intros [= <-]. by eapply renderLayout_error.
Qed.

(** C35: the title of a post reaches the head of its page as it is: where
    the base template has the placeholder [metaTitle], the page of a post
    has the title followed by the name of the site, not escaped. *)
Theorem buildPostPage_meta_raw (posts : list Post) (post : Post)
    (pre sp1 sp2 : jsstring) :
  t_base templates = pre ++ placeholder sp1 (js "metaTitle") sp2 →
  no_brace pre → all_space sp1 → all_space sp2 →
  is_Ok (absoluteUrlOf site (VStr (js "/index.html"))) = true →
  is_Ok (absoluteUrlOf site (VStr (js "/assets/images/about-profile.png")))
    = true →
  buildPostPage site templates posts post =
    Ok (pre ++ title post ++ js " | " ++ siteName site).
Proof.
  intros Hbase Hpre Hsp1 Hsp2 Hc Ho. unfold buildPostPage, renderLayout.
  destruct (absoluteUrlOf site (VStr (js "/index.html"))); [| done].
  destruct (absoluteUrlOf site _); [| done].
  cbn [mbind result_bind]. f_equal. rewrite Hbase.
  rewrite <- (app_nil_r (placeholder _ _ _)).
  rewrite renderTemplate_no_brace_app by done.
  rewrite renderTemplate_placeholder_app;
    [| done | split; [done | vm_compute; repeat constructor] | done].
  rewrite paramText_assign.
  - rewrite decide_True by (vm_compute; set_solver).
    unfold paramText, obj_read. obj_lookup.
    by rewrite (renderTemplate_text _ []), app_nil_r by constructor.
  - cbn [obj_keys fmap list_fmap fst].
    by refine (bool_decide_unpack (NoDup _) _).
Qed.

End BuilderProperties.

(** ** Evaluation *)

Definition demo_templates : Templates := {|
  t_base := js "<title>{{ metaTitle }}";
  t_index := js "<main>{{ latestPosts }}</main>";
  t_blog := js "<p>{{ postsCount }}</p>{{ blogCards }}";
  t_post := js "<h1>{{ postTitle }}</h1>{{ postContent }}";
  t_projects := js "{{ projectCards }}";
  t_about := js "<p>about</p>";
  t_tag := js "<h1>{{ tagName }}</h1>{{ tagCards }}"
|}.

(** A URL constructor that rejects every input. *)
Definition no_url : UrlApi := {|
  urlToString _ _ := None;
  urlOrigin _ _ := None
|}.

Definition demo_postA : Post :=
  match demo_loadPost (js "a.md") (js "A") with
  | Ok post => post
  | Err _ => tag_post [] []
  end.

Definition script_post : Post :=
  tag_post (js "</script><script>alert(1)</script>") [].

Lemma demo_postA_wf :
  post_wf (H := ascii_unicode) (H1 := ms_dates) demo_site demo_postA.
Proof.
  apply (loadPost_wf (H := ascii_unicode) (H0 := simple_url) (H1 := ms_dates)
           (H2 := demo_matter) (H3 := id_markdown) demo_site
           (js "a.md") (js "A")).
  by vm_compute.
Qed.

Lemma renderArticleCard_markup_witness :
  markup_count (renderArticleCard (H := v8_prototype) demo_site demo_postA)
  = 52 + 8 * length (tags demo_postA).
Proof.
  apply (renderArticleCard_markup (H := v8_prototype) (H1 := ascii_unicode)
           (H2 := ms_dates) demo_site demo_postA demo_postA_wf).
  by vm_compute.
Defined.

Lemma buildPostStructuredData_raw_witness :
  substring_of (js "</script><script>alert(1)</script>")
    (buildPostStructuredData demo_site script_post).
Proof.
  apply (buildPostStructuredData_raw demo_site script_post).
  by refine (bool_decide_unpack (Forall _ _) _).
Defined.

Lemma builders_errors_witness : url_error (InvalidUrl (js "/about.html")).
Proof.
  apply (builders_errors (H := v8_prototype) (H0 := no_url)
           (H1 := ascii_unicode) demo_site demo_templates
           [] [] [] script_post [] []).
  do 3 right. left. by vm_compute.
Defined.

Lemma buildPostPage_meta_raw_witness :
  buildPostPage (H := v8_prototype) (H0 := simple_url) demo_site
    demo_templates [] (tag_post (js "<b>") [])
  = Ok (js "<title><b> | Site").
Proof.
  apply (buildPostPage_meta_raw (H := v8_prototype) (H0 := simple_url)
           demo_site demo_templates [] (tag_post (js "<b>") [])
           (js "<title>") (js " ") (js " "));
    [done | repeat constructor; done | repeat constructor..| done | done].
Defined.
