(* ===== verification/Build.v ===== *)
(** * The build pipeline

    [main] of [src/scripts/build.js] cleans the build directory, loads the
    templates and the posts, copies the assets, and runs the page builders
    and the writers in a fixed order; an exception ends the process at once
    and leaves the build directory as it is at that point.  The pipeline is
    a computation over the state of a build (the files of the build
    directory, the list [pages], the number of clock readings, the console)
    that returns the state together with a value or the exception.  The
    file proves which files a successful build writes, what a failed build
    leaves behind, and what the list [pages] holds. *)

From Stdlib Require Import NArith ZArith Ascii String List Lia.
From stdpp Require Import base tactics numbers option list sorting gmap sets.
From S2P Require Import Prelude Runtime JsObject Escape Sorting Slug Url Markup.
From S2P Require Import Posts Related Tags Template Feeds Json Pages.

(** ** The world and the state *)

(** What the script reads: the directories of templates and posts (absent:
    [None]), the assets by relative path, the optional [ads.txt], and the
    clock, the time of each reading in order. *)
Record World : Type := {
  w_templates : list (jsstring * jsstring);
  w_posts : option (list (jsstring * jsstring));
  w_assets : option (list (jsstring * jsstring));
  w_ads : option jsstring;
  w_clock : nat → Z
}.

(** The files of the build directory by relative path, the array [pages],
    the number of clock readings so far, and the lines of the console. *)
Record BuildState : Type := {
  out : gmap jsstring jsstring;
  pages : list PageRef;
  ticks : nat;
  console : list jsstring
}.

Definition initial (files : gmap jsstring jsstring) : BuildState :=
  {| out := files; pages := []; ticks := 0; console := [] |}.

(** [html-minifier-terser]: the minified text, or a parse error. *)
Class Minifier : Type := {
  minify : jsstring → option jsstring
}.

(** ** Computations *)

(** A step returns the new state and a value, or the state at the moment
    of the exception. *)
Definition Build (A : Type) : Type :=
  BuildState → BuildState * result build_error A.

#[export] Instance build_ret : MRet Build := λ A x s, (s, Ok x).
#[export] Instance build_bind : MBind Build := λ A B f m s,
  match m s with
  | (s', Ok x) => f x s'
  | (s', Err e) => (s', Err e)
  end.

(** A pure computation that can throw. *)
Definition lift {A} (r : result build_error A) : Build A := λ s, (s, r).

Definition modify (f : BuildState → BuildState) : Build unit :=
  λ s, (f s, Ok tt).

(** [fs.writeFile] under the build directory. *)
Definition writeFile (path content : jsstring) : Build unit :=
  modify (λ s, {| out := <[path := content]> (out s); pages := pages s;
                  ticks := ticks s; console := console s |}).

(** [pages.push(page)]. *)
Definition pushPage (page : PageRef) : Build unit :=
  modify (λ s, {| out := out s; pages := pages s ++ [page];
                  ticks := ticks s; console := console s |}).

Definition log (line : jsstring) : Build unit :=
  modify (λ s, {| out := out s; pages := pages s; ticks := ticks s;
                  console := console s ++ [line] |}).

(** A loop over a list. *)
Fixpoint forEach {A} (body : A → Build unit) (l : list A) : Build unit :=
  match l with
  | [] => mret tt
  | x :: rest => body x ≫= λ _, forEach body rest
  end.

Section Pipeline.
Context `{!Prototype, !UrlApi, !Unicode, !DateApi, !Collation, !FrontMatter,
          !Markdown, !Minifier}.
Context (site : Site) (world : World).

(** [new Date().toISOString()]: a reading of the clock. *)
Definition nowIso : Build jsstring := λ s,
  ({| out := out s; pages := pages s; ticks := S (ticks s);
      console := console s |},
   Ok (toISOString (w_clock world (ticks s)))).

Definition now : Build Z := λ s,
  ({| out := out s; pages := pages s; ticks := S (ticks s);
      console := console s |},
   Ok (w_clock world (ticks s))).

(** ** The steps of [main] *)

Definition cleanBuildDir : Build unit :=
  modify (λ s, {| out := ∅; pages := pages s; ticks := ticks s;
                  console := console s |}).

Definition readTemplate (name : jsstring) : result build_error jsstring :=
  match obj_get (name ++ js ".html") (w_templates world) with
  | Some text => Ok text
  | None => Err (IoError (name ++ js ".html"))
  end.

Definition loadTemplates : result build_error Templates :=
  base ← readTemplate (js "base");
  index ← readTemplate (js "index");
  blog ← readTemplate (js "blog");
  post ← readTemplate (js "post");
  projects ← readTemplate (js "projects");
  about ← readTemplate (js "about");
  tag ← readTemplate (js "tag");
  Ok {| t_base := base; t_index := index; t_blog := blog; t_post := post;
        t_projects := projects; t_about := about; t_tag := tag |}.

Definition readPosts : result build_error (list Post) :=
  match w_posts world with
  | Some entries => loadPosts site entries
  | None => Err (IoError (js "posts"))
  end.

Definition copyAssets : Build unit :=
  match w_assets world with
  | Some files =>
      forEach (λ f, writeFile (js "assets/" ++ f.1) f.2) files
  | None => lift (Err (IoError (js "assets")))
  end.

Definition copyAdsFile : Build unit :=
  match w_ads world with
  | Some text => writeFile (js "ads.txt") text
  | None => mret tt
  end.

(** [Array.from(new Set(values))]: the values in the order of their first
    occurrence. *)
Fixpoint uniqueValues (seen : gset jsstring) (values : list jsstring)
    : list jsstring :=
  match values with
  | [] => []
  | v :: rest =>
      if decide (v ∈ seen) then uniqueValues seen rest
      else v :: uniqueValues ({[ v ]} ∪ seen) rest
  end.

Definition categoriesOf (posts : list Post) : list jsstring :=
  js_sort localeCompare (uniqueValues ∅ (map category posts)).

Definition writeHtml (path html : jsstring) : Build unit :=
  match minify html with
  | Some minified => writeFile path minified
  | None => lift (Err (MinifyError path))
  end.

(** ** JSON files *)

Definition tagEntryJson (entry : TagEntry) : json :=
  JObj [ (js "title", JStr (entryTitle entry));
         (js "summary", JStr (entrySummary entry));
         (js "category", JStr (entryCategory entry));
         (js "date", JStr (entryDate entry));
         (js "url", JStr (entryUrl entry));
         (js "coverImage", JStr (entryCoverImage entry)) ].

Definition tagsMapJson (tagsMap : tagsmap) : json :=
  JObj (map (λ kv, (kv.1, JArr (map tagEntryJson kv.2))) (obj_entries tagsMap)).

Definition searchRecordJson (record : SearchRecord) : json :=
  JObj [ (js "title", JStr (srTitle record));
         (js "summary", JStr (srSummary record));
         (js "tags", JArr (map JStr (srTags record)));
         (js "category", JStr (srCategory record));
         (js "url", JStr (srUrl record));
         (js "date", JStr (srDate record));
         (js "coverImage", JStr (srCoverImage record));
         (js "tagSlugs",
           JObj (map (λ kv, (kv.1, JStr kv.2)) (obj_entries (srTagSlugs record)))) ].

Definition writeJson (path : jsstring) (data : json) : Build unit :=
  writeFile path (json_pretty 0 data).

(** ** The loops over posts and tags *)

Definition buildPostPages (templates : Templates) (posts : list Post)
    : Build unit :=
  forEach (λ post,
    html ← lift (buildPostPage site templates posts post);
    writeHtml (js "posts/" ++ slug post ++ js ".html") html ≫= λ _,
    pushPage {| file := js "/posts/" ++ slug post ++ js ".html";
                lastmod := isoDate post |}) posts.

Definition buildTagPages (templates : Templates) (tagsMap : tagsmap)
    : Build unit :=
  forEach (λ kv,
    page ← lift (buildTagPage site templates kv.1 kv.2);
    writeHtml (js "tags/" ++ page.1 ++ js ".html") page.2 ≫= λ _,
    lastmod ← nowIso;
    pushPage {| file := js "/tags/" ++ page.1 ++ js ".html";
                lastmod := lastmod |}) (obj_entries tagsMap).

(** ** [main] *)

Definition staticPages : list jsstring :=
  [js "/index.html"; js "/blog.html"; js "/projects.html"; js "/about.html"].

Definition summaryLine (posts : list Post) (tagsMap : tagsmap) : jsstring :=
  js "Build finalizado: " ++ decimal (N.of_nat (length posts))
  ++ js " post(s), " ++ decimal (N.of_nat (length (obj_keys tagsMap)))
  ++ js " tag(s).".

Definition main : Build unit :=
  cleanBuildDir ≫= λ _,
  templates ← lift loadTemplates;
  posts ← lift readPosts;
  forEach (λ path, lastmod ← nowIso;
                   pushPage {| file := path; lastmod := lastmod |})
    staticPages ≫= λ _,
  copyAssets ≫= λ _,
  copyAdsFile ≫= λ _,
  tagsMap ← lift (buildTagsMap posts);
  let categories := categoriesOf posts in
  html ← lift (buildHomePage site templates posts);
  writeHtml (js "index.html") html ≫= λ _,
  html ← lift (buildBlogPage site templates posts categories tagsMap);
  writeHtml (js "blog.html") html ≫= λ _,
  html ← lift (buildProjectsPage site templates);
  writeHtml (js "projects.html") html ≫= λ _,
  html ← lift (buildAboutPage site templates);
  writeHtml (js "about.html") html ≫= λ _,
  buildPostPages templates posts ≫= λ _,
  buildTagPages templates tagsMap ≫= λ _,
  writeJson (js "search-index.json")
    (JArr (map searchRecordJson (buildSearchIndex posts))) ≫= λ _,
  writeJson (js "tags.json") (tagsMapJson tagsMap) ≫= λ _,
  allPages ← (λ s, (s, Ok (pages s)));
  sitemap ← lift (writeSitemap site allPages);
  writeFile (js "sitemap.xml") sitemap ≫= λ _,
  robots ← lift (writeRobots site);
  writeFile (js "robots.txt") robots ≫= λ _,
  time ← now;
  rss ← lift (writeRss site time posts);
  writeFile (js "rss.xml") rss ≫= λ _,
  log (summaryLine posts tagsMap).

End Pipeline.

(** ** Running computations *)

Lemma build_bind_run {A B} (m : Build A) (f : A → Build B) (s : BuildState) :
  (m ≫= f) s =
    match m s with
    | (s', Ok x) => f x s'
    | (s', Err e) => (s', Err e)
    end.
Proof. done. Qed.

Lemma build_bind_Ok {A B} (m : Build A) (f : A → Build B) (s s' : BuildState)
    (y : B) :
  (m ≫= f) s = (s', Ok y) ↔
  ∃ x s1, m s = (s1, Ok x) ∧ f x s1 = (s', Ok y).
Proof.
  rewrite build_bind_run. destruct (m s) as [s1 [x|e]]; split.
  - intros Hf. by exists x, s1.
  - by intros (? & ? & [= <- <-] & Hf).
  - done.
  - by intros (? & ? & [= _ ?] & _).
Qed.

Lemma build_bind_lift_Err {A B} (r : result build_error A) (f : A → Build B)
    (s : BuildState) (e : build_error) :
  r = Err e → (lift r ≫= f) s = (s, Err e).
Proof. by intros ->. Qed.

Lemma build_bind_lift_Ok {A B} (r : result build_error A) (f : A → Build B)
    (s : BuildState) (x : A) :
  r = Ok x → (lift r ≫= f) s = f x s.
Proof. by intros ->. Qed.

Lemma lift_Ok {A} (r : result build_error A) (s s' : BuildState) (x : A) :
  lift r s = (s', Ok x) ↔ r = Ok x ∧ s' = s.
Proof. unfold lift. split; [by intros [= <- ->] | by intros [-> ->]]. Qed.

(** Invert a successful run of a sequence of steps. *)
Ltac inv_build :=
  repeat match goal with
  | H : (_ ≫= _) _ = (_, Ok _) |- _ =>
      apply build_bind_Ok in H as (? & ? & ? & H)
  | H : lift _ _ = (_, Ok _) |- _ => apply lift_Ok in H as [H ->]
  | H : mret _ _ = (_, Ok _) |- _ => injection H as <- <-
  end.

(** ** What a step keeps *)

(** A step keeps the files of the build directory and the entries of
    [pages] and adds to them. *)
Definition extends (s s' : BuildState) : Prop :=
  dom (out s) ⊆ dom (out s') ∧ pages s `prefix_of` pages s'.

#[export] Instance extends_preorder : PreOrder extends.
Proof.
  split.
  - by intros s.
  - intros s1 s2 s3 [Hd1 Hp1] [Hd2 Hp2].
    split; [set_solver | by etrans].
Qed.

Definition monotone {A} (m : Build A) : Prop :=
  ∀ s, extends s (m s).1.

Lemma monotone_bind {A B} (m : Build A) (f : A → Build B) :
  monotone m → (∀ x, monotone (f x)) → monotone (m ≫= f).
Proof.
  intros Hm Hf s. rewrite build_bind_run. specialize (Hm s).
  destruct (m s) as [s1 [x|e]]; [| done]. etrans; [exact Hm | apply Hf].
Qed.

Lemma monotone_lift {A} (r : result build_error A) : monotone (lift r).
Proof. by intros s. Qed.

Lemma monotone_ret {A} (x : A) : monotone (mret x : Build A).
Proof. by intros s. Qed.

Lemma monotone_writeFile (path content : jsstring) :
  monotone (writeFile path content).
Proof. intros s. split; simpl; [set_solver | done]. Qed.

Lemma monotone_pushPage (page : PageRef) : monotone (pushPage page).
Proof. intros s. split; simpl; [done | by apply prefix_app_r]. Qed.

Lemma monotone_log (line : jsstring) : monotone (log line).
Proof. by intros s. Qed.

Lemma monotone_forEach {A} (body : A → Build unit) (l : list A) :
  (∀ x, monotone (body x)) → monotone (forEach body l).
Proof.
  intros Hb. induction l as [|x l IH]; [apply monotone_ret |].
  by apply monotone_bind.
Qed.

#[export] Hint Resolve monotone_bind monotone_lift monotone_ret
  monotone_writeFile monotone_pushPage monotone_log monotone_forEach : js.

(** ** Specifications of steps *)

(** From a state that satisfies [P] the step returns a value and a state
    that satisfy [Q]: it does not throw. *)
Definition returns {A} (P : BuildState → Prop) (m : Build A)
    (Q : A → BuildState → Prop) : Prop :=
  ∀ s, P s → ∃ x s', m s = (s', Ok x) ∧ Q x s'.

Lemma returns_bind {A B} (P : BuildState → Prop) (m : Build A)
    (Q : A → BuildState → Prop) (f : A → Build B)
    (R : B → BuildState → Prop) :
  returns P m Q → (∀ x, returns (Q x) (f x) R) → returns P (m ≫= f) R.
Proof.
  intros Hm Hf s (x & s1 & Hx & HQ)%Hm.
  destruct (Hf x s1 HQ) as (y & s2 & Hy & HR).
  exists y, s2. by rewrite build_bind_run, Hx.
Qed.

Lemma returns_lift {A} (P : BuildState → Prop) (r : result build_error A)
    (x : A) :
  r = Ok x → returns P (lift r) (λ y s, y = x ∧ P s).
Proof. intros -> s Hs. by exists x, s. Qed.

Lemma returns_ret {A} (P : BuildState → Prop) (x : A) :
  returns P (mret x) (λ _, P).
Proof. intros s Hs. by exists x, s. Qed.

Lemma returns_modify (P Q : BuildState → Prop) (f : BuildState → BuildState) :
  (∀ s, P s → Q (f s)) → returns P (modify f) (λ _, Q).
Proof. intros Hf s Hs. exists tt, (f s). auto. Qed.

Lemma returns_weaken {A} (P P' : BuildState → Prop) (m : Build A)
    (Q Q' : A → BuildState → Prop) :
  returns P' m Q' → (∀ s, P s → P' s) → (∀ x s, Q' x s → Q x s) →
  returns P m Q.
Proof.
  intros Hm HP HQ s (x & s' & Hx & Hq)%HP%Hm. exists x, s'. auto.
Qed.

(** A loop whose body takes [I visited] to [I (visited ++ [x])]. *)
Lemma returns_forEach {A} (I : list A → BuildState → Prop)
    (body : A → Build unit) (l : list A) :
  (∀ visited x, x ∈ l →
     returns (I visited) (body x) (λ _, I (visited ++ [x]))) →
  ∀ visited, returns (I visited) (forEach body l) (λ _, I (visited ++ l)).
Proof.
  induction l as [|x rest IH]; intros Hbody visited; simpl.
  - rewrite app_nil_r. apply returns_ret.
  - eapply returns_bind; [apply Hbody; left |]. intros [].
    replace (visited ++ x :: rest) with ((visited ++ [x]) ++ rest)
      by (by rewrite <- app_assoc).
    apply IH. intros ? ? ?. apply Hbody. by right.
Qed.

Lemma returns_post {A} (P : BuildState → Prop) (m : Build A)
    (Q Q' : A → BuildState → Prop) :
  returns P m Q' → (∀ x s, Q' x s → Q x s) → returns P m Q.
Proof. intros Hm HQ. eapply returns_weaken; [exact Hm | done | done]. Qed.

Lemma returns_bind_lift_state {A B} (P : BuildState → Prop)
    (r : result build_error A) (f : A → Build B)
    (R : B → BuildState → Prop) :
  (∀ s, P s → is_Ok r = true) → (∀ x, r = Ok x → returns P (f x) R) →
  returns P (lift r ≫= f) R.
Proof.
  intros Hr Hf s Hs. specialize (Hr s Hs). destruct r as [x|]; [| done].
  exact (Hf x eq_refl s Hs).
Qed.

Lemma returns_read {A} (P : BuildState → Prop) (get : BuildState → A) :
  returns P (λ s, (s, Ok (get s))) (λ x s, P s ∧ x = get s).
Proof. intros s Hs. by exists (get s), s. Qed.

Lemma returns_strengthen {A} (P P' : BuildState → Prop) (m : Build A)
    (Q : A → BuildState → Prop) :
  (∀ s, P s → P' s) → returns P' m Q → returns P m Q.
Proof. intros HP Hm. eapply returns_weaken; [exact Hm | done | done]. Qed.

Lemma returns_bind_lift {A B} (P : BuildState → Prop)
    (r : result build_error A) (x : A) (f : A → Build B)
    (R : B → BuildState → Prop) :
  r = Ok x → returns P (f x) R → returns P (lift r ≫= f) R.
Proof. intros -> Hf s Hs. exact (Hf s Hs). Qed.

Lemma returns_pre {A} (P : BuildState → Prop) (φ : Prop) (m : Build A)
    (Q : A → BuildState → Prop) :
  (φ → returns P m Q) → returns (λ s, P s ∧ φ) m Q.
Proof. intros Hm s [Hs Hφ]. by apply Hm. Qed.

(** The steps of a sequence: [run] a step with its specification, [take]
    the value of a step that is known to return. *)
Tactic Notation "run" tactic3(rule) :=
  eapply returns_bind; [rule |]; intros [].
Tactic Notation "take" constr(H) := eapply returns_bind_lift; [exact H |].

(** A computation is a function: two specifications of a step combine. *)
Lemma returns_and {A} (P P' : BuildState → Prop) (m : Build A)
    (Q Q' : A → BuildState → Prop) :
  returns P m Q → returns P' m Q' →
  returns (λ s, P s ∧ P' s) m (λ x s, Q x s ∧ Q' x s).
Proof.
  intros Hm Hm' s [(x & s1 & E & HQ)%Hm (x' & s2 & E' & HQ')%Hm'].
  rewrite E in E'. injection E' as <- <-. by exists x, s1.
Qed.

(** ** The state between the steps *)

Section MainCorrect.
Context `{!Prototype, !UrlApi, !Unicode, !DateApi, !Collation, !FrontMatter,
          !Markdown, !Minifier}.
Context (site : Site) (world : World).

(** The build directory holds the files [F], [pages] names the files [l],
    and every entry of [pages] can be written to the sitemap. *)
Definition built (F : gset jsstring) (l : list jsstring) (s : BuildState)
    : Prop :=
  F ⊆ dom (out s) ∧ file <$> pages s = l ∧
  Forall (λ page, is_Ok (sitemapEntry site page) = true) (pages s).

Context (Hurl : ∀ v, is_Ok (absoluteUrlOf site v) = true).
Context (Hmin : ∀ html, is_Some (minify html)).
Context (Hclock : ∀ n, is_Some (dateOf (VStr (toISOString (w_clock world n))))).

Lemma readPosts_wf (posts : list Post) :
  readPosts site world = Ok posts → Forall (post_wf site) posts.
Proof.
  unfold readPosts. destruct (w_posts world) as [entries|]; [| done].
  intros (loaded & Hall & ->)%loadPosts_inv. rewrite js_sort_perm.
  induction Hall as [|e p es ps Hp _ IH]; constructor; [| done].
  by eapply loadPost_wf.
Qed.

Lemma sitemapEntry_Ok (page : PageRef) :
  is_Some (dateOf (VStr (lastmod page))) →
  is_Ok (sitemapEntry site page) = true.
Proof.
  intros [t Ht]. unfold sitemapEntry, isoOfString. rewrite Ht.
  specialize (Hurl (VStr (file page))).
  by destruct (absoluteUrlOf site (VStr (file page))).
Qed.

Lemma returns_writeFile (F : gset jsstring) (l : list jsstring)
    (path content : jsstring) :
  returns (built F l) (writeFile path content)
    (λ _, built ({[ path ]} ∪ F) l).
Proof.
  apply returns_modify. intros s (HF & Hl & Hp). split_and!; simpl; try done.
  set_solver.
Qed.

Lemma returns_writeHtml (F : gset jsstring) (l : list jsstring)
    (path html : jsstring) :
  returns (built F l) (writeHtml path html) (λ _, built ({[ path ]} ∪ F) l).
Proof.
  unfold writeHtml. destruct (Hmin html) as [minified ->].
  apply returns_writeFile.
Qed.

Lemma returns_pushPage (F : gset jsstring) (l : list jsstring)
    (page : PageRef) :
  is_Some (dateOf (VStr (lastmod page))) →
  returns (built F l) (pushPage page) (λ _, built F (l ++ [file page])).
Proof.
  intros Hdate. apply returns_modify. intros s (HF & Hl & Hp).
  split_and!; simpl; [done | by rewrite fmap_app, Hl |].
  apply Forall_app. split; [done |]. constructor; [| done].
  by apply sitemapEntry_Ok.
Qed.

Lemma returns_nowIso (P : BuildState → Prop) :
  (∀ s, P s → P {| out := out s; pages := pages s; ticks := S (ticks s);
                   console := console s |}) →
  returns P (nowIso world)
    (λ iso s, P s ∧ is_Some (dateOf (VStr iso))).
Proof. intros HP s Hs. eexists _, _. split; [done |]. split; auto. Qed.

Lemma built_tick (F : gset jsstring) (l : list jsstring) (s : BuildState) :
  built F l s →
  built F l {| out := out s; pages := pages s; ticks := S (ticks s);
               console := console s |}.
Proof. done. Qed.


(** The files and the entries of [pages] of the posts and of the tags. *)
Definition postFile (post : Post) : jsstring :=
  js "posts/" ++ slug post ++ js ".html".
Definition postPage (post : Post) : jsstring :=
  js "/posts/" ++ slug post ++ js ".html".
Definition tagFile (tag : jsstring) : jsstring :=
  js "tags/" ++ slugify tag ++ js ".html".
Definition tagPage (tag : jsstring) : jsstring :=
  js "/tags/" ++ slugify tag ++ js ".html".

Lemma renderLayout_returns (base : jsstring) (params : jsobject jsval) :
  ∃ html, renderLayout site base params = Ok html.
Proof.
  unfold renderLayout.
  pose proof (Hurl (VStr (js "/index.html"))) as Hu1.
  pose proof (Hurl (VStr (js "/assets/images/about-profile.png"))) as Hu2.
  destruct (absoluteUrlOf site (VStr (js "/index.html"))); [| done].
  destruct (absoluteUrlOf site _); [| done]. by eexists.
Qed.

(** Every call of [toAbsoluteUrl] returns. *)
Ltac urls_return :=
  repeat match goal with
  | |- context [absoluteUrlOf site ?v] =>
      let E := fresh "E" in
      pose proof (Hurl v) as E;
      destruct (absoluteUrlOf site v); [clear E | done]
  end;
  cbn [mbind result_bind].

Lemma builders_return (templates : Templates) (posts : list Post)
    (categories : list jsstring) (tagsMap : tagsmap) :
  (∃ html, buildHomePage site templates posts = Ok html) ∧
  (∃ html, buildBlogPage site templates posts categories tagsMap = Ok html) ∧
  (∃ html, buildProjectsPage site templates = Ok html) ∧
  (∃ html, buildAboutPage site templates = Ok html).
Proof.
  unfold buildHomePage, buildBlogPage, buildProjectsPage, buildAboutPage.
  split_and!; urls_return; apply renderLayout_returns.
Qed.

Lemma buildPostPage_returns (templates : Templates) (posts : list Post)
    (post : Post) :
  ∃ html, buildPostPage site templates posts post = Ok html.
Proof. apply renderLayout_returns. Qed.

Lemma buildTagPage_returns (templates : Templates) (tag : jsstring)
    (entries : list TagEntry) :
  ∃ html, buildTagPage site templates tag entries = Ok (slugify tag, html).
Proof.
  unfold buildTagPage. urls_return.
  match goal with |- context [renderLayout site ?b ?p] =>
    destruct (renderLayout_returns b p) as [html ->] end.
  by exists html.
Qed.

(** *** The loops *)

Lemma built_weaken (F F' : gset jsstring) (l : list jsstring)
    (s : BuildState) :
  F' ⊆ F → built F l s → built F' l s.
Proof. intros HF (Hs & Hl & Hp). split_and!; [set_solver | done | done]. Qed.

Lemma returns_staticPages (F : gset jsstring) (l : list jsstring) :
  returns (built F l)
    (forEach (λ path, lastmod ← nowIso world;
                      pushPage {| file := path; lastmod := lastmod |})
       staticPages)
    (λ _, built F (l ++ staticPages)).
Proof.
  pose proof (returns_forEach (λ visited, built F (l ++ visited))) as Hloop.
  eapply returns_weaken; [apply (Hloop _ staticPages) with (visited := []) | ..].
  - intros visited path _. eapply returns_bind.
    + apply returns_nowIso, built_tick.
    + intros iso. apply returns_pre. intros Hiso. rewrite app_assoc.
      by apply (returns_pushPage F _ {| file := path; lastmod := iso |}).
  - intros s. by rewrite app_nil_r.
  - done.
Qed.

Lemma returns_copyAssets (F : gset jsstring) (l : list jsstring)
    (files : list (jsstring * jsstring)) :
  w_assets world = Some files →
  returns (built F l) (copyAssets world) (λ _, built F l).
Proof.
  intros Hfiles. unfold copyAssets. rewrite Hfiles.
  pose proof (returns_forEach (A := jsstring * jsstring)
                (λ _, built F l)) as Hloop.
  apply (Hloop _ files) with (visited := []).
  intros ? f ?. eapply returns_post; [apply returns_writeFile |].
  intros ? s. apply built_weaken. set_solver.
Qed.

Lemma returns_copyAdsFile (F : gset jsstring) (l : list jsstring) :
  returns (built F l) (copyAdsFile world) (λ _, built F l).
Proof.
  unfold copyAdsFile. destruct (w_ads world); [| apply returns_ret].
  eapply returns_post; [apply returns_writeFile |].
  intros ? s. apply built_weaken. set_solver.
Qed.

Lemma returns_buildPostPages (F : gset jsstring) (l : list jsstring)
    (templates : Templates) (posts : list Post) :
  Forall (λ post, is_Some (dateOf (VStr (isoDate post)))) posts →
  returns (built F l) (buildPostPages site templates posts)
    (λ _, built (list_to_set (postFile <$> posts) ∪ F)
                (l ++ (postPage <$> posts))).
Proof.
  intros Hdates. unfold buildPostPages.
  pose proof (returns_forEach (A := Post)
    (λ visited,
       built (list_to_set (postFile <$> visited) ∪ F)
             (l ++ (postPage <$> visited)))) as Hloop.
  eapply returns_weaken; [apply (Hloop _ posts) with (visited := []) | ..].
  - intros visited post Hin.
    destruct (buildPostPage_returns templates posts post) as [html Hhtml].
    eapply returns_bind_lift; [exact Hhtml |].
    eapply returns_bind; [apply returns_writeHtml |]. intros [].
    eapply returns_post.
    + apply (returns_pushPage _ _
               {| file := postPage post; lastmod := isoDate post |}).
      rewrite Forall_forall in Hdates. by apply Hdates.
    + intros ? s. rewrite !fmap_app, (app_assoc l). apply built_weaken.
      rewrite list_to_set_app. set_solver.
  - intros s. rewrite app_nil_r. apply built_weaken. set_solver.
  - done.
Qed.

Lemma returns_buildTagPages (F : gset jsstring) (l : list jsstring)
    (templates : Templates) (tagsMap : tagsmap) :
  returns (built F l) (buildTagPages site world templates tagsMap)
    (λ _, built (list_to_set (tagFile <$> obj_keys tagsMap) ∪ F)
                (l ++ (tagPage <$> obj_keys tagsMap))).
Proof.
  unfold buildTagPages, obj_entries, obj_keys.
  pose proof (returns_forEach (A := jsstring * list TagEntry)
    (λ visited,
       built (list_to_set (tagFile <$> visited.*1) ∪ F)
             (l ++ (tagPage <$> visited.*1)))) as Hloop.
  eapply returns_weaken; [apply (Hloop _ tagsMap) with (visited := []) | ..].
  - intros visited [tag entries] _.
    destruct (buildTagPage_returns templates tag entries) as [html Hhtml].
    eapply returns_bind_lift; [exact Hhtml |].
    eapply returns_bind; [apply returns_writeHtml |]. intros [].
    eapply returns_bind; [apply returns_nowIso, built_tick |].
    intros iso. apply returns_pre. intros Hiso.
    eapply returns_post.
    + by apply (returns_pushPage _ _
                  {| file := tagPage tag; lastmod := iso |}).
    + intros ? s. rewrite !fmap_app, (app_assoc l). apply built_weaken.
      rewrite list_to_set_app. set_solver.
  - intros s. rewrite app_nil_r. apply built_weaken. set_solver.
  - done.
Qed.

(** *** The writers *)

Lemma writers_return (time : Z) (posts : list Post) :
  (∃ text, writeRobots site = Ok text) ∧
  (∃ text, writeRss site time posts = Ok text).
Proof.
  unfold writeRobots, writeRss. split; urls_return; by eexists.
Qed.

Lemma returns_now (P : BuildState → Prop) :
  (∀ s, P s → P {| out := out s; pages := pages s; ticks := S (ticks s);
                   console := console s |}) →
  returns P (now world) (λ _, P).
Proof. intros HP s Hs. eexists _, _. split; [done |]. auto. Qed.

(** The build directory holds the files of [M] with their content, and
    [pages] satisfies [Φ]. *)
Definition kept (M : gmap jsstring jsstring) (Φ : list PageRef → Prop)
    (s : BuildState) : Prop :=
  M ⊆ out s ∧ Φ (pages s).

Lemma kept_writeFile (M : gmap jsstring jsstring) (Φ : list PageRef → Prop)
    (path content : jsstring) :
  returns (kept M Φ) (writeFile path content)
    (λ _, kept (<[path:=content]> M) Φ).
Proof.
  apply returns_modify. intros s [HM HΦ]. split; [| done].
  by apply insert_mono.
Qed.

Lemma returns_stored (F : gset jsstring) (l : list jsstring)
    (M : gmap jsstring jsstring) (Φ : list PageRef → Prop)
    (path content : jsstring) :
  returns (λ s, built F l s ∧ kept M Φ s) (writeFile path content)
    (λ _ s, built ({[ path ]} ∪ F) l s ∧ kept (<[path:=content]> M) Φ s).
Proof. apply returns_and; [apply returns_writeFile | apply kept_writeFile]. Qed.

(** The files a build writes, apart from the assets. *)
Definition outputs (posts : list Post) (tagsMap : tagsmap) : list jsstring :=
  [js "index.html"; js "blog.html"; js "projects.html"; js "about.html"]
  ++ (postFile <$> posts) ++ (tagFile <$> obj_keys tagsMap)
  ++ [js "search-index.json"; js "tags.json"; js "sitemap.xml";
      js "robots.txt"; js "rss.xml"].

(** The same files in the order of the last write. *)
Definition written (posts : list Post) (tagsMap : tagsmap) : gset jsstring :=
  {[ js "rss.xml" ]} ∪ ({[ js "robots.txt" ]} ∪ ({[ js "sitemap.xml" ]}
  ∪ ({[ js "tags.json" ]} ∪ ({[ js "search-index.json" ]}
  ∪ (list_to_set (tagFile <$> obj_keys tagsMap)
  ∪ (list_to_set (postFile <$> posts)
  ∪ ({[ js "about.html" ]} ∪ ({[ js "projects.html" ]}
  ∪ ({[ js "blog.html" ]} ∪ ({[ js "index.html" ]} ∪ ∅)))))))))).

Lemma outputs_written (posts : list Post) (tagsMap : tagsmap) (f : jsstring) :
  f ∈ outputs posts tagsMap → f ∈ written posts tagsMap.
Proof.
  unfold outputs, written.
  rewrite !elem_of_app, !elem_of_cons, !elem_of_union, !elem_of_singleton,
    !elem_of_list_to_set, elem_of_nil.
  tauto.
Qed.

(** The derived files with their content: the two JSON files, the
    sitemap, the robots file and the feed. *)
Definition artifacts (posts : list Post) (tagsMap : tagsmap)
    (sitemap robots rss : jsstring) : gmap jsstring jsstring :=
  <[js "rss.xml" := rss]> (<[js "robots.txt" := robots]>
  (<[js "sitemap.xml" := sitemap]>
  (<[js "tags.json" := json_pretty 0 (tagsMapJson tagsMap)]>
  (<[js "search-index.json" :=
       json_pretty 0 (JArr (map searchRecordJson (buildSearchIndex posts)))]>
   ∅)))).

Lemma artifacts_lookup (posts : list Post) (tagsMap : tagsmap)
    (sitemap robots rss : jsstring) (files : gmap jsstring jsstring) :
  artifacts posts tagsMap sitemap robots rss ⊆ files →
  files !! js "search-index.json"
    = Some (json_pretty 0 (JArr (map searchRecordJson (buildSearchIndex posts))))
  ∧ files !! js "tags.json" = Some (json_pretty 0 (tagsMapJson tagsMap))
  ∧ files !! js "sitemap.xml" = Some sitemap
  ∧ files !! js "robots.txt" = Some robots
  ∧ files !! js "rss.xml" = Some rss.
Proof.
  intros Hsub. unfold artifacts in Hsub.
  split_and!; eapply lookup_weaken; try exact Hsub;
    by repeat (rewrite lookup_insert_ne by done); rewrite lookup_insert_eq.
Qed.

(** What a build that returns leaves: the files, the names in [pages],
    and the derived files computed from the posts, the tag map and the
    final value of [pages]. *)
Definition finished (posts : list Post) (tagsMap : tagsmap)
    (s : BuildState) : Prop :=
  built (written posts tagsMap)
    (staticPages ++ (postPage <$> posts) ++ (tagPage <$> obj_keys tagsMap)) s
  ∧ ∃ sitemap robots time rss,
      writeSitemap site (pages s) = Ok sitemap ∧
      writeRobots site = Ok robots ∧
      writeRss site time posts = Ok rss ∧
      artifacts posts tagsMap sitemap robots rss ⊆ out s.

Lemma main_built (templates : Templates) (posts : list Post)
    (tagsMap : tagsmap) (files : list (jsstring * jsstring)) :
  loadTemplates world = Ok templates →
  readPosts site world = Ok posts →
  w_assets world = Some files →
  buildTagsMap posts = Ok tagsMap →
  Forall (λ post, is_Some (dateOf (VStr (isoDate post)))) posts →
  returns (λ s, pages s = []) (main site world)
    (λ _, finished posts tagsMap).
Proof.
  intros Ht Hp Ha Htags Hdates. unfold main, writeJson.
  eapply returns_bind.
  { apply (returns_modify _ (built ∅ [])). intros s Hs.
    split_and!; simpl; [done | by rewrite Hs | by rewrite Hs]. }
  intros []. take Ht. take Hp. run (apply returns_staticPages).
  run (by eapply returns_copyAssets). run (apply returns_copyAdsFile).
  take Htags. cbv zeta.
  destruct (builders_return templates posts (categoriesOf posts) tagsMap)
    as ((h1 & E1) & (h2 & E2) & (h3 & E3) & (h4 & E4)).
  take E1. run (apply returns_writeHtml). take E2. run (apply returns_writeHtml).
  take E3. run (apply returns_writeHtml). take E4. run (apply returns_writeHtml).
  run (by apply returns_buildPostPages). run (apply returns_buildTagPages).
  eapply (returns_strengthen _ (λ s, built _ _ s ∧ kept ∅ (λ _, True) s)).
  { intros s Hs. split; [done |]. split; [apply map_empty_subseteq | done]. }
  run (apply returns_stored). run (apply returns_stored).
  eapply returns_bind; [apply returns_read |]. intros allPages.
  apply returns_bind_lift_state.
  { intros s [[(_ & _ & Hok) _] ->]. by apply writeSitemap_Ok. }
  intros sitemap Hsitemap.
  eapply (returns_strengthen _
            (λ s, built _ _ s
                  ∧ kept _ (λ ps, writeSitemap site ps = Ok sitemap) s)).
  { intros s [[Hb [HM _]] ->]. by split. }
  run (apply returns_stored).
  destruct (writers_return 0 posts) as [[robots Hrobots] _].
  take Hrobots. run (apply returns_stored).
  eapply returns_bind; [by apply returns_now |]. intros time.
  destruct (writers_return time posts) as [_ [rss Hrss]].
  take Hrss. run (apply returns_stored).
  apply returns_modify. intros s [(HF & Hl & Hok) [HM HΦ]].
  split; [split_and!; simpl; [done | by rewrite <- !app_assoc in Hl | done] |].
  by exists sitemap, robots, time, rss.
Qed.

(** C1: a build returns when the templates and the posts load, the
    assets exist, no tag names a property of [Object.prototype], every URL
    can be built, the minifier accepts every page and the clock and the
    posts give dates.  The build directory then holds the four pages, a
    page for every post and every tag, the two JSON files, the sitemap,
    the robots file and the feed; [pages] names the four pages, then the
    posts, then the tags; the JSON files are the search index and the tag
    map of the posts, the sitemap is the one of the final [pages], and the
    feed is the one of the posts at a reading of the clock. *)
Theorem main_returns (templates : Templates) (posts : list Post)
    (tagsMap : tagsmap) (files : list (jsstring * jsstring))
    (before : gmap jsstring jsstring) :
  loadTemplates world = Ok templates →
  readPosts site world = Ok posts →
  w_assets world = Some files →
  buildTagsMap posts = Ok tagsMap →
  Forall (λ post, is_Some (dateOf (VStr (isoDate post)))) posts →
  ∃ s sitemap robots time rss,
    main site world (initial before) = (s, Ok tt) ∧
    (∀ f, f ∈ outputs posts tagsMap → f ∈ dom (out s)) ∧
    file <$> pages s =
      staticPages ++ (postPage <$> posts) ++ (tagPage <$> obj_keys tagsMap) ∧
    writeSitemap site (pages s) = Ok sitemap ∧
    writeRobots site = Ok robots ∧
    writeRss site time posts = Ok rss ∧
    artifacts posts tagsMap sitemap robots rss ⊆ out s.
Proof.
  intros Ht Hp Ha Htags Hdates.
  destruct (main_built templates posts tagsMap files Ht Hp Ha Htags Hdates
              (initial before) eq_refl)
    as ([] & s & Hs & (HF & Hl & _) & sitemap & robots & time & rss & HA).
  exists s, sitemap, robots, time, rss. split_and!; try done; try apply HA.
  intros f Hf%outputs_written. by apply HF.
Qed.

End MainCorrect.

(** ** Failures *)

Section Failures.
Context `{!Prototype, !UrlApi, !Unicode, !DateApi, !Collation, !FrontMatter,
          !Markdown, !Minifier}.
Context (site : Site) (world : World).

(** C11: when a template or a post cannot be loaded the build ends with
    that exception, and the build directory, which was cleaned first, is
    empty: the site of the previous build is gone. *)
Theorem main_load_failure (before : gmap jsstring jsstring)
    (e : build_error) :
  loadTemplates world = Err e ∨
  (is_Ok (loadTemplates world) = true ∧ readPosts site world = Err e) →
  ∃ s, main site world (initial before) = (s, Err e) ∧ out s = ∅.
Proof.
  unfold main. rewrite build_bind_run. cbn [cleanBuildDir modify].
  intros [Ht | [Ht Hp]].
  - eexists. by rewrite Ht.
  - destruct (loadTemplates world) as [templates|]; [| done].
    eexists. by rewrite build_bind_run, Hp.
Qed.

(** The exception [e] ends the step in a state that satisfies [Q]. *)
Definition throws {A} (P : BuildState → Prop) (m : Build A)
    (e : build_error) (Q : BuildState → Prop) : Prop :=
  ∀ s, P s → ∃ s', m s = (s', Err e) ∧ Q s'.

Lemma throws_bind {A B} (P : BuildState → Prop) (m : Build A)
    (Q : A → BuildState → Prop) (f : A → Build B) (e : build_error)
    (R : BuildState → Prop) :
  returns P m Q → (∀ x, throws (Q x) (f x) e R) → throws P (m ≫= f) e R.
Proof.
  intros Hm Hf s (x & s1 & Hx & HQ)%Hm.
  destruct (Hf x s1 HQ) as (s2 & Hy & HR).
  exists s2. by rewrite build_bind_run, Hx.
Qed.

Lemma throws_bind_lift {A B} (P : BuildState → Prop)
    (r : result build_error A) (f : A → Build B) (e : build_error) :
  r = Err e → throws P (lift r ≫= f) e P.
Proof. intros -> s Hs. by exists s. Qed.

Lemma throws_bind_lift_Ok {A B} (P : BuildState → Prop)
    (r : result build_error A) (x : A) (f : A → Build B) (e : build_error)
    (R : BuildState → Prop) :
  r = Ok x → throws P (f x) e R → throws P (lift r ≫= f) e R.
Proof. intros -> Hf s Hs. exact (Hf s Hs). Qed.

(** The build directory holds exactly the files [D]. *)
Definition holds (D : gset jsstring) (s : BuildState) : Prop :=
  dom (out s) = D.

Lemma holds_writeFile (D : gset jsstring) (path content : jsstring) :
  returns (holds D) (writeFile path content) (λ _, holds ({[ path ]} ∪ D)).
Proof.
  apply returns_modify. unfold holds. intros s <-. simpl. set_solver.
Qed.

Lemma holds_staticPages (D : gset jsstring) :
  returns (holds D)
    (forEach (λ path, lastmod ← nowIso world;
                      pushPage {| file := path; lastmod := lastmod |})
       staticPages)
    (λ _, holds D).
Proof.
  apply (returns_forEach (λ _, holds D) _ staticPages) with (visited := []).
  intros ? path ?. eapply (returns_bind _ _ (λ _, holds D)).
  - intros s Hs. by eexists _, _.
  - intros iso. by apply returns_modify.
Qed.

Definition assetFiles (files : list (jsstring * jsstring)) : gset jsstring :=
  list_to_set ((λ f, js "assets/" ++ f.1) <$> files).

Lemma holds_copyAssets (D : gset jsstring)
    (files : list (jsstring * jsstring)) :
  w_assets world = Some files →
  returns (holds D) (copyAssets world) (λ _, holds (assetFiles files ∪ D)).
Proof.
  intros Hfiles. unfold copyAssets. rewrite Hfiles.
  eapply returns_weaken.
  - apply (returns_forEach (λ visited, holds (assetFiles visited ∪ D))
             _ files) with (visited := []).
    intros visited f _. eapply returns_post; [apply holds_writeFile |].
    intros ? s. unfold holds, assetFiles. intros ->.
    rewrite fmap_app, list_to_set_app_L. set_solver.
  - unfold holds, assetFiles. intros s <-. set_solver.
  - done.
Qed.

Definition adsFile : gset jsstring :=
  match w_ads world with Some _ => {[ js "ads.txt" ]} | None => ∅ end.

Lemma holds_copyAdsFile (D : gset jsstring) :
  returns (holds D) (copyAdsFile world)
    (λ _, holds (adsFile ∪ D)).
Proof.
  unfold copyAdsFile, adsFile. destruct (w_ads world).
  - apply holds_writeFile.
  - eapply returns_post; [apply returns_ret |].
    unfold holds. intros ? s <-. set_solver.
Qed.

(** C27: when [buildTagsMap] throws, the build ends after the assets are
    copied: the build directory holds the assets and [ads.txt] and no page
    at all, whatever it held before. *)
Theorem main_tags_failure (templates : Templates) (posts : list Post)
    (files : list (jsstring * jsstring)) (before : gmap jsstring jsstring)
    (e : build_error) :
  loadTemplates world = Ok templates →
  readPosts site world = Ok posts →
  w_assets world = Some files →
  buildTagsMap posts = Err e →
  ∃ s, main site world (initial before) = (s, Err e) ∧
       dom (out s) =
         adsFile ∪ assetFiles files.
Proof.
  intros Ht Hp Ha Htags.
  assert (throws (λ _, True) (main site world) e
            (holds (adsFile
                    ∪ (assetFiles files ∪ ∅)))) as Hmain.
  { unfold main. eapply throws_bind.
    { apply (returns_modify _ (holds ∅)). intros s _. apply dom_empty_L. }
    intros []. eapply throws_bind_lift_Ok; [exact Ht |].
    eapply throws_bind_lift_Ok; [exact Hp |].
    eapply throws_bind; [apply holds_staticPages |]. intros [].
    eapply throws_bind; [by apply holds_copyAssets |]. intros [].
    eapply throws_bind; [apply holds_copyAdsFile |]. intros [].
    by apply throws_bind_lift. }
  destruct (Hmain (initial before) I) as (s & Hs & Hd).
  exists s. split; [done |]. unfold holds in Hd. rewrite Hd. set_solver.
Qed.

End Failures.

(** ** The categories *)

Lemma uniqueValues_elem_of (seen : gset jsstring) (values : list jsstring)
    (v : jsstring) :
  v ∈ uniqueValues seen values ↔ v ∈ values ∧ v ∉ seen.
Proof.
  revert seen. induction values as [|x rest IH]; intros seen; simpl.
  - rewrite elem_of_nil. naive_solver.
  - case_decide as Hs; rewrite ?elem_of_cons, IH.
    + split; [naive_solver |]. intros [[-> | ?] ?]; [done | auto].
    + rewrite not_elem_of_union, not_elem_of_singleton.
      destruct (decide (v = x)); naive_solver.
Qed.

Lemma uniqueValues_NoDup (seen : gset jsstring) (values : list jsstring) :
  NoDup (uniqueValues seen values).
Proof.
  revert seen. induction values as [|x rest IH]; intros seen; simpl.
  - constructor.
  - case_decide; [done |]. constructor; [| done].
    rewrite uniqueValues_elem_of. set_solver.
Qed.

(** The categories of the filter are the categories of the posts,
    each once, in the order of [localeCompare]. *)
Theorem categoriesOf_spec `{!Collation} (posts : list Post) :
  NoDup (categoriesOf posts) ∧
  StronglySorted (cmp_le localeCompare) (categoriesOf posts) ∧
  ∀ c, c ∈ categoriesOf posts ↔ ∃ post, post ∈ posts ∧ category post = c.
Proof.
  unfold categoriesOf. split_and!.
  - rewrite js_sort_perm. apply uniqueValues_NoDup.
  - apply js_sort_sorted, _.
  - intros c. rewrite js_sort_elem_of, uniqueValues_elem_of.
    rewrite list_elem_of_In, in_map_iff. setoid_rewrite <- list_elem_of_In.
    set_solver.
Qed.

(** ** Evaluation *)

(** A minifier that returns its input. *)
Definition id_minifier : Minifier := {| minify html := Some html |}.

Definition demo_world (posts : list (jsstring * jsstring)) : World := {|
  w_templates :=
    [ (js "base.html", t_base demo_templates);
      (js "index.html", t_index demo_templates);
      (js "blog.html", t_blog demo_templates);
      (js "post.html", t_post demo_templates);
      (js "projects.html", t_projects demo_templates);
      (js "about.html", t_about demo_templates);
      (js "tag.html", t_tag demo_templates) ];
  w_posts := Some posts;
  w_assets := Some [(js "css/styles.css", js "body{}")];
  w_ads := None;
  w_clock n := (1000 + Z.of_nat n)%Z
|}.

Definition demo_main (posts : list (jsstring * jsstring))
    : BuildState * result build_error unit :=
  main (H := v8_prototype) (H0 := simple_url) (H1 := ascii_unicode)
    (H2 := ms_dates) (H3 := codeunit_collation) (H4 := demo_matter)
    (H5 := id_markdown) (H6 := id_minifier) demo_site (demo_world posts)
    (initial {[ js "old.html" := js "old" ]}).

Lemma demo_urls_return (v : jsval) :
  is_Ok (absoluteUrlOf (H0 := simple_url) demo_site v) = true.
Proof.
  unfold absoluteUrlOf, toAbsoluteUrl.
  destruct (is_http_url (toStr v)); [done |].
  cbn [urlToString simple_url]. by destruct (is_http_url _).
Qed.

Definition demo_dir : list (jsstring * jsstring) :=
  [(js "a.md", js "A"); (js "b.md", js "B")].

Definition demo_built_posts : list Post := or_nil (demo_loadPosts demo_dir).

Definition demo_built_tags : tagsmap :=
  match buildTagsMap (H := codeunit_collation) demo_built_posts with
  | Ok tagsMap => tagsMap
  | Err _ => []
  end.

Lemma main_returns_witness :
  ∃ s sitemap robots time rss,
    demo_main demo_dir = (s, Ok tt) ∧
    (∀ f, f ∈ outputs (H1 := ascii_unicode) demo_built_posts demo_built_tags
          → f ∈ dom (out s)) ∧
    file <$> pages s =
      staticPages ++ (postPage <$> demo_built_posts)
      ++ (tagPage (H1 := ascii_unicode) <$> obj_keys demo_built_tags) ∧
    writeSitemap (H := simple_url) (H0 := ms_dates) demo_site (pages s)
      = Ok sitemap ∧
    writeRobots (H := simple_url) demo_site = Ok robots ∧
    writeRss (H := simple_url) (H0 := ms_dates) demo_site time
      demo_built_posts = Ok rss ∧
    artifacts demo_built_posts demo_built_tags sitemap robots rss ⊆ out s.
Proof.
  apply (main_returns (H := v8_prototype) (H0 := simple_url)
           (H1 := ascii_unicode) (H2 := ms_dates)
           (H3 := codeunit_collation) (H4 := demo_matter)
           (H5 := id_markdown) (H6 := id_minifier) demo_site
           (demo_world demo_dir)
           demo_urls_return (λ html, mk_is_Some _ _ eq_refl)
           (λ n, ms_dates_parse _)
           demo_templates demo_built_posts demo_built_tags
           [(js "css/styles.css", js "body{}")]);
    [by vm_compute | by vm_compute | done | by vm_compute |].
  repeat constructor; apply ms_dates_parse.
Defined.

Lemma main_load_failure_witness :
  ∃ s, demo_main [(js "d.md", js "D")]
       = (s, Err (MissingFields (js "d.md")
                    [js "date"; js "category"; js "summary";
                     js "readingTime"; js "tags"; js "coverImage"]))
       ∧ out s = ∅.
Proof.
  apply (main_load_failure (H := v8_prototype) (H0 := simple_url)
           (H1 := ascii_unicode) (H2 := ms_dates)
           (H3 := codeunit_collation) (H4 := demo_matter)
           (H5 := id_markdown) (H6 := id_minifier) demo_site
           (demo_world [(js "d.md", js "D")]) {[ js "old.html" := js "old" ]}).
  right. split; by vm_compute.
Defined.

(** Two posts whose file names have one slug, and a post with the tag
    [constructor]. *)
Definition titled (name date tag : jsstring) : jsobject jsval :=
  [ (js "title", VStr name);
    (js "date", VNum date true);
    (js "category", VStr (js "Tech"));
    (js "summary", VStr (js "S"));
    (js "readingTime", VStr (js "1 min"));
    (js "tags", VArr [VStr tag]);
    (js "coverImage", VStr (js "/c.png")) ].

Definition titled_matter : FrontMatter :=
  table_matter
    [ (js "1", (titled (js "First") (js "100") (js "x"), js "one"));
      (js "2", (titled (js "Second") (js "200") (js "x"), js "two"));
      (js "3", (titled (js "Third") (js "300") (js "constructor"), js "three")) ].

Definition titled_main (posts : list (jsstring * jsstring))
    : BuildState * result build_error unit :=
  main (H := v8_prototype) (H0 := simple_url) (H1 := ascii_unicode)
    (H2 := ms_dates) (H3 := codeunit_collation) (H4 := titled_matter)
    (H5 := id_markdown) (H6 := id_minifier) demo_site (demo_world posts)
    (initial ∅).


Lemma main_tags_failure_witness :
  ∃ s, titled_main [(js "c.md", js "3")]
       = (s, Err (TypeError (js "tagsMap[tag].push is not a function")))
       ∧ dom (out s) = adsFile (demo_world [(js "c.md", js "3")])
                       ∪ assetFiles [(js "css/styles.css", js "body{}")].
Proof.
  eapply (main_tags_failure (H := v8_prototype) (H0 := simple_url)
            (H1 := ascii_unicode) (H2 := ms_dates)
            (H3 := codeunit_collation) (H4 := titled_matter)
            (H5 := id_markdown) (H6 := id_minifier) demo_site
            (demo_world [(js "c.md", js "3")]) demo_templates
            (or_nil (loadPosts (H := ascii_unicode) (H0 := simple_url)
                       (H1 := ms_dates) (H2 := titled_matter)
                       (H3 := id_markdown) demo_site [(js "c.md", js "3")]))
            [(js "css/styles.css", js "body{}")] ∅);
    [by vm_compute | by vm_compute | done | by vm_compute].
Defined.
