(* ===== verification/Search.v ===== *)
(** * The search widget

    [src/src/assets/js/search.js] reads [search-index.json] and
    [tags.json], filters the records by category, tag and search term, and
    writes the cards of the result into the page.  The records are those
    [buildSearchIndex] wrote; Fuse.js, which ranks the records for a term,
    is a type class whose law says that it returns records of the index.
    The file proves that the widget reads back the index the generator
    wrote, that it escapes as the generator does, what the filters return,
    and that every option the generator put in the filters of the blog
    page has a result. *)

From Stdlib Require Import NArith ZArith Ascii String List Lia.
From stdpp Require Import base tactics numbers option list sorting gmap sets.
From S2P Require Import Prelude Runtime JsObject Escape Sorting Slug Url Markup.
From S2P Require Import Posts Related Tags Template Feeds Json Pages Build.

(** The options of [new window.Fuse(index, options)]: the threshold and
    the weight of each key, in hundredths. *)
Record FuseOptions : Type := {
  threshold : N;
  includeScore : bool;
  keys : list (jsstring * N)
}.

Definition fuseOptions : FuseOptions := {|
  threshold := 35;
  includeScore := true;
  keys := [ (js "title", 45%N); (js "summary", 25%N); (js "tags", 20%N);
            (js "category", 10%N) ]
|}.

(** [new Fuse(index, options).search(term)], the items of the result in
    rank order. *)
Class Fuse : Type := {
  fuseSearch : FuseOptions → list SearchRecord → jsstring → list SearchRecord;
  fuseSearch_items : ∀ options index term record,
    record ∈ fuseSearch options index term → record ∈ index
}.

(** What the widget shows: the content of the results element and the
    text of the counter. *)
Record View : Type := {
  innerHTML : jsstring;
  countText : jsstring
}.

(** ** Reading the index *)

(** [response.json()] on the text of [search-index.json]: the array of
    the objects [JSON.parse] creates, a property set once per member of
    the text, read as the records of the widget. *)
Definition jsonString (j : json) : option jsstring :=
  match j with JStr s => Some s | _ => None end.

Definition jsonStrings (j : json) : option (list jsstring) :=
  match j with JArr items => mapM jsonString items | _ => None end.

Definition jsonStringMap (j : json) : option (jsobject jsstring) :=
  match j with
  | JObj fields =>
      obj_fromEntries <$>
        mapM (λ field, value ← jsonString field.2; Some (field.1, value)) fields
  | _ => None
  end.

Definition recordOfJson (j : json) : option SearchRecord :=
  match j with
  | JObj fields =>
      let object := obj_fromEntries fields in
      title ← obj_get (js "title") object ≫= jsonString;
      summary ← obj_get (js "summary") object ≫= jsonString;
      tags ← obj_get (js "tags") object ≫= jsonStrings;
      category ← obj_get (js "category") object ≫= jsonString;
      url ← obj_get (js "url") object ≫= jsonString;
      date ← obj_get (js "date") object ≫= jsonString;
      coverImage ← obj_get (js "coverImage") object ≫= jsonString;
      tagSlugs ← obj_get (js "tagSlugs") object ≫= jsonStringMap;
      Some {| srTitle := title; srSummary := summary; srTags := tags;
              srCategory := category; srUrl := url; srDate := date;
              srCoverImage := coverImage; srTagSlugs := tagSlugs |}
  | _ => None
  end.

Definition indexOfJson (j : json) : option (list SearchRecord) :=
  match j with JArr items => mapM recordOfJson items | _ => None end.

Definition readIndex (text : jsstring) : option (list SearchRecord) :=
  json_parse text ≫= indexOfJson.

Section Widget.
Context `{!Prototype, !Fuse}.

(** [window.__SITE_BASE_PATH__ || ''] and the message of the results
    element. *)
Context (basePath emptyMessage : jsstring).

Definition safePath (path : jsstring) : jsstring :=
  if nonempty basePath then basePath ++ path else path.

(** [String(value ?? '')] followed by the five passes. *)
Definition esc (value : jsval) : jsstring :=
  let text := match value with VUndefined | VNull => [] | _ => toStr value end in
  replace_each (N.eqb 39) (js "&#39;")
    (replace_each (N.eqb 34) (js "&quot;")
      (replace_each (N.eqb 62) (js "&gt;")
        (replace_each (N.eqb 60) (js "&lt;")
          (replace_each (N.eqb 38) (js "&amp;") text)))).

(** [(post.tagSlugs || {})[tag] || '']. *)
Definition cardSlug (post : SearchRecord) (tag : jsstring) : jsstring :=
  match obj_read tag (srTagSlugs post) with
  | Own tagSlug => tagSlug
  | Inherited => protoText tag
  | Missing => []
  end.

Definition cardTag (post : SearchRecord) (tag : jsstring) : jsstring :=
  js "<a class=" ++ [dquote] ++ js "tag-link" ++ [dquote] ++ js " href="
  ++ [dquote] ++ safePath (js "/tags/" ++ cardSlug post tag ++ js ".html")
  ++ [dquote] ++ js ">#" ++ esc (VStr tag) ++ js "</a>".

Definition cardTags (post : SearchRecord) : jsstring :=
  join [] (map (cardTag post) (srTags post)).

Definition toCardHtml (post : SearchRecord) : jsstring :=
  [newline] ++ js "      <article class=" ++ [dquote] ++ js "article-card"
  ++ [dquote] ++ js ">" ++ [newline] ++ js "        <img class=" ++ [dquote]
  ++ js "card-cover" ++ [dquote] ++ js " src=" ++ [dquote]
  ++ esc (VStr (srCoverImage post)) ++ [dquote] ++ js " alt=" ++ [dquote]
  ++ js "Capa de " ++ esc (VStr (srTitle post)) ++ [dquote] ++ js " loading="
  ++ [dquote] ++ js "lazy" ++ [dquote] ++ js ">" ++ [newline]
  ++ js "        <div class=" ++ [dquote] ++ js "card-body" ++ [dquote]
  ++ js ">" ++ [newline] ++ js "          <p class=" ++ [dquote]
  ++ js "card-meta" ++ [dquote] ++ js ">" ++ esc (VStr (srCategory post))
  ++ js " " ++ [183%N] ++ js " " ++ esc (VStr (srDate post)) ++ js "</p>"
  ++ [newline] ++ js "          <h2 class=" ++ [dquote] ++ js "card-title"
  ++ [dquote] ++ js "><a href=" ++ [dquote] ++ esc (VStr (srUrl post))
  ++ [dquote] ++ js ">" ++ esc (VStr (srTitle post)) ++ js "</a></h2>"
  ++ [newline] ++ js "          <p class=" ++ [dquote] ++ js "card-summary"
  ++ [dquote] ++ js ">" ++ esc (VStr (srSummary post)) ++ js "</p>"
  ++ [newline] ++ js "          <div class=" ++ [dquote] ++ js "tags-row"
  ++ [dquote] ++ js ">" ++ cardTags post ++ js "</div>" ++ [newline]
  ++ js "        </div>" ++ [newline] ++ js "      </article>" ++ [newline]
  ++ js "    ".

Definition render (posts : list SearchRecord) : View :=
  match posts with
  | [] =>
      {| innerHTML :=
          js "<p class=" ++ [dquote] ++ js "empty-state" ++ [dquote] ++ js ">"
          ++ emptyMessage ++ js "</p>";
         countText := js "0 artigo(s)" |}
  | _ =>
      {| innerHTML := join [] (map toCardHtml posts);
         countText :=
          decimal (N.of_nat (length posts)) ++ js " artigo(s)" |}
  end.

(** [applyFilters] for the values of the three controls; an empty value of
    a filter selects every record. *)
Definition scopedBy (category tag : jsstring) (index : list SearchRecord)
    : list SearchRecord :=
  let byCategory :=
    if nonempty category
    then List.filter (λ post, bool_decide (srCategory post = category)) index
    else index in
  if nonempty tag
  then List.filter (λ post, bool_decide (tag ∈ srTags post)) byCategory
  else byCategory.

Definition filtered (index : list SearchRecord)
    (inputValue category tag : jsstring) : list SearchRecord :=
  let term := trim inputValue in
  let scoped := scopedBy category tag index in
  if nonempty term then
    let scopedUrls : gset jsstring := list_to_set (map srUrl scoped) in
    List.filter (λ post, bool_decide (srUrl post ∈ scopedUrls))
      (fuseSearch fuseOptions index term)
  else scoped.

Definition applyFilters (index : list SearchRecord)
    (inputValue category tag : jsstring) : View :=
  render (filtered index inputValue category tag).

(** The options the widget adds to the tag filter. *)
Definition tagOption (tag : jsstring) : jsstring :=
  js "<option value=" ++ [dquote] ++ esc (VStr tag) ++ [dquote] ++ js ">"
  ++ esc (VStr tag) ++ js "</option>".

Definition tagOptionsHtml `{!Collation} (tagMap : json) : jsstring :=
  join [] (map tagOption (js_sort localeCompare (json_keys tagMap))).

End Widget.

(** ** The widget escapes as the generator does *)

Lemma esc_escapeHtml `{!Prototype, !Fuse} (s : jsstring) :
  esc (VStr s) = escapeHtml s.
Proof. done. Qed.

Lemma markup_count_esc `{!Prototype, !Fuse} (s : jsstring) :
  markup_count (esc (VStr s)) = 0.
Proof. rewrite esc_escapeHtml. apply markup_count_escapeHtml. Qed.

(** ** The filters *)

Section Filters.
Context `{!Prototype, !Fuse}.
Implicit Types (index : list SearchRecord) (record : SearchRecord).

(** A record passes the two selectors. *)
Definition selected (category tag : jsstring) (record : SearchRecord)
    : Prop :=
  (category = [] ∨ srCategory record = category) ∧
  (tag = [] ∨ tag ∈ srTags record).

Lemma nonempty_false_iff (s : jsstring) : nonempty s = false ↔ s = [].
Proof. by destruct s. Qed.

Lemma scopedBy_elem_of (category tag : jsstring) index record :
  record ∈ scopedBy category tag index ↔
  record ∈ index ∧ selected category tag record.
Proof.
  unfold scopedBy, selected.
  destruct category as [|c category], tag as [|t tag];
    change (nonempty []) with false; rewrite ?nonempty_cons;
    rewrite ?list_elem_of_In, ?filter_In, ?bool_decide_eq_true,
      <- ?list_elem_of_In;
    intuition congruence.
Qed.

Lemma scopedBy_sublist (category tag : jsstring) index :
  scopedBy category tag index `sublist_of` index.
Proof.
  assert (∀ (P : SearchRecord → bool) l, List.filter P l `sublist_of` l)
    as Hfilter.
  { intros P l. induction l as [|x l IH]; simpl; [done |].
    destruct (P x); [by apply sublist_skip | by apply sublist_cons]. }
  unfold scopedBy. repeat case_match; try done; try apply Hfilter.
  etrans; apply Hfilter.
Qed.

(** Without a search term the widget shows the records of the index
    that pass the selected category and the selected tag, in the order of
    the index, which is the order of the posts. *)
Theorem filtered_no_term index (inputValue category tag : jsstring) record :
  trim inputValue = [] →
  filtered index inputValue category tag `sublist_of` index ∧
  (record ∈ filtered index inputValue category tag ↔
   record ∈ index ∧ selected category tag record).
Proof.
  intros Hterm. unfold filtered. rewrite Hterm.
  change (nonempty []) with false. cbv iota. split.
  - apply scopedBy_sublist.
  - apply scopedBy_elem_of.
Qed.

(** C20: with a search term the widget shows, in the order of Fuse, the
    records Fuse returns whose URL is the URL of a record that passes the
    selectors; every record shown is a record of the index. *)
Theorem filtered_term index (inputValue category tag : jsstring) record :
  trim inputValue ≠ [] →
  record ∈ filtered index inputValue category tag ↔
  record ∈ fuseSearch fuseOptions index (trim inputValue) ∧ record ∈ index ∧
  ∃ other, other ∈ index ∧ selected category tag other ∧
           srUrl other = srUrl record.
Proof.
  intros Hterm. unfold filtered.
  destruct (trim inputValue) as [|c term] eqn:E; [done |].
  rewrite nonempty_cons.
  rewrite list_elem_of_In, filter_In, <- list_elem_of_In.
  rewrite bool_decide_eq_true, elem_of_list_to_set.
  change (map srUrl ?l) with (srUrl <$> l). rewrite list_elem_of_fmap.
  setoid_rewrite scopedBy_elem_of. split.
  - intros [Hr (other & Hurl & Hin & Hsel)].
    split_and!; [done | by eapply fuseSearch_items | by exists other].
  - intros (Hr & _ & other & Hin & Hsel & Hurl). split; [done |].
    by exists other.
Qed.

End Filters.

(** ** The widget and the generator *)

Section Generator.
Context `{!Prototype, !Fuse, !UrlApi, !Unicode, !DateApi, !Collation}.
Context (site : Site).

Lemma safePath_basePath (path : jsstring) :
  safePath (basePath site) path = basePath site ++ path.
Proof. unfold safePath. by destruct (basePath site). Qed.

Lemma cardTag_tagLink (post : Post) (tag : jsstring) :
  post_wf site post → tag ∈ tags post →
  cardTag (basePath site) (searchRecord post) tag = tagLink site post tag.
Proof.
  intros Hwf Hin. unfold cardTag, tagLink.
  rewrite safePath_basePath, (tagSlugText_own site post tag Hwf Hin).
  rewrite (tag_url site). unfold cardSlug, obj_read.
  cbn [searchRecord srTagSlugs].
  by rewrite (wf_tagSlugs site post Hwf), decide_True.
Qed.

Lemma cardTags_tagLinks_eq (post : Post) :
  post_wf site post →
  cardTags (basePath site) (searchRecord post) = tagLinks site post.
Proof.
  intros Hwf. unfold cardTags, tagLinks. cbn [searchRecord srTags]. f_equal.
  apply map_ext_in. intros tag Hin%list_elem_of_In. by apply cardTag_tagLink.
Qed.

(** The tag links of a card of the widget are those of the card the
    generator renders for the same post, when the page gives the widget the
    base path of the site. *)
Theorem cardTags_tagLinks (post : Post) :
  post_wf site post →
  cardTags (basePath site) (searchRecord post) = tagLinks site post.
Proof. apply cardTags_tagLinks_eq. Qed.

(** C32: the card the widget renders for the record of a loaded post has
    the markup of the card the generator renders for the post, whatever
    the post says. *)
Theorem toCardHtml_markup (post : Post) :
  post_wf site post → markup_count (basePath site) = 0 →
  markup_count (toCardHtml (basePath site) (searchRecord post))
  = markup_count (renderArticleCard site post).
Proof.
  intros Hwf Hbase. rewrite renderArticleCard_count by done.
  unfold toCardHtml. rewrite cardTags_tagLinks_eq by done. count_markup.
  rewrite !markup_count_esc, tagLinks_markup by done. eval_markup. lia.
Qed.

(** C19: every option the generator puts in the filters of the blog page
    has a result: a category of [categoriesOf] and a tag of the tag map,
    when not empty, select at least one record of the search index. *)
Theorem options_have_results (posts : list Post) (tagsMap : tagsmap)
    (value : jsstring) :
  buildTagsMap posts = Ok tagsMap → value ≠ [] →
  (value ∈ categoriesOf posts →
   ∃ record, record ∈ filtered (buildSearchIndex posts) [] value []) ∧
  (value ∈ obj_keys tagsMap →
   ∃ record, record ∈ filtered (buildSearchIndex posts) [] [] value).
Proof.
  intros Htags Hne. unfold filtered. change (trim []) with (@nil N).
  change (nonempty []) with false. cbv iota.
  setoid_rewrite scopedBy_elem_of. unfold buildSearchIndex, selected. split.
  - intros (post & Hin & Hc)%categoriesOf_spec. exists (searchRecord post).
    split; [by apply list_elem_of_In, in_map, list_elem_of_In |].
    split; [by right | by left].
  - intros Hkey%obj_get_is_Some.
    rewrite (buildTagsMap_get _ _ _ Htags) in Hkey.
    case_decide as Hall; [| by destruct Hkey].
    apply elem_of_all_tags in Hall as (post & Hin & Htag).
    exists (searchRecord post).
    split; [by apply list_elem_of_In, in_map, list_elem_of_In |].
    split; [by left | by right].
Qed.

End Generator.

(** ** The widget reads the index the generator wrote *)

Lemma jsonStrings_JStr (l : list jsstring) :
  jsonStrings (JArr (map JStr l)) = Some l.
Proof.
  cbn [jsonStrings]. apply mapM_Some. induction l; by constructor.
Qed.

Lemma jsonStringMap_entries (o : jsobject jsstring) :
  obj_wf o →
  jsonStringMap (JObj (map (λ kv, (kv.1, JStr kv.2)) (obj_entries o))) = Some o.
Proof.
  intros Hwf. cbn [jsonStringMap].
  assert (mapM (λ field : jsstring * json,
                  value ← jsonString field.2; Some (field.1, value))
            (map (λ kv, (kv.1, JStr kv.2)) (obj_entries o))
          = Some (obj_entries o)) as ->.
  { apply mapM_Some. unfold obj_entries. clear Hwf.
    induction o as [|[k v] o IH]; by constructor. }
  cbn [fmap option_fmap option_map]. by rewrite obj_fromEntries_entries.
Qed.

Lemma searchRecordJson_wf (record : SearchRecord) :
  match searchRecordJson record with
  | JObj fields => obj_wf fields
  | _ => False
  end.
Proof.
  cbn [searchRecordJson]. split.
  - by refine (bool_decide_unpack (NoDup _) _).
  - by refine (bool_decide_unpack (StronglySorted _ _) _).
Qed.

Lemma recordOfJson_searchRecordJson (record : SearchRecord) :
  obj_wf (srTagSlugs record) →
  recordOfJson (searchRecordJson record) = Some record.
Proof.
  intros Hslugs%jsonStringMap_entries.
  pose proof (searchRecordJson_wf record) as Hfields%obj_fromEntries_entries.
  pose proof (jsonStrings_JStr (srTags record)) as Htags.
  destruct record as [title summary tags category url date coverImage tagSlugs].
  cbn [searchRecordJson recordOfJson srTitle srSummary srTags srCategory
       srUrl srDate srCoverImage srTagSlugs] in *.
  unfold obj_entries in *. rewrite Hfields. clear Hfields. revert Htags Hslugs.
  generalize (JArr (map JStr tags)).
  generalize (JObj (map (λ kv : jsstring * jsstring, (kv.1, JStr kv.2))
                      tagSlugs)).
  intros j1 j2 Htags Hslugs.
  repeat match goal with
  | |- context [obj_get ?k ?o] =>
      let v := eval vm_compute in (obj_get k o) in
      change (obj_get k o) with v
  end.
  cbn [mbind option_bind jsonString]. rewrite Htags. cbn [option_bind].
  by rewrite Hslugs.
Qed.

Lemma mapM_recordOfJson (index : list SearchRecord) :
  Forall (λ record, obj_wf (srTagSlugs record)) index →
  mapM recordOfJson (map searchRecordJson index) = Some index.
Proof.
  intros Hwf. apply mapM_Some.
  induction Hwf; constructor; [by apply recordOfJson_searchRecordJson | done].
Qed.

Lemma readIndex_pretty (index : list SearchRecord) :
  Forall (λ record, obj_wf (srTagSlugs record)) index →
  readIndex (json_pretty 0 (JArr (map searchRecordJson index))) = Some index.
Proof.
  intros Hwf. unfold readIndex. rewrite json_parse_written.
  cbn [mbind option_bind]. by apply mapM_recordOfJson.
Qed.

(** C14: the widget reads the index the generator wrote: for loaded posts,
    [response.json()] on the text of [search-index.json] gives the records
    of [buildSearchIndex], in their order, whatever the posts say. *)
Theorem readIndex_writeJson `{!Unicode, !DateApi} (site : Site)
    (posts : list Post) :
  Forall (post_wf site) posts →
  readIndex
    (json_pretty 0 (JArr (map searchRecordJson (buildSearchIndex posts))))
  = Some (buildSearchIndex posts).
Proof.
  intros Hwf. apply readIndex_pretty. unfold buildSearchIndex.
  apply Forall_map. eapply Forall_impl; [exact Hwf |].
  intros post Hpost. apply Hpost.
Qed.

(** ** Evaluation *)

(** A search that returns the records whose title starts with the term. *)
#[refine] Instance prefix_fuse : Fuse := {|
  fuseSearch _ index term :=
    List.filter (λ record, startsWith term (srTitle record)) index
|}.
Proof.
  intros _ index term record [Hin _]%list_elem_of_In%filter_In.
  by apply list_elem_of_In.
Defined.

Definition demo_index : list SearchRecord := buildSearchIndex demo_built_posts.

Definition demo_record : SearchRecord :=
  searchRecord (default (tag_post [] []) (head demo_built_posts)).

Lemma filtered_no_term_witness :
  filtered (H0 := prefix_fuse) demo_index (js "  ") (js "Tech") []
    `sublist_of` demo_index ∧
  (demo_record ∈ filtered (H0 := prefix_fuse) demo_index (js "  ")
                   (js "Tech") []
   ↔ demo_record ∈ demo_index ∧ selected (js "Tech") [] demo_record).
Proof.
  apply (filtered_no_term (H0 := prefix_fuse) demo_index (js "  ")
           (js "Tech") [] demo_record).
  by vm_compute.
Defined.

Lemma filtered_term_witness :
  demo_record ∈ filtered (H0 := prefix_fuse) demo_index (js "He")
                  (js "Tech") (js "y")
  ↔ demo_record ∈ fuseSearch (Fuse := prefix_fuse) fuseOptions demo_index
                    (trim (js "He"))
    ∧ demo_record ∈ demo_index
    ∧ ∃ other, other ∈ demo_index ∧ selected (js "Tech") (js "y") other
               ∧ srUrl other = srUrl demo_record.
Proof.
  apply (filtered_term (H0 := prefix_fuse) demo_index (js "He") (js "Tech")
           (js "y") demo_record).
  by vm_compute.
Defined.

Lemma cardTags_tagLinks_witness :
  cardTags (H := v8_prototype) (basePath demo_site) (searchRecord demo_postA)
  = tagLinks (H := v8_prototype) demo_site demo_postA.
Proof.
  exact (cardTags_tagLinks (H := v8_prototype) (H2 := ascii_unicode)
           (H3 := ms_dates) demo_site demo_postA demo_postA_wf).
Defined.

Lemma options_have_results_witness :
  (js "Tech" ∈ categoriesOf (H3 := codeunit_collation) demo_built_posts →
   ∃ record, record ∈ filtered (H0 := prefix_fuse) demo_index [] (js "Tech") [])
  ∧ (js "Tech" ∈ obj_keys demo_built_tags →
     ∃ record, record ∈ filtered (H0 := prefix_fuse) demo_index [] [] (js "Tech")).
Proof.
  apply (options_have_results (H0 := prefix_fuse) (H4 := codeunit_collation)
           demo_built_posts demo_built_tags (js "Tech"));
    [by vm_compute | done].
Defined.

Lemma toCardHtml_markup_witness :
  markup_count (toCardHtml (H := v8_prototype) (basePath demo_site)
                  (searchRecord demo_postA))
  = markup_count (renderArticleCard (H := v8_prototype) demo_site demo_postA).
Proof.
  apply (toCardHtml_markup (H := v8_prototype) (H0 := prefix_fuse)
           (H2 := ascii_unicode) (H3 := ms_dates) demo_site demo_postA
           demo_postA_wf).
  by vm_compute.
Defined.

Lemma readIndex_writeJson_witness :
  readIndex
    (json_pretty 0 (JArr (map searchRecordJson (buildSearchIndex [demo_postA]))))
  = Some (buildSearchIndex [demo_postA]).
Proof.
  apply (readIndex_writeJson (H := ascii_unicode) (H0 := ms_dates)
           demo_site [demo_postA]).
  constructor; [apply demo_postA_wf | constructor].
Defined.
