(* ===== verification/Widget.v ===== *)
(** * The life of the search widget

    [src/src/assets/js/search.js] is one function that runs when the blog
    page loads.  It returns at once when the page has no search root or
    Fuse.js is missing; otherwise it requests [search-index.json] and
    [tags.json], and when both requests have succeeded it fills the tag
    filter, listens to the three controls and renders the cards.  When a
    request fails the counter says that the search is unavailable.

    The file models the script as a labelled transition system.  A state
    ([Widget]) holds the phase of the script, the values of the controls,
    what the page shows and the console; an event is the end of a request
    or an action of the reader on a control.  [step] is the transition
    relation, one rule per handler of the script, and [next] the function
    that computes it.  A response whose body is valid JSON but not an
    array of records has no rule: what the script does with it depends on
    Fuse.js.

    The theorems show that [next] computes [step], that what the page
    shows always agrees with the controls, that the script does nothing on
    a page without root or without Fuse.js, that the loading phase ends
    when both requests end, and that on the files the generator wrote the
    widget shows the posts of the site. *)

From Stdlib Require Import NArith ZArith Ascii String List Lia.
From stdpp Require Import base tactics numbers option list sorting gmap sets.
From S2P Require Import Prelude Runtime JsObject Escape Sorting Slug Url Markup.
From S2P Require Import Posts Related Tags Template Feeds Json Pages Build.
From S2P Require Import Search.

(** ** The page and the requests *)

(** The element [#blog-results]: its content and its attribute
    [data-empty-message]. *)
Record ResultsElement : Type := {
  content : jsstring;
  emptyMessageAttr : option jsstring
}.

(** The page when the script starts. *)
Record Page : Type := {
  hasRoot : bool;
  hasFuse : bool;
  siteBasePath : jsval;
  resultsElement : option ResultsElement;
  initialCount : jsstring;
  initialInput : jsstring;
  initialCategory : jsstring;
  initialTag : jsstring;
  serverOptions : nat
}.

Inductive Request : Type := IndexRequest | TagsRequest.

#[export] Instance Request_eq_dec : EqDecision Request.
Proof. solve_decision. Defined.

Definition requestPath (request : Request) : jsstring :=
  match request with
  | IndexRequest => js "/search-index.json"
  | TagsRequest => js "/tags.json"
  end.

(** How a request ends: without a response, or with a status and a body. *)
Inductive Response : Type :=
  | NoResponse
  | Responded (ok : bool) (body : jsstring).

Inductive FetchError : Type :=
  | NetworkFailure
  | HttpError (path : jsstring)
  | InvalidJson.

(** The message of the error [fetchJson] throws itself. *)
Definition fetchErrorMessage (e : FetchError) : option jsstring :=
  match e with
  | HttpError path => Some (js "Erro ao buscar " ++ path)
  | _ => None
  end.

(** [fetchJson(path)] once the request has ended. *)
Definition fetchJson (path : jsstring) (response : Response)
    : result FetchError json :=
  match response with
  | NoResponse => Err NetworkFailure
  | Responded ok body =>
      if ok then
        match json_parse body with
        | Some value => Ok value
        | None => Err InvalidJson
        end
      else Err (HttpError path)
  end.

(** ** States and events *)

Inductive Phase : Type :=
  | Absent
  | Loading (index tagMap : option json)
  | Ready (index : list SearchRecord)
  | Unavailable.

Inductive LogEntry : Type :=
  | FuseMissing
  | Failure (e : FetchError).

Record Widget : Type := {
  phase : Phase;
  inputValue : jsstring;
  categoryValue : jsstring;
  tagValue : jsstring;
  addedOptions : option jsstring;
  results : option jsstring;
  count : jsstring;
  console : list LogEntry;
  requested : list jsstring
}.

Inductive Event : Type :=
  | Arrived (request : Request) (response : Response)
  | Typed (value : jsstring)
  | CategoryChanged (value : jsstring)
  | TagChanged (value : jsstring).

(** ** Updates of a state *)

Definition with_phase (p : Phase) (w : Widget) : Widget :=
  {| phase := p; inputValue := inputValue w; categoryValue := categoryValue w;
     tagValue := tagValue w; addedOptions := addedOptions w;
     results := results w; count := count w; console := console w;
     requested := requested w |}.

Definition with_controls (input category tag : jsstring) (w : Widget)
    : Widget :=
  {| phase := phase w; inputValue := input; categoryValue := category;
     tagValue := tag; addedOptions := addedOptions w; results := results w;
     count := count w; console := console w; requested := requested w |}.

Definition with_view (html : option jsstring) (text : jsstring) (w : Widget)
    : Widget :=
  {| phase := phase w; inputValue := inputValue w;
     categoryValue := categoryValue w; tagValue := tagValue w;
     addedOptions := addedOptions w; results := html; count := text;
     console := console w; requested := requested w |}.

Definition with_options (html : option jsstring) (w : Widget) : Widget :=
  {| phase := phase w; inputValue := inputValue w;
     categoryValue := categoryValue w; tagValue := tagValue w;
     addedOptions := html; results := results w; count := count w;
     console := console w; requested := requested w |}.

Definition logged (entry : LogEntry) (w : Widget) : Widget :=
  {| phase := phase w; inputValue := inputValue w;
     categoryValue := categoryValue w; tagValue := tagValue w;
     addedOptions := addedOptions w; results := results w; count := count w;
     console := console w ++ [entry]; requested := requested w |}.

Section Script.
Context `{!Prototype, !Fuse, !Collation}.
Context (page : Page).

(** [window.__SITE_BASE_PATH__ || '']. *)
Definition basePathOf : jsstring :=
  if truthy (siteBasePath page) then toStr (siteBasePath page) else [].

(** [resultsEl?.dataset?.emptyMessage || 'Nenhum resultado.']. *)
Definition emptyMessageOf : jsstring :=
  match resultsElement page ≫= emptyMessageAttr with
  | Some message => if nonempty message then message else js "Nenhum resultado."
  | None => js "Nenhum resultado."
  end.

Definition unavailable : jsstring :=
  js "Busca indispon" ++ [237%N] ++ js "vel.".

(** [render(posts)]: nothing changes without the results element. *)
Definition show (posts : list SearchRecord) (w : Widget) : Widget :=
  match results w with
  | None => w
  | Some _ =>
      let view := render basePathOf emptyMessageOf posts in
      with_view (Some (innerHTML view)) (countText view) w
  end.

(** [applyFilters()] on the values of the controls. *)
Definition refresh (index : list SearchRecord) (w : Widget) : Widget :=
  show (filtered index (inputValue w) (categoryValue w) (tagValue w)) w.

(** The listeners exist once the widget is ready. *)
Definition react (w : Widget) : Widget :=
  match phase w with
  | Ready index => refresh index w
  | _ => w
  end.

(** The body of the script up to [Promise.all]. *)
Definition start : Widget :=
  let w :=
    {| phase := Absent; inputValue := initialInput page;
       categoryValue := initialCategory page; tagValue := initialTag page;
       addedOptions := None; results := content <$> resultsElement page;
       count := initialCount page; console := []; requested := [] |} in
  if negb (hasRoot page) then w
  else if negb (hasFuse page) then logged FuseMissing w
  else
    {| phase := Loading None None; inputValue := inputValue w;
       categoryValue := categoryValue w; tagValue := tagValue w;
       addedOptions := None; results := results w; count := count w;
       console := [];
       requested := [ safePath basePathOf (requestPath IndexRequest);
                      safePath basePathOf (requestPath TagsRequest) ] |}.

(** The handler of [then]: the tag filter is filled when the page came
    with at most one option, and the cards are rendered. *)
Definition enter (index : list SearchRecord) (tagMap : json) (w : Widget)
    : Widget :=
  let options :=
    if decide (serverOptions page ≤ 1) then Some (tagOptionsHtml tagMap)
    else None in
  refresh index (with_options options (with_phase (Ready index) w)).

(** The handler of [catch]. *)
Definition fail (e : FetchError) (w : Widget) : Widget :=
  with_view (results w) unavailable
    (logged (Failure e) (with_phase Unavailable w)).

(** The slot of a request in the loading phase. *)
Definition pending (request : Request) (index tagMap : option json) : bool :=
  match request with
  | IndexRequest => bool_decide (index = None)
  | TagsRequest => bool_decide (tagMap = None)
  end.

Definition store (request : Request) (value : json)
    (index tagMap : option json) : option json * option json :=
  match request with
  | IndexRequest => (Some value, tagMap)
  | TagsRequest => (index, Some value)
  end.

(** ** The transition relation *)

Inductive step : Widget → Event → Widget → Prop :=
  | step_typed w value :
      step w (Typed value)
        (react (with_controls value (categoryValue w) (tagValue w) w))
  | step_category w value :
      step w (CategoryChanged value)
        (react (with_controls (inputValue w) value (tagValue w) w))
  | step_tag w value :
      step w (TagChanged value)
        (react (with_controls (inputValue w) (categoryValue w) value w))
  | step_rejected w request response index tagMap e :
      phase w = Loading index tagMap →
      pending request index tagMap = true →
      fetchJson (requestPath request) response = Err e →
      step w (Arrived request response) (fail e w)
  | step_first w request response index tagMap value index' tagMap' :
      phase w = Loading index tagMap →
      pending request index tagMap = true →
      fetchJson (requestPath request) response = Ok value →
      store request value index tagMap = (index', tagMap') →
      index' = None ∨ tagMap' = None →
      step w (Arrived request response)
        (with_phase (Loading index' tagMap') w)
  | step_both w request response index tagMap value indexJson tagsJson
      records :
      phase w = Loading index tagMap →
      pending request index tagMap = true →
      fetchJson (requestPath request) response = Ok value →
      store request value index tagMap = (Some indexJson, Some tagsJson) →
      indexOfJson indexJson = Some records →
      step w (Arrived request response) (enter records tagsJson w)
  | step_late w request response :
      phase w = Unavailable →
      step w (Arrived request response) w.

(** ** The transition function *)

Definition arrive (request : Request) (response : Response) (w : Widget)
    : option Widget :=
  match phase w with
  | Loading index tagMap =>
      if pending request index tagMap then
        match fetchJson (requestPath request) response with
        | Err e => Some (fail e w)
        | Ok value =>
            match store request value index tagMap with
            | (Some indexJson, Some tagsJson) =>
                records ← indexOfJson indexJson;
                Some (enter records tagsJson w)
            | (index', tagMap') => Some (with_phase (Loading index' tagMap') w)
            end
        end
      else None
  | Unavailable => Some w
  | _ => None
  end.

Definition next (w : Widget) (e : Event) : option Widget :=
  match e with
  | Typed value =>
      Some (react (with_controls value (categoryValue w) (tagValue w) w))
  | CategoryChanged value =>
      Some (react (with_controls (inputValue w) value (tagValue w) w))
  | TagChanged value =>
      Some (react (with_controls (inputValue w) (categoryValue w) value w))
  | Arrived request response => arrive request response w
  end.

(** The states the script reaches, with the events that lead to them. *)
Inductive reaches : list Event → Widget → Prop :=
  | reaches_start : reaches [] start
  | reaches_step events w e w' :
      reaches events w → step w e w' → reaches (events ++ [e]) w'.

Fixpoint run (w : Widget) (events : list Event) : option Widget :=
  match events with
  | [] => Some w
  | e :: rest => w' ← next w e; run w' rest
  end.

(** ** What the page should show *)

Definition visible (w : Widget) : option jsstring * jsstring :=
  (results w, count w).

(** The content of the results element and the text of the counter as
    functions of the phase and of the controls. *)
Definition expected (w : Widget) : option jsstring * jsstring :=
  match phase w with
  | Ready index =>
      match resultsElement page with
      | Some _ =>
          let view :=
            applyFilters basePathOf emptyMessageOf index
              (inputValue w) (categoryValue w) (tagValue w) in
          (Some (innerHTML view), countText view)
      | None => (None, initialCount page)
      end
  | Unavailable => (content <$> resultsElement page, unavailable)
  | _ => (content <$> resultsElement page, initialCount page)
  end.

(** A request has ended. *)
Definition arrived (request : Request) (events : list Event) : Prop :=
  ∃ response, Arrived request response ∈ events.

End Script.

(** ** The function computes the relation *)

Section Machine.
Context `{!Prototype, !Fuse, !Collation}.
Context (page : Page).

Lemma arrive_step (w w' : Widget) (request : Request) (response : Response) :
  arrive page request response w = Some w' ↔
  step page w (Arrived request response) w'.
Proof.
  unfold arrive. split.
  - destruct (phase w) as [|index tagMap| |] eqn:Hp; try done.
    + destruct (pending request index tagMap) eqn:Hpend; [| done].
      destruct (fetchJson _ response) as [value|e] eqn:Hf.
      * destruct (store request value index tagMap) as [[ij|] [tj|]] eqn:Hs.
        -- destruct (indexOfJson ij) as [records|] eqn:Hi; [| done].
           intros [= <-]. by eapply step_both.
        -- intros [= <-]. eapply step_first; eauto.
        -- intros [= <-]. eapply step_first; eauto.
        -- intros [= <-]. eapply step_first; eauto.
      * intros [= <-]. by eapply step_rejected.
    + intros [= <-]. by apply step_late.
  - inversion 1; subst;
      repeat match goal with
      | H : phase _ = _ |- _ => rewrite H; clear H
      | H : pending _ _ _ = _ |- _ => rewrite H; clear H
      | H : fetchJson _ _ = _ |- _ => rewrite H; clear H
      | H : store _ _ _ _ = _ |- _ => rewrite H; clear H
      | H : indexOfJson _ = _ |- _ => rewrite H; clear H
      end; try done.
    match goal with H : _ ∨ _ |- _ => by destruct index', tagMap', H end.
Qed.

Lemma next_step (w w' : Widget) (e : Event) :
  next page w e = Some w' ↔ step page w e w'.
Proof.
  destruct e as [request response|value|value|value]; cbn [next];
    [apply arrive_step | ..];
    (split; [intros [= <-]; constructor | by inversion 1]).
Qed.

Lemma run_app (w : Widget) (events more : list Event) :
  run page w (events ++ more) = run page w events ≫= λ w', run page w' more.
Proof.
  revert w. induction events as [|e events IH]; intros w; [done |].
  cbn [app run]. destruct (next page w e); [apply IH | done].
Qed.

Lemma run_reaches (events : list Event) (w : Widget) :
  run page (start page) events = Some w ↔ reaches page events w.
Proof.
  split.
  - revert w. induction events as [|e events IH] using rev_ind; intros w.
    + intros [= <-]. constructor.
    + rewrite run_app. destruct (run page (start page) events) as [w1|]; [| done].
      cbn [mbind option_bind run]. destruct (next page w1 e) as [w2|] eqn:E; [| done].
      intros [= <-]. econstructor; [by apply IH | by apply next_step].
  - induction 1 as [|events w e w' _ IH Hstep]; [done |].
    rewrite run_app, IH. cbn [mbind option_bind run].
    apply next_step in Hstep. by rewrite Hstep.
Qed.

(** ** The view agrees with the controls *)

Lemma expected_show (posts : list SearchRecord) (w : Widget) :
  expected page (show page posts w) = expected page w.
Proof. unfold show. by destruct (results w). Qed.

Lemma visible_refresh (index : list SearchRecord) (w w0 : Widget) :
  visible w = visible w0 → visible w0 = expected page w0 →
  phase w0 ≠ Unavailable → phase w = Ready index →
  visible (refresh page index w) = expected page w.
Proof.
  intros [= Hr1 Hc1] Hw0 Hu Hp.
  unfold refresh, show, expected, visible in *. rewrite Hp.
  destruct (results w) eqn:Er; cbn;
    destruct (phase w0), (resultsElement page); simplify_eq/=;
    first [done | congruence].
Qed.

Lemma visible_react (w w0 : Widget) :
  visible w = visible w0 → phase w = phase w0 →
  visible w0 = expected page w0 →
  visible (react page w) = expected page (react page w).
Proof.
  intros Hv Hp Hw0. unfold react.
  destruct (phase w) as [| | index |] eqn:E;
    try (rewrite Hv, Hw0; unfold expected; by rewrite <- Hp, E).
  unfold refresh. rewrite expected_show.
  eapply visible_refresh; [done | done | congruence | done].
Qed.

Lemma reaches_visible (events : list Event) (w : Widget) :
  reaches page events w → visible w = expected page w.
Proof.
  induction 1 as [|events w e w' _ IH Hstep].
  - unfold start. by destruct (hasRoot page), (hasFuse page).
  - inversion Hstep; subst; try done.
    1-3: by eapply visible_react; [| | exact IH].
    1-2: unfold expected, visible in *; cbn;
      match goal with Hp : phase _ = _ |- _ => rewrite Hp in IH end;
      congruence.
    unfold enter, refresh. rewrite expected_show.
    eapply visible_refresh; [| exact IH | congruence | done]. done.
Qed.

(** ** The phases and the requests *)

Lemma phase_show (posts : list SearchRecord) (w : Widget) :
  phase (show page posts w) = phase w.
Proof. unfold show. by destruct (results w). Qed.

Lemma phase_react (w : Widget) : phase (react page w) = phase w.
Proof.
  unfold react, refresh. destruct (phase w) eqn:E; try done.
  by rewrite phase_show.
Qed.

Lemma requested_show (posts : list SearchRecord) (w : Widget) :
  requested (show page posts w) = requested w.
Proof. unfold show. by destruct (results w). Qed.

Lemma addedOptions_show (posts : list SearchRecord) (w : Widget) :
  addedOptions (show page posts w) = addedOptions w.
Proof. unfold show. by destruct (results w). Qed.

Lemma console_show (posts : list SearchRecord) (w : Widget) :
  console (show page posts w) = console w.
Proof. unfold show. by destruct (results w). Qed.

Lemma phase_enter (index : list SearchRecord) (tagMap : json) (w : Widget) :
  phase (enter page index tagMap w) = Ready index.
Proof. unfold enter, refresh. by rewrite phase_show. Qed.

(** A handler of a control changes the view only. *)
Lemma react_fields (w : Widget) :
  requested (react page w) = requested w ∧
  addedOptions (react page w) = addedOptions w ∧
  console (react page w) = console w.
Proof.
  unfold react, refresh. destruct (phase w); try done.
  by rewrite requested_show, addedOptions_show, console_show.
Qed.

Lemma arrived_nil (request : Request) : ¬ arrived request [].
Proof. by intros [? ?%elem_of_nil]. Qed.

Lemma arrived_snoc (request : Request) (events : list Event) (e : Event) :
  arrived request (events ++ [e]) ↔
  arrived request events ∨ ∃ response, e = Arrived request response.
Proof.
  unfold arrived. setoid_rewrite elem_of_app. setoid_rewrite list_elem_of_singleton.
  naive_solver.
Qed.

Lemma pending_store (request : Request) (value : json)
    (index tagMap index' tagMap' : option json) :
  pending request index tagMap = true →
  store request value index tagMap = (index', tagMap') →
  (is_Some index' ↔ is_Some index ∨ request = IndexRequest) ∧
  (is_Some tagMap' ↔ is_Some tagMap ∨ request = TagsRequest).
Proof.
  destruct request; cbn; intros ->%bool_decide_eq_true [= <- <-];
    rewrite <- ?not_eq_None_Some; naive_solver.
Qed.

(** What a phase says of the page and of the requests that have ended. *)
Definition phase_inv (events : list Event) (w : Widget) : Prop :=
  match phase w with
  | Absent =>
      hasRoot page && hasFuse page = false ∧ requested w = [] ∧
      addedOptions w = None ∧
      console w = (if hasRoot page then [FuseMissing] else []) ∧
      ∀ request, ¬ arrived request events
  | Loading index tagMap =>
      hasRoot page && hasFuse page = true ∧
      (is_Some index ↔ arrived IndexRequest events) ∧
      (is_Some tagMap ↔ arrived TagsRequest events) ∧
      (index = None ∨ tagMap = None)
  | Ready _ =>
      hasRoot page && hasFuse page = true ∧
      arrived IndexRequest events ∧ arrived TagsRequest events
  | Unavailable =>
      hasRoot page && hasFuse page = true ∧ ∃ request, arrived request events
  end.

Lemma reaches_phase (events : list Event) (w : Widget) :
  reaches page events w → phase_inv events w.
Proof.
  induction 1 as [|events w e w' _ IH Hstep]; unfold phase_inv in *.
  - unfold start.
    destruct (hasRoot page), (hasFuse page); cbn;
      split_and!; try done; try (by left); try apply arrived_nil;
      (split; [by intros [? ?] | by intros ?%arrived_nil]).
  - inversion Hstep; subst;
      rewrite ?phase_react;
      repeat match goal with Hp : phase _ = _ |- _ => rewrite Hp in IH end;
      cbn [phase with_controls with_phase fail with_view logged enter].
    1-3: destruct (phase w); setoid_rewrite arrived_snoc;
      match goal with |- context [react page ?w'] =>
        destruct (react_fields w') as (-> & -> & ->) end ||  idtac;
      naive_solver.
    + destruct IH as (? & ? & ? & ?). split; [done |]. exists request.
      apply arrived_snoc. eauto.
    + destruct IH as (? & Hi & Ht & ?).
      match goal with Hs : store _ _ _ _ = _ |- _ =>
        eapply pending_store in Hs as [Hi' Ht']; [| done] end.
      setoid_rewrite arrived_snoc. rewrite Hi', Ht', Hi, Ht.
      split_and!; [done | | | done]; destruct request; naive_solver.
    + rewrite phase_enter. destruct IH as (? & Hi & Ht & ?).
      match goal with Hs : store _ _ _ _ = _ |- _ =>
        eapply pending_store in Hs as [Hi' Ht']; [| done] end.
      setoid_rewrite arrived_snoc. rewrite <- Hi, <- Ht.
      split_and!; [done | |]; destruct request; naive_solver.
    + match goal with Hp : phase _ = _ |- _ => rewrite Hp end.
      destruct IH as [? [request' ?]]. split; [done |]. exists request'.
      apply arrived_snoc. by left.
Qed.

End Machine.

(** ** The properties of a run *)

Section Properties.
Context `{!Prototype, !Fuse, !Collation}.
Context (page : Page).

(** C0: what the page shows is a function of the phase of the script and
    of the controls: after any events the results element and the counter
    hold what [applyFilters] gives for the values the controls have now,
    the message of a failed load, or what the page came with. *)
Theorem view_agrees (events : list Event) (w : Widget) :
  run page (start page) events = Some w → visible w = expected page w.
Proof. intros Hrun%run_reaches. by eapply reaches_visible. Qed.

(** C0: on a page without the search root or without Fuse.js the script
    does nothing: it makes no request, no event of a request can occur,
    and the page, the tag filter and the console stay as they were, apart
    from the one message about Fuse.js. *)
Theorem script_inert (events : list Event) (w : Widget) :
  hasRoot page && hasFuse page = false →
  run page (start page) events = Some w →
  phase w = Absent ∧ requested w = [] ∧ addedOptions w = None ∧
  visible w = (content <$> resultsElement page, initialCount page) ∧
  console w = (if hasRoot page then [FuseMissing] else []) ∧
  ∀ request, ¬ arrived request events.
Proof.
  intros Hpage Hrun%run_reaches.
  pose proof (reaches_phase page _ _ Hrun) as Hinv.
  pose proof (reaches_visible page _ _ Hrun) as Hview.
  unfold phase_inv, expected in *.
  destruct (phase w) as [|i t|i|];
    [| destruct Hinv as [Hboth _]; congruence ..].
  by destruct Hinv as (_ & Hr & Ho & Hc & Hnone).
Qed.

(** C0: the loading phase ends: once both requests have ended the widget
    is ready or says that the search is unavailable, whatever the reader
    did in between and in whatever order the requests ended. *)
Theorem loading_ends (events : list Event) (w : Widget) :
  run page (start page) events = Some w →
  arrived IndexRequest events → arrived TagsRequest events →
  (∃ index, phase w = Ready index) ∨ phase w = Unavailable.
Proof.
  intros Hrun%run_reaches Hi Ht.
  pose proof (reaches_phase page _ _ Hrun) as Hinv. unfold phase_inv in Hinv.
  destruct (phase w) as [|index tagMap|index|]; [| | by eauto | by right].
  - destruct Hinv as (_ & _ & _ & _ & Hnone). by destruct (Hnone IndexRequest).
  - destruct Hinv as (_ & Hi' & Ht' & Hnone).
    destruct (proj2 Hi' Hi) as [? Ei], (proj2 Ht' Ht) as [? Et].
    destruct Hnone; congruence.
Qed.

(** In the loading phase the end of a pending request is always handled,
    unless both bodies have been read and the index is not an array of
    records. *)
Lemma arrive_defined (w : Widget) (request : Request) (response : Response)
    (index tagMap : option json) :
  phase w = Loading index tagMap →
  pending request index tagMap = true →
  (∀ value indexJson tagsJson,
     store request value index tagMap = (Some indexJson, Some tagsJson) →
     is_Some (indexOfJson indexJson)) →
  is_Some (next page w (Arrived request response)).
Proof.
  intros Hp Hpend Hshape. cbn [next]. unfold arrive. rewrite Hp, Hpend.
  destruct (fetchJson _ response) as [value|e]; [| done].
  destruct (store request value index tagMap) as [[ij|] [tj|]] eqn:Hs; try done.
  by destruct (Hshape _ _ _ Hs) as [records ->].
Qed.

End Properties.

(** ** The widget on a generated site *)

(** A server of static files: the files of the build directory under the
    base path of the site. *)
Definition serve (files : gmap jsstring jsstring) (base url : jsstring)
    : Response :=
  if startsWith (base ++ js "/") url then
    match files !! drop (S (length base)) url with
    | Some body => Responded true body
    | None => Responded false []
    end
  else Responded false [].

Definition other (request : Request) : Request :=
  match request with
  | IndexRequest => TagsRequest
  | TagsRequest => IndexRequest
  end.

Lemma drop_past {A} (l : list A) (x : A) (r : list A) :
  drop (S (length l)) (l ++ x :: r) = r.
Proof. induction l as [|y l IH]; [done | exact IH]. Qed.

Lemma serve_file (files : gmap jsstring jsstring) (base file body : jsstring) :
  files !! file = Some body →
  serve files base (base ++ js "/" ++ file) = Responded true body.
Proof.
  intros Hfile. unfold serve.
  rewrite app_assoc, startsWith_app, <- app_assoc.
  change (js "/" ++ file) with (47%N :: file).
  by rewrite drop_past, Hfile.
Qed.

Section Arrivals.
Context `{!Prototype, !Fuse, !Collation}.
Context (page : Page).

Lemma next_first (w : Widget) (request : Request) (response : Response)
    (value : json) :
  phase w = Loading None None →
  fetchJson (requestPath request) response = Ok value →
  next page w (Arrived request response) =
    Some (with_phase
            (match request with
             | IndexRequest => Loading (Some value) None
             | TagsRequest => Loading None (Some value)
             end) w).
Proof.
  intros Hp Hf. cbn [next]. unfold arrive. rewrite Hp.
  destruct request; cbn [pending store]; by rewrite bool_decide_eq_true_2, Hf.
Qed.

Lemma next_second (w : Widget) (request : Request) (response : Response)
    (index tagMap : option json) (value indexJson tagsJson : json)
    (records : list SearchRecord) :
  phase w = Loading index tagMap →
  pending request index tagMap = true →
  fetchJson (requestPath request) response = Ok value →
  store request value index tagMap = (Some indexJson, Some tagsJson) →
  indexOfJson indexJson = Some records →
  next page w (Arrived request response) = Some (enter page records tagsJson w).
Proof.
  intros Hp Hpend Hf Hs Hi. cbn [next]. unfold arrive.
  by rewrite Hp, Hpend, Hf, Hs, Hi.
Qed.

Lemma enter_fields (index : list SearchRecord) (tagMap : json) (w : Widget) :
  inputValue (enter page index tagMap w) = inputValue w ∧
  categoryValue (enter page index tagMap w) = categoryValue w ∧
  tagValue (enter page index tagMap w) = tagValue w ∧
  addedOptions (enter page index tagMap w) =
    if decide (serverOptions page ≤ 1) then Some (tagOptionsHtml tagMap)
    else None.
Proof.
  unfold enter, refresh, show. cbn [results with_options with_phase].
  by destruct (results w).
Qed.

Context (Hroot : hasRoot page = true) (Hfuse : hasFuse page = true).

Lemma phase_start : phase (start page) = Loading None None.
Proof. unfold start. by rewrite Hroot, Hfuse. Qed.

Lemma controls_start :
  inputValue (start page) = initialInput page ∧
  categoryValue (start page) = initialCategory page ∧
  tagValue (start page) = initialTag page.
Proof. unfold start. by rewrite Hroot, Hfuse. Qed.

(** Both requests succeed, in either order. *)
Lemma run_both (first : Request) (response : Request → Response)
    (indexJson tagsJson : json) (records : list SearchRecord) :
  fetchJson (requestPath IndexRequest) (response IndexRequest) = Ok indexJson →
  fetchJson (requestPath TagsRequest) (response TagsRequest) = Ok tagsJson →
  indexOfJson indexJson = Some records →
  ∃ w, run page (start page)
         [ Arrived first (response first);
           Arrived (other first) (response (other first)) ] = Some w ∧
       phase w = Ready records ∧
       inputValue w = initialInput page ∧
       categoryValue w = initialCategory page ∧
       tagValue w = initialTag page ∧
       addedOptions w =
         if decide (serverOptions page ≤ 1) then Some (tagOptionsHtml tagsJson)
         else None.
Proof.
  intros Hi Ht Hrecords. destruct controls_start as (Hci & Hcc & Hct).
  eexists. cbn [run]. split.
  - destruct first; cbn [other].
    + rewrite (next_first _ _ _ _ phase_start Hi). cbn [mbind option_bind].
      by erewrite next_second.
    + rewrite (next_first _ _ _ _ phase_start Ht). cbn [mbind option_bind].
      by erewrite next_second.
  - rewrite phase_enter.
    destruct (enter_fields records tagsJson
                (with_phase (Loading (Some indexJson) None) (start page)))
      as (-> & -> & -> & ->).
    by rewrite <- Hci, <- Hcc, <- Hct.
Qed.

End Arrivals.

Section Generated.
Context `{!Prototype, !UrlApi, !Unicode, !DateApi, !Collation, !FrontMatter,
          !Markdown, !Minifier, !Fuse}.
Context (site : Site) (world : World) (page : Page).
Context (Hurl : ∀ v, is_Ok (absoluteUrlOf site v) = true).
Context (Hmin : ∀ html, is_Some (minify html)).
Context (Hclock : ∀ n, is_Some (dateOf (VStr (toISOString (w_clock world n))))).
Context (Hroot : hasRoot page = true) (Hfuse : hasFuse page = true).
Context (Hbase : siteBasePath page = VStr (basePath site)).

(** The response of the server to the request of the widget. *)
Definition answer (files : gmap jsstring jsstring) (request : Request)
    : Event :=
  Arrived request
    (serve files (basePath site)
       (safePath (basePathOf page) (requestPath request))).

Lemma safePath_site (path : jsstring) :
  safePath (basePathOf page) path = basePath site ++ path.
Proof.
  unfold safePath, basePathOf. rewrite Hbase. cbn [truthy toStr].
  fold (nonempty (basePath site)).
  destruct (nonempty (basePath site)) eqn:E; [by rewrite E |].
  by apply nonempty_false_iff in E as ->.
Qed.

Lemma tagOption_renderOption (tag : jsstring) : tagOption tag = renderOption tag.
Proof. unfold tagOption, renderOption. by rewrite esc_escapeHtml. Qed.

Lemma json_keys_tagsMapJson (tagsMap : tagsmap) :
  obj_wf tagsMap → json_keys (tagsMapJson tagsMap) = obj_keys tagsMap.
Proof.
  intros Hwf. unfold tagsMapJson, obj_entries. cbn [json_keys].
  rewrite obj_fromEntries_id
    by apply (obj_wf_values (λ kv, JArr (map tagEntryJson kv.2))), Hwf.
  unfold obj_keys. by rewrite <- list_fmap_compose.
Qed.

Lemma fetch_written (files : gmap jsstring jsstring) (request : Request)
    (file : jsstring) (value : json) :
  requestPath request = js "/" ++ file →
  files !! file = Some (json_pretty 0 value) →
  fetchJson (requestPath request)
    (serve files (basePath site)
       (safePath (basePathOf page) (requestPath request))) = Ok value.
Proof.
  intros Hpath Hfile. rewrite safePath_site, Hpath.
  rewrite (serve_file _ _ _ _ Hfile). cbn [fetchJson].
  by rewrite json_parse_written.
Qed.

(** C0: the widget on a generated site.  When the build returns and the
    page is served from the build directory, the two requests of the
    widget succeed in either order; the widget is then ready with the
    records of all posts, shows what [applyFilters] gives for the controls
    of the page, and the options it adds to an empty tag filter are the
    tags of the posts in collation order. *)
Theorem generated_site_search (templates : Templates) (posts : list Post)
    (tagsMap : tagsmap) (files : list (jsstring * jsstring))
    (before : gmap jsstring jsstring) (first : Request) :
  loadTemplates world = Ok templates →
  readPosts site world = Ok posts →
  w_assets world = Some files →
  buildTagsMap posts = Ok tagsMap →
  Forall (λ post, is_Some (dateOf (VStr (isoDate post)))) posts →
  ∃ s w,
    main site world (initial before) = (s, Ok tt) ∧
    run page (start page) [answer (out s) first; answer (out s) (other first)]
      = Some w ∧
    phase w = Ready (buildSearchIndex posts) ∧
    visible w = expected page w ∧
    inputValue w = initialInput page ∧
    categoryValue w = initialCategory page ∧
    tagValue w = initialTag page ∧
    addedOptions w =
      if decide (serverOptions page ≤ 1)
      then Some (join [] (map renderOption
                            (js_sort localeCompare (obj_keys tagsMap))))
      else None.
Proof.
  intros Ht Hp Ha Htags Hdates.
  destruct (main_built site world Hurl Hmin Hclock templates posts tagsMap
              files Ht Hp Ha Htags Hdates (initial before) eq_refl)
    as ([] & s & Hs & _ & sitemap & robots & time & rss & _ & _ & _ & HA).
  apply artifacts_lookup in HA as (Hindex & Htagsfile & _).
  destruct (run_both page Hroot Hfuse first
              (λ request, serve (out s) (basePath site)
                 (safePath (basePathOf page) (requestPath request)))
              _ _ (buildSearchIndex posts)
              (fetch_written _ IndexRequest _ _ eq_refl Hindex)
              (fetch_written _ TagsRequest _ _ eq_refl Htagsfile))
    as (w & Hrun & Hphase & Hci & Hcc & Hct & Hopts).
  { apply mapM_recordOfJson. unfold buildSearchIndex. apply Forall_map.
    eapply Forall_impl; [by apply (readPosts_wf site world) |].
    intros post Hpost. apply Hpost. }
  exists s, w. split_and!; try done.
  - by eapply reaches_visible, run_reaches.
  - rewrite Hopts. unfold tagOptionsHtml.
    apply buildTagsMap_inv in Htags as (o & _ & -> & _).
    rewrite json_keys_tagsMapJson by apply sortTags_wf.
    destruct (decide _); [| done]. do 2 f_equal.
Qed.

End Generated.

